(** * Serenity dashboard: the aggregation and insight pipeline of
    [src/app/api/dashboard/route.ts]

    The development embeds the route handler [GET], the raw data assembler
    [collectRawData] (its SQL queries over the tables they read and the two
    JavaScript merge steps), the agent runner [runGeminiAgent] and the
    orchestrator [analyzeDataWithGeminiAgents], and states the properties of
    the specification over these definitions. *)

From Stdlib Require Import ZArith NArith QArith Qround List String Ascii Bool Lia.
From Stdlib Require Import Permutation Sorted.
Import ListNotations.

Set Warnings "-register-all".

(** ** JavaScript strings

    A JavaScript string is a sequence of UTF-16 code units.  Literals of the
    source that are plain ASCII are written with [lit]; the few accented
    letters are given by their code unit. *)

Definition jsstring := list N.

Definition lit (s : string) : jsstring :=
  map N_of_ascii (list_ascii_of_string s).

Fixpoint str_eqb (a b : jsstring) : bool :=
  match a, b with
  | [], [] => true
  | x :: a', y :: b' => N.eqb x y && str_eqb a' b'
  | _, _ => false
  end.

Fixpoint starts_with (p s : jsstring) : bool :=
  match p, s with
  | [], _ => true
  | x :: p', y :: s' => N.eqb x y && starts_with p' s'
  | _ :: _, [] => false
  end.

(** [String.prototype.trim] removes the code points of the WhiteSpace and
    LineTerminator productions from both ends. *)
Definition is_trim_space (c : N) : bool :=
  ((9 <=? c) && (c <=? 13) || (c =? 32) || (c =? 160) || (c =? 5760)
   || (8192 <=? c) && (c <=? 8202) || (c =? 8232) || (c =? 8233)
   || (c =? 8239) || (c =? 8287) || (c =? 12288) || (c =? 65279))%N.

Fixpoint trimStart (s : jsstring) : jsstring :=
  match s with
  | [] => []
  | c :: r => if is_trim_space c then trimStart r else s
  end.

Definition trimEnd (s : jsstring) : jsstring := rev (trimStart (rev s)).

Definition trim (s : jsstring) : jsstring := trimEnd (trimStart s).

(** [text.replace(/```json|```/g, '')]: one pass from the left; at each
    position the alternative [```json] is tried before [```]; a match is
    deleted and the scan resumes behind it.  [skip] counts the code units of
    the current match that are still to be dropped. *)
Definition fence : jsstring := [96; 96; 96]%N.
Definition fence_json : jsstring := (fence ++ lit "json")%list.

Fixpoint replace_fences_from (skip : nat) (s : jsstring) : jsstring :=
  match s with
  | [] => []
  | c :: r =>
      match skip with
      | S k => replace_fences_from k r
      | O =>
          if starts_with fence_json s then replace_fences_from 6 r
          else if starts_with fence s then replace_fences_from 2 r
          else c :: replace_fences_from 0 r
      end
  end.

Definition replace_fences (s : jsstring) : jsstring := replace_fences_from 0 s.

(** [text.match(/\{[\s\S]*\}/)]: the match starts at the leftmost [{]; the
    greedy star then runs to the end of the text and backtracks to the last
    [}] behind that brace.  Without a [}] behind the leftmost [{] no later
    start can match either. *)
Definition lbrace : N := 123%N.
Definition rbrace : N := 125%N.

Fixpoint from_first (c : N) (s : jsstring) : option jsstring :=
  match s with
  | [] => None
  | x :: r => if N.eqb x c then Some r else from_first c r
  end.

Fixpoint upto_last (c : N) (s : jsstring) : option jsstring :=
  match s with
  | [] => None
  | x :: r =>
      match upto_last c r with
      | Some m => Some (x :: m)
      | None => if N.eqb x c then Some [x] else None
      end
  end.

Definition match_braces (s : jsstring) : option jsstring :=
  match from_first lbrace s with
  | None => None
  | Some body =>
      match upto_last rbrace body with
      | None => None
      | Some m => Some (lbrace :: m)
      end
  end.

(** ** JSON values and [JSON.parse]

    [JSON.parse] is the JSON grammar of ECMA-404: a lexer over code units
    followed by a pushdown recogniser.  A number keeps its literal (its
    conversion to a double is not needed here); an object keeps its members
    in source order. *)

Inductive json : Type :=
| JNull
| JBool (b : bool)
| JNumber (literal : jsstring)
| JString (s : jsstring)
| JArray (items : list json)
| JObject (members : list (jsstring * json)).

Inductive token : Type :=
| TLBrace | TRBrace | TLBracket | TRBracket | TColon | TComma
| TString (s : jsstring)
| TNumber (literal : jsstring)
| TTrue | TFalse | TNull.

Inductive numstate : Type :=
| NMinus | NZero | NInt | NDot | NFrac | NExp | NExpSign | NExpDigits.

Inductive lstate : Type :=
| LStart
| LStr (acc : jsstring)
| LEsc (acc : jsstring)
| LHex (acc : jsstring) (value : N) (seen : nat)
| LNum (st : numstate) (acc : jsstring)
| LLit (rest : jsstring) (tok : token).

Definition is_json_ws (c : N) : bool :=
  ((c =? 32) || (c =? 9) || (c =? 10) || (c =? 13))%N.

Definition is_digit (c : N) : bool := ((48 <=? c) && (c <=? 57))%N.

Definition hex_value (c : N) : option N :=
  if is_digit c then Some (c - 48)%N
  else if ((97 <=? c) && (c <=? 102))%N then Some (c - 87)%N
  else if ((65 <=? c) && (c <=? 70))%N then Some (c - 55)%N
  else None.

Definition num_accepting (st : numstate) : bool :=
  match st with
  | NZero | NInt | NFrac | NExpDigits => true
  | _ => false
  end.

(** The lexer between two tokens. *)
Definition start_step (c : N) : option (lstate * list token) :=
  if is_json_ws c then Some (LStart, [])
  else if (c =? 123)%N then Some (LStart, [TLBrace])
  else if (c =? 125)%N then Some (LStart, [TRBrace])
  else if (c =? 91)%N then Some (LStart, [TLBracket])
  else if (c =? 93)%N then Some (LStart, [TRBracket])
  else if (c =? 58)%N then Some (LStart, [TColon])
  else if (c =? 44)%N then Some (LStart, [TComma])
  else if (c =? 34)%N then Some (LStr [], [])
  else if (c =? 45)%N then Some (LNum NMinus [c], [])
  else if (c =? 48)%N then Some (LNum NZero [c], [])
  else if is_digit c then Some (LNum NInt [c], [])
  else if (c =? 116)%N then Some (LLit (lit "rue") TTrue, [])
  else if (c =? 102)%N then Some (LLit (lit "alse") TFalse, [])
  else if (c =? 110)%N then Some (LLit (lit "ull") TNull, [])
  else None.

(** One code unit inside a number: the next state of the number automaton,
    or [None] when the code unit does not continue the number. *)
Definition num_step (st : numstate) (c : N) : option numstate :=
  let is_e := ((c =? 101) || (c =? 69))%N in
  match st with
  | NMinus => if (c =? 48)%N then Some NZero
              else if is_digit c then Some NInt else None
  | NZero => if (c =? 46)%N then Some NDot
             else if is_e then Some NExp else None
  | NInt => if is_digit c then Some NInt
            else if (c =? 46)%N then Some NDot
            else if is_e then Some NExp else None
  | NDot => if is_digit c then Some NFrac else None
  | NFrac => if is_digit c then Some NFrac
             else if is_e then Some NExp else None
  | NExp => if ((c =? 43) || (c =? 45))%N then Some NExpSign
            else if is_digit c then Some NExpDigits else None
  | NExpSign => if is_digit c then Some NExpDigits else None
  | NExpDigits => if is_digit c then Some NExpDigits else None
  end.

Definition lex_step (st : lstate) (c : N) : option (lstate * list token) :=
  match st with
  | LStart => start_step c
  | LStr acc =>
      if (c =? 34)%N then Some (LStart, [TString (rev acc)])
      else if (c =? 92)%N then Some (LEsc acc, [])
      else if (c <? 32)%N then None
      else Some (LStr (c :: acc), [])
  | LEsc acc =>
      if ((c =? 34) || (c =? 92) || (c =? 47))%N then Some (LStr (c :: acc), [])
      else if (c =? 98)%N then Some (LStr (8%N :: acc), [])
      else if (c =? 102)%N then Some (LStr (12%N :: acc), [])
      else if (c =? 110)%N then Some (LStr (10%N :: acc), [])
      else if (c =? 114)%N then Some (LStr (13%N :: acc), [])
      else if (c =? 116)%N then Some (LStr (9%N :: acc), [])
      else if (c =? 117)%N then Some (LHex acc 0%N 0, [])
      else None
  | LHex acc v seen =>
      match hex_value c with
      | None => None
      | Some d =>
          let v' := (16 * v + d)%N in
          if Nat.eqb seen 3 then Some (LStr (v' :: acc), [])
          else Some (LHex acc v' (S seen), [])
      end
  | LNum ns acc =>
      match num_step ns c with
      | Some ns' => Some (LNum ns' (c :: acc), [])
      | None =>
          if num_accepting ns then
            match start_step c with
            | Some (st', toks) => Some (st', TNumber (rev acc) :: toks)
            | None => None
            end
          else None
      end
  | LLit rest tok =>
      match rest with
      | [] => None
      | x :: rest' =>
          if N.eqb c x then
            match rest' with
            | [] => Some (LStart, [tok])
            | _ => Some (LLit rest' tok, [])
            end
          else None
      end
  end.

Definition lex_end (st : lstate) : option (list token) :=
  match st with
  | LStart => Some []
  | LNum ns acc => if num_accepting ns then Some [TNumber (rev acc)] else None
  | _ => None
  end.

Fixpoint lex (st : lstate) (s : jsstring) : option (list token) :=
  match s with
  | [] => lex_end st
  | c :: r =>
      match lex_step st c with
      | None => None
      | Some (st', toks) =>
          match lex st' r with
          | None => None
          | Some more => Some (toks ++ more)
          end
      end
  end.

(** The recogniser: a stack of the containers that are still open. *)
Inductive frame : Type :=
| FArr (items : list json)
| FObj (members : list (jsstring * json)) (key : option jsstring).

Inductive pstate : Type :=
| PValue          (* a value is due *)
| PArrFirst       (* behind [[]: a value or []] *)
| PObjFirst       (* behind [{]: a key or [}] *)
| PObjKey         (* behind a comma of an object: a key *)
| PColon          (* behind a key *)
| PAfter          (* behind a value inside a container *)
| PDone (v : json).

Definition deliver (v : json) (stack : list frame) : option (pstate * list frame) :=
  match stack with
  | [] => Some (PDone v, [])
  | FArr items :: st => Some (PAfter, FArr (v :: items) :: st)
  | FObj ms (Some k) :: st => Some (PAfter, FObj ((k, v) :: ms) None :: st)
  | FObj _ None :: _ => None
  end.

Definition value_start (t : token) (stack : list frame)
  : option (pstate * list frame) :=
  match t with
  | TString s => deliver (JString s) stack
  | TNumber n => deliver (JNumber n) stack
  | TTrue => deliver (JBool true) stack
  | TFalse => deliver (JBool false) stack
  | TNull => deliver JNull stack
  | TLBracket => Some (PArrFirst, FArr [] :: stack)
  | TLBrace => Some (PObjFirst, FObj [] None :: stack)
  | _ => None
  end.

Definition set_key (k : jsstring) (stack : list frame)
  : option (pstate * list frame) :=
  match stack with
  | FObj ms None :: st => Some (PColon, FObj ms (Some k) :: st)
  | _ => None
  end.

Definition parse_step (ps : pstate) (stack : list frame) (t : token)
  : option (pstate * list frame) :=
  match ps with
  | PValue => value_start t stack
  | PArrFirst =>
      match t, stack with
      | TRBracket, FArr items :: st => deliver (JArray (rev items)) st
      | TRBracket, _ => None
      | _, _ => value_start t stack
      end
  | PObjFirst =>
      match t, stack with
      | TRBrace, FObj ms None :: st => deliver (JObject (rev ms)) st
      | TString k, _ => set_key k stack
      | _, _ => None
      end
  | PObjKey =>
      match t with
      | TString k => set_key k stack
      | _ => None
      end
  | PColon =>
      match t with
      | TColon => Some (PValue, stack)
      | _ => None
      end
  | PAfter =>
      match t, stack with
      | TComma, FArr _ :: _ => Some (PValue, stack)
      | TRBracket, FArr items :: st => deliver (JArray (rev items)) st
      | TComma, FObj _ None :: _ => Some (PObjKey, stack)
      | TRBrace, FObj ms None :: st => deliver (JObject (rev ms)) st
      | _, _ => None
      end
  | PDone _ => None
  end.

Fixpoint parse_tokens (ps : pstate) (stack : list frame) (ts : list token)
  : option json :=
  match ts with
  | [] => match ps with PDone v => Some v | _ => None end
  | t :: r =>
      match parse_step ps stack t with
      | None => None
      | Some (ps', stack') => parse_tokens ps' stack' r
      end
  end.

Definition JSON_parse (s : jsstring) : option json :=
  match lex LStart s with
  | None => None
  | Some ts => parse_tokens PValue [] ts
  end.

(** ** Exceptions

    A JavaScript computation either returns or throws; what is thrown is an
    [Error] object with its message or some other value. *)

Inductive thrown : Type :=
| ErrorObject (message : jsstring)
| NonError.

Inductive result (A : Type) : Type :=
| Ok (a : A)
| Throw (e : thrown).

Arguments Ok {A} a.
Arguments Throw {A} e.

Definition bind {A B : Type} (m : result A) (k : A -> result B) : result B :=
  match m with
  | Ok a => k a
  | Throw e => Throw e
  end.

Notation "x <- m ;; k" := (bind m (fun x => k))
  (at level 61, m at next level, right associativity).

(** ** The agent runner *)

Inductive Agent : Type :=
| AnalisisEfectividad
| AnalisisPatrones
| AnalisisCorrelaciones
| AnalisisTendencias
| AnalisisRecomendaciones
| AnalisisRespuestas.

Definition agentName (a : Agent) : jsstring :=
  match a with
  | AnalisisEfectividad => lit "AnalisisEfectividad"
  | AnalisisPatrones => lit "AnalisisPatrones"
  | AnalisisCorrelaciones => lit "AnalisisCorrelaciones"
  | AnalisisTendencias => lit "AnalisisTendencias"
  | AnalisisRecomendaciones => lit "AnalisisRecomendaciones"
  | AnalisisRespuestas => lit "AnalisisRespuestas"
  end.

(** [new Error(`El agente ${agentName} no generó JSON válido`)] *)
Definition invalid_json_error (name : jsstring) : thrown :=
  ErrorObject (lit "El agente " ++ name ++ lit " no gener" ++ [243%N]
               ++ lit " JSON v" ++ [225%N] ++ lit "lido").

(** [runGeminiAgent]: [generated] is what [model.generateContent] followed
    by [response.text()] did for this agent's prompt, a text or an exception.
    The outer [catch] logs and rethrows. *)
Definition runGeminiAgent (generated : result jsstring) (name : jsstring)
  : result json :=
  match generated with
  | Throw error => Throw error
  | Ok text =>
      let analysisText := trim (replace_fences text) in
      match JSON_parse analysisText with
      | Some parsed => Ok parsed
      | None =>
          match match_braces analysisText with
          | Some jsonMatch =>
              match JSON_parse jsonMatch with
              | Some parsed => Ok parsed
              | None => Throw (invalid_json_error name)
              end
          | None => Throw (invalid_json_error name)
          end
      end
  end.

(** ** The snapshot *)

(** An exact decimal number [unscaled / 10 ^ scale].  Numbers are kept by
    their value; how the driver writes a [DECIMAL] into the row object is
    not modelled. *)
Record decimal : Type := { unscaled : Z; scale : nat }.

Definition js_zero : decimal := {| unscaled := 0; scale := 0 |}.

(** A property of a row object: not there, [null], or a value. *)
Inductive field (A : Type) : Type :=
| Absent
| Null
| Present (a : A).

Arguments Absent {A}.
Arguments Null {A}.
Arguments Present {A} a.

Record UserStats : Type := {
  total : Z;
  nuevos_este_mes : Z;
  tests_totales : Z;
  mensajes_totales : Z
}.

Record DataPoint : Type := { dp_name : jsstring; dp_value : Z }.

Record AgeDistributionPoint : Type := { age_name : jsstring; age_count : Z }.

Record MonthlyUsers : Type := {
  mu_month : jsstring;
  mu_name : jsstring;
  mu_usuarios : Z
}.

Record MonthlyTests : Type := { mt_month : jsstring; mt_tests : Z }.

Record MonthlyData : Type := {
  md_month : jsstring;
  md_name : jsstring;
  md_usuarios : Z;
  md_tests : Z
}.

(** A value read out of a JavaScript object: [undefined], a string, or a
    member that every object inherits from [Object.prototype]. *)
Inductive jsvalue : Type :=
| JsUndefined
| JsString (s : jsstring)
| JsInherited (member : jsstring).

(** The weekly rows before ([D := jsstring]) and after ([D := jsvalue]) the
    translation of the day label. *)
Record MessageActivity (D : Type) : Type := {
  dia : D;
  mensajes : Z;
  chatbots : option Z
}.

Arguments dia {D} _.
Arguments mensajes {D} _.
Arguments chatbots {D} _.

Record CorrelationData : Type := {
  score : jsstring;
  promedio_mensajes : option decimal
}.

Record Efectividad : Type := {
  total_usuarios : field Z;
  mejoraron : field Z;
  porcentaje_mejora : field decimal
}.

Record Retencion : Type := {
  promedio_meses_uso : field decimal;
  usuarios_activos_este_mes : field Z;
  usuarios_activos_mes_anterior : field Z;
  tasa_retencion : field decimal
}.

Record PatronUso : Type := { hora : Z; pu_mensajes : Z }.

Record RespuestaExtra : Type := { respuestas_extra : jsstring }.

Record ChatAnalytic : Type := {
  chat_id : Z;
  chat_name : jsstring;
  user_gender : option jsstring;
  user_age : option Z;
  message_count : Z;
  max_ansiedad : option Z;
  max_depresion : option Z
}.

Record RawData : Type := {
  userStats : UserStats;
  anxietyLevels : list DataPoint;
  depressionLevels : list DataPoint;
  ageDistribution : list AgeDistributionPoint;
  genderDistribution : list DataPoint;
  monthlyActivity : list MonthlyData;
  messageActivity : list (MessageActivity jsvalue);
  correlationData : list CorrelationData;
  efectividad : Efectividad;
  retencion : Retencion;
  patronesUso : list PatronUso;
  respuestasExtra : list RespuestaExtra;
  chatAnalytics : list ChatAnalytic
}.

Record GeminiInsights : Type := {
  effectiveness : json;
  significantPatterns : json;
  correlations : json;
  temporalTrends : json;
  recommendations : json;
  responseAnalysis : json
}.

(** [{ ...rawData, geminiInsights }] *)
Record EnhancedData : Type := {
  rawData : RawData;
  geminiInsights : GeminiInsights
}.

(** ** The two merge steps of [collectRawData] *)

(** [monthlyUsers.map(month => { const matchingTests = monthlyTests.find(
    test => test.month === month.month); return { ...month, tests:
    matchingTests ? matchingTests.tests : 0 } })] *)
Definition combineMonthlyData (monthlyUsers : list MonthlyUsers)
  (monthlyTests : list MonthlyTests) : list MonthlyData :=
  map (fun month =>
         let matchingTests :=
           find (fun test => str_eqb (mt_month test) (mu_month month))
                monthlyTests in
         {| md_month := mu_month month;
            md_name := mu_name month;
            md_usuarios := mu_usuarios month;
            md_tests := match matchingTests with
                        | Some test => mt_tests test
                        | None => 0%Z
                        end |})
      monthlyUsers.

Definition diasTraducidos : list (jsstring * jsstring) :=
  [ (lit "Mon", lit "Lun");
    (lit "Tue", lit "Mar");
    (lit "Wed", lit "Mi" ++ [233%N]);
    (lit "Thu", lit "Jue");
    (lit "Fri", lit "Vie");
    (lit "Sat", lit "S" ++ [225%N] ++ lit "b");
    (lit "Sun", lit "Dom") ].

(** The members of [Object.prototype], which an object literal inherits. *)
Definition Object_prototype : list jsstring :=
  [ lit "constructor"; lit "hasOwnProperty"; lit "isPrototypeOf";
    lit "propertyIsEnumerable"; lit "toLocaleString"; lit "toString";
    lit "valueOf"; lit "__proto__"; lit "__defineGetter__";
    lit "__defineSetter__"; lit "__lookupGetter__"; lit "__lookupSetter__" ].

Fixpoint own_property (o : list (jsstring * jsstring)) (key : jsstring)
  : option jsstring :=
  match o with
  | [] => None
  | (k, v) :: r => if str_eqb k key then Some v else own_property r key
  end.

Definition inherited (key : jsstring) : bool :=
  existsb (str_eqb key) Object_prototype.

(** [o[key]] for an object literal [o] with string values: an own property
    first, then the prototype. *)
Definition get (o : list (jsstring * jsstring)) (key : jsstring) : jsvalue :=
  match own_property o key with
  | Some v => JsString v
  | None => if inherited key then JsInherited key else JsUndefined
  end.

Definition truthy (v : jsvalue) : bool :=
  match v with
  | JsUndefined => false
  | JsString [] => false
  | JsString (_ :: _) => true
  | JsInherited _ => true
  end.

(** [a || b] *)
Definition js_or (a b : jsvalue) : jsvalue := if truthy a then a else b.

(** [messageActivity.map(day => ({ ...day, dia: diasTraducidos[day.dia] ||
    day.dia }))] *)
Definition translateDay (day : MessageActivity jsstring)
  : MessageActivity jsvalue :=
  {| dia := js_or (get diasTraducidos (dia day)) (JsString (dia day));
     mensajes := mensajes day;
     chatbots := chatbots day |}.

Definition translateMessageActivity
  (messageActivity : list (MessageActivity jsstring))
  : list (MessageActivity jsvalue) :=
  map translateDay messageActivity.

(** ** The data source gateway

    [executeQuery] of [lib/db.js] runs the query on the pool and rethrows
    whatever the driver throws.  A [Gateway] records, for each query of
    [collectRawData] in source order, what running it does on the request at
    hand: the rows, or the exception. *)

Record CountRow : Type := { cr_total : Z }.

Record Gateway : Type := {
  q_userCount : result (list CountRow);
  q_newUsersThisMonth : result (list CountRow);
  q_testCount : result (list CountRow);
  q_messageCount : result (list CountRow);
  q_anxietyLevels : result (list DataPoint);
  q_depressionLevels : result (list DataPoint);
  q_ageDistribution : result (list AgeDistributionPoint);
  q_genderDistribution : result (list DataPoint);
  q_monthlyUsers : result (list MonthlyUsers);
  q_monthlyTests : result (list MonthlyTests);
  q_messageActivity : result (list (MessageActivity jsstring));
  q_correlationData : result (list CorrelationData);
  q_efectividad : result (list Efectividad);
  q_retencion : result (list Retencion);
  q_patronesUso : result (list PatronUso);
  q_respuestasExtra : result (list RespuestaExtra);
  q_chatAnalytics : result (list ChatAnalytic)
}.

Definition executeQuery {A : Type} (outcome : result A) : result A :=
  match outcome with
  | Ok results => Ok results
  | Throw error => Throw error
  end.

(** [rows[0]?.total || 0] *)
Definition first_total (rows : list CountRow) : Z :=
  match rows with
  | [] => 0%Z
  | row :: _ => if (cr_total row =? 0)%Z then 0%Z else cr_total row
  end.

(** [rows[0] || fallback]: a row object is truthy. *)
Definition first_or {A : Type} (rows : list A) (fallback : A) : A :=
  match rows with
  | [] => fallback
  | row :: _ => row
  end.

Definition default_efectividad : Efectividad :=
  {| total_usuarios := Absent;
     mejoraron := Absent;
     porcentaje_mejora := Present js_zero |}.

Definition default_retencion : Retencion :=
  {| promedio_meses_uso := Present js_zero;
     usuarios_activos_este_mes := Absent;
     usuarios_activos_mes_anterior := Absent;
     tasa_retencion := Present js_zero |}.

Definition collectRawData (gw : Gateway) : result RawData :=
  userCount <- executeQuery (q_userCount gw) ;;
  newUsersThisMonth <- executeQuery (q_newUsersThisMonth gw) ;;
  testCount <- executeQuery (q_testCount gw) ;;
  messageCount <- executeQuery (q_messageCount gw) ;;
  anxietyLevels' <- executeQuery (q_anxietyLevels gw) ;;
  depressionLevels' <- executeQuery (q_depressionLevels gw) ;;
  ageDistribution' <- executeQuery (q_ageDistribution gw) ;;
  genderDistribution' <- executeQuery (q_genderDistribution gw) ;;
  monthlyUsers <- executeQuery (q_monthlyUsers gw) ;;
  monthlyTests <- executeQuery (q_monthlyTests gw) ;;
  let combinedMonthlyData := combineMonthlyData monthlyUsers monthlyTests in
  messageActivity' <- executeQuery (q_messageActivity gw) ;;
  let messageActivityTranslated := translateMessageActivity messageActivity' in
  correlationData' <- executeQuery (q_correlationData gw) ;;
  efectividad' <- executeQuery (q_efectividad gw) ;;
  retencion' <- executeQuery (q_retencion gw) ;;
  patronesUso' <- executeQuery (q_patronesUso gw) ;;
  respuestasExtra' <- executeQuery (q_respuestasExtra gw) ;;
  chatAnalytics' <- executeQuery (q_chatAnalytics gw) ;;
  Ok {| userStats :=
          {| total := first_total userCount;
             nuevos_este_mes := first_total newUsersThisMonth;
             tests_totales := first_total testCount;
             mensajes_totales := first_total messageCount |};
        anxietyLevels := anxietyLevels';
        depressionLevels := depressionLevels';
        ageDistribution := ageDistribution';
        genderDistribution := genderDistribution';
        monthlyActivity := combinedMonthlyData;
        messageActivity := messageActivityTranslated;
        correlationData := correlationData';
        efectividad := first_or efectividad' default_efectividad;
        retencion := first_or retencion' default_retencion;
        patronesUso := patronesUso';
        respuestasExtra := respuestasExtra';
        chatAnalytics := chatAnalytics' |}.

(** The exceptions of the queries that fail, in source order. *)
Definition failure {A : Type} (outcome : result A) : list thrown :=
  match outcome with
  | Ok _ => []
  | Throw e => [e]
  end.

Definition failures (gw : Gateway) : list thrown :=
  failure (q_userCount gw) ++ failure (q_newUsersThisMonth gw)
  ++ failure (q_testCount gw) ++ failure (q_messageCount gw)
  ++ failure (q_anxietyLevels gw) ++ failure (q_depressionLevels gw)
  ++ failure (q_ageDistribution gw) ++ failure (q_genderDistribution gw)
  ++ failure (q_monthlyUsers gw) ++ failure (q_monthlyTests gw)
  ++ failure (q_messageActivity gw) ++ failure (q_correlationData gw)
  ++ failure (q_efectividad gw) ++ failure (q_retencion gw)
  ++ failure (q_patronesUso gw) ++ failure (q_respuestasExtra gw)
  ++ failure (q_chatAnalytics gw).

(** ** The orchestrator *)

(** The narrative backend of one request: for each agent's prompt, the text
    it generates or the exception of the call. *)
Definition Backend : Type := Agent -> result jsstring.

Definition runAgent (backend : Backend) (a : Agent) : result json :=
  runGeminiAgent (backend a) (agentName a).

(** [await Promise.all([...])] over the six runs: the six values when every
    run returns, and a rejection when one throws.  The handler of the
    rejection does not look at its reason. *)
Definition runAllAgents (backend : Backend) : result GeminiInsights :=
  effectivenessAnalysis <- runAgent backend AnalisisEfectividad ;;
  significantPatternsAnalysis <- runAgent backend AnalisisPatrones ;;
  correlationsAnalysis <- runAgent backend AnalisisCorrelaciones ;;
  temporalTrendsAnalysis <- runAgent backend AnalisisTendencias ;;
  recommendationsAnalysis <- runAgent backend AnalisisRecomendaciones ;;
  responseAnalysis' <- runAgent backend AnalisisRespuestas ;;
  Ok {| effectiveness := effectivenessAnalysis;
        significantPatterns := significantPatternsAnalysis;
        correlations := correlationsAnalysis;
        temporalTrends := temporalTrendsAnalysis;
        recommendations := recommendationsAnalysis;
        responseAnalysis := responseAnalysis' |}.

(** The insights of the [catch] branch. *)
Definition fallbackInsights : GeminiInsights :=
  {| effectiveness :=
       JObject [ (lit "insight", JString (lit "Error al analizar efectividad"));
                 (lit "score", JNumber (lit "0")) ];
     significantPatterns := JArray [JString (lit "Error al analizar patrones")];
     correlations := JArray [JString (lit "Error al analizar correlaciones")];
     temporalTrends := JArray [JString (lit "Error al analizar tendencias")];
     recommendations :=
       JArray [JString (lit "Error al generar recomendaciones")];
     responseAnalysis :=
       JObject [ (lit "commonPatterns", JArray []);
                 (lit "keyInsights",
                  JArray [JString (lit "Error al analizar respuestas")]);
                 (lit "recommendedActions", JArray []) ] |}.

Definition analyzeDataWithGeminiAgents (backend : Backend) (raw : RawData)
  : EnhancedData :=
  match runAllAgents backend with
  | Ok insights => {| rawData := raw; geminiInsights := insights |}
  | Throw _ => {| rawData := raw; geminiInsights := fallbackInsights |}
  end.

(** ** The route handler *)

Record Response : Type := {
  status : Z;
  success : bool;
  stats : option EnhancedData;
  error : option jsstring
}.

(** [error instanceof Error ? error.message : 'Error desconocido'] *)
Definition errorMessage (e : thrown) : jsstring :=
  match e with
  | ErrorObject message => message
  | NonError => lit "Error desconocido"
  end.

Definition GET (gw : Gateway) (backend : Backend) : Response :=
  match collectRawData gw with
  | Ok raw =>
      {| status := 200;
         success := true;
         stats := Some (analyzeDataWithGeminiAgents backend raw);
         error := None |}
  | Throw e =>
      {| status := 500;
         success := false;
         stats := None;
         error := Some (errorMessage e) |}
  end.

(** ** MySQL: dates and times *)

Record datetime : Type := {
  dt_year : Z;
  dt_month : Z;
  dt_day : Z;
  dt_hour : Z;
  dt_minute : Z;
  dt_second : Z
}.

Fixpoint compare_fields (a b : list Z) : comparison :=
  match a, b with
  | x :: a', y :: b' =>
      match Z.compare x y with
      | Eq => compare_fields a' b'
      | c => c
      end
  | _, _ => Eq
  end.

Definition dt_fields (d : datetime) : list Z :=
  [dt_year d; dt_month d; dt_day d; dt_hour d; dt_minute d; dt_second d].

Definition dt_compare (a b : datetime) : comparison :=
  compare_fields (dt_fields a) (dt_fields b).

Definition dt_leb (a b : datetime) : bool :=
  match dt_compare a b with Gt => false | _ => true end.

Definition dt_eqb (a b : datetime) : bool :=
  match dt_compare a b with Eq => true | _ => false end.

Definition dt_min (a b : datetime) : datetime := if dt_leb a b then a else b.
Definition dt_max (a b : datetime) : datetime := if dt_leb a b then b else a.

Definition is_leap (y : Z) : bool :=
  ((y mod 4 =? 0) && (negb (y mod 100 =? 0) || (y mod 400 =? 0)))%Z.

Definition days_in_month (y m : Z) : Z :=
  (if m =? 2 then (if is_leap y then 29 else 28)
   else if (m =? 4) || (m =? 6) || (m =? 9) || (m =? 11) then 30
   else 31)%Z.

(** [d - INTERVAL n MONTH]: the month moves back, the day is cut to the
    length of the month reached. *)
Definition sub_months (n : Z) (d : datetime) : datetime :=
  let months := (dt_year d * 12 + (dt_month d - 1) - n)%Z in
  let y := (months / 12)%Z in
  let m := (months mod 12 + 1)%Z in
  {| dt_year := y;
     dt_month := m;
     dt_day := Z.min (dt_day d) (days_in_month y m);
     dt_hour := dt_hour d;
     dt_minute := dt_minute d;
     dt_second := dt_second d |}.

(** [DATE_FORMAT(d, '%Y-%m-01')] read back as a point in time, which is what
    the comparison with a date column does: the first day of the month of
    [d], at midnight. *)
Definition first_of_month (d : datetime) : datetime :=
  {| dt_year := dt_year d;
     dt_month := dt_month d;
     dt_day := 1;
     dt_hour := 0;
     dt_minute := 0;
     dt_second := 0 |}.

(** The day number of a calendar date (proleptic Gregorian). *)
Definition day_number (d : datetime) : Z :=
  (let y := if dt_month d <=? 2 then dt_year d - 1 else dt_year d in
   let era := y / 400 in
   let yoe := y - era * 400 in
   let mp := if dt_month d <=? 2 then dt_month d + 9 else dt_month d - 3 in
   let doy := (153 * mp + 2) / 5 + dt_day d - 1 in
   let doe := yoe * 365 + yoe / 4 - yoe / 100 + doy in
   era * 146097 + doe)%Z.

(** [DATEDIFF(a, b)]: days from the date of [b] to the date of [a]; the
    times of day are not looked at. *)
Definition DATEDIFF (a b : datetime) : Z := (day_number a - day_number b)%Z.

Definition second_of_day (d : datetime) : Z :=
  (dt_hour d * 3600 + dt_minute d * 60 + dt_second d)%Z.

(** [TIMESTAMPDIFF(MONTH, a, b)]: whole months from [a] to [b]. *)
Definition TIMESTAMPDIFF_MONTH (a b : datetime) : Z :=
  (let neg := negb (dt_leb a b) in
   let beg := if neg then b else a in
   let fin := if neg then a else b in
   let wraps := (dt_month fin <? dt_month beg)
                || ((dt_month fin =? dt_month beg) && (dt_day fin <? dt_day beg)) in
   let years := dt_year fin - dt_year beg - (if wraps then 1 else 0) in
   let months := 12 * years
                 + (if wraps then 12 - (dt_month beg - dt_month fin)
                    else dt_month fin - dt_month beg) in
   let months := if dt_day fin <? dt_day beg then months - 1
                 else if (dt_day fin =? dt_day beg)
                         && (second_of_day fin <? second_of_day beg)
                      then months - 1
                      else months in
   if neg then - months else months)%Z.

Definition epoch : datetime :=
  {| dt_year := 1970; dt_month := 1; dt_day := 1;
     dt_hour := 0; dt_minute := 0; dt_second := 0 |}.

(** ** MySQL: expressions and aggregates *)

Definition IFNULL {A : Type} (x : option A) (d : A) : A :=
  match x with
  | Some v => v
  | None => d
  end.

(** Exact-value arithmetic; a [NULL] operand and a division by zero give
    [NULL].  The digits MySQL keeps between two operations are not
    modelled: the quotient is exact. *)
Definition sql_div (a b : option Q) : option Q :=
  match a, b with
  | Some x, Some y => if Qeq_bool y 0 then None else Some (x / y)%Q
  | _, _ => None
  end.

Definition sql_mul (a b : option Q) : option Q :=
  match a, b with
  | Some x, Some y => Some (x * y)%Q
  | _, _ => None
  end.

(** The nearest integer, a tie going away from zero. *)
Definition round_half_away (q : Q) : Z :=
  if Qle_bool 0 q then Qfloor (q + (1 # 2))%Q else Qceiling (q - (1 # 2))%Q.

(** [ROUND(x, d)] as the property of the row object. *)
Definition ROUND (x : option Q) (d : nat) : field decimal :=
  match x with
  | None => Null
  | Some q =>
      Present {| unscaled := round_half_away (q * inject_Z (10 ^ Z.of_nat d))%Q;
                 scale := d |}
  end.

Definition count {A : Type} (p : A -> bool) (rows : list A) : Z :=
  Z.of_nat (List.length (filter p rows)).

(** [SUM] and [AVG] over no row are [NULL]. *)
Definition SUM (xs : list Z) : option Z :=
  match xs with
  | [] => None
  | _ => Some (fold_left Z.add xs 0%Z)
  end.

Definition AVG (xs : list Z) : option Q :=
  sql_div (option_map inject_Z (SUM xs))
          (Some (inject_Z (Z.of_nat (List.length xs)))).

Definition nullable {A : Type} (x : option A) : field A :=
  match x with
  | Some v => Present v
  | None => Null
  end.

(** [GROUP BY key] with [COUNT( * )]: one group per key, in the order in which
    the keys first occur. *)
Fixpoint bump {K : Type} (eqb : K -> K -> bool) (k : K) (groups : list (K * Z))
  : list (K * Z) :=
  match groups with
  | [] => [(k, 1%Z)]
  | (k', n) :: r =>
      if eqb k' k then (k', (n + 1)%Z) :: r else (k', n) :: bump eqb k r
  end.

Definition group_count {K : Type} (eqb : K -> K -> bool) (keys : list K)
  : list (K * Z) :=
  fold_left (fun groups k => bump eqb k groups) keys [].

(** [FIELD(s, s1, s2, ...)]: the position of [s] in the list, from 1, and 0
    when it is not there. *)
Fixpoint FIELD_from (i : Z) (s : jsstring) (l : list jsstring) : Z :=
  match l with
  | [] => 0%Z
  | x :: r => if str_eqb s x then i else FIELD_from (i + 1)%Z s r
  end.

Definition FIELD (s : jsstring) (l : list jsstring) : Z := FIELD_from 1 s l.

(** [ORDER BY key]: a stable sort. *)
Fixpoint insert_by {A : Type} (key : A -> Z) (x : A) (l : list A) : list A :=
  match l with
  | [] => [x]
  | y :: r => if (key y <=? key x)%Z then y :: insert_by key x r else x :: l
  end.

Definition order_by {A : Type} (key : A -> Z) (l : list A) : list A :=
  fold_left (fun sorted x => insert_by key x sorted) l [].

(** ** The tables

    The columns that the queries read; the schema is not part of the
    sources.  [age] is a whole number of years, as the ranges of the age
    query take it; [age], [gender] and [ansiedad_score] can be [NULL], as the
    queries test them for it; the dates are not [NULL].  Strings are compared
    code unit by code unit.  A name in a [GROUP BY] or [ORDER BY] clause that
    is an alias of the select list stands for the aliased expression. *)

Record User : Type := {
  u_id : Z;
  u_created_at : datetime;
  u_updated_at : datetime;
  u_age : option Z;
  u_gender : option jsstring
}.

Record Chat : Type := {
  c_user_id : Z;
  c_updated_at : datetime
}.

Record Test : Type := {
  rt_usuario_id : Z;
  rt_fecha : datetime;
  rt_ansiedad_score : option Z
}.

Record Database : Type := {
  users : list User;
  chats : list Chat;
  resultados_test : list Test
}.

(** ** The queries of [collectRawData] *)

(** [SELECT COUNT( * ) as total FROM users WHERE created_at >=
    DATE_FORMAT(NOW() - INTERVAL 1 MONTH, '%Y-%m-01')] *)
Definition sql_newUsersThisMonth (now : datetime) (db : Database)
  : list CountRow :=
  [ {| cr_total :=
         count (fun u => dt_leb (first_of_month (sub_months 1 now))
                                (u_created_at u))
               (users db) |} ].

(** The [CASE] of the age query; with a [NULL] age no [WHEN] holds. *)
Definition age_case (age : option Z) : jsstring :=
  match age with
  | None => lit "No especificado"
  | Some a =>
      (if a <? 18 then lit "Menor de 18"
       else if (18 <=? a) && (a <=? 24) then lit "18-24"
       else if (25 <=? a) && (a <=? 34) then lit "25-34"
       else if (35 <=? a) && (a <=? 44) then lit "35-44"
       else if (45 <=? a) && (a <=? 54) then lit "45-54"
       else if 55 <=? a then lit "55+"
       else lit "No especificado")%Z
  end.

Definition age_order : list jsstring :=
  [ lit "Menor de 18"; lit "18-24"; lit "25-34"; lit "35-44"; lit "45-54";
    lit "55+"; lit "No especificado" ].

Definition is_not_null {A : Type} (x : option A) : bool :=
  match x with
  | Some _ => true
  | None => false
  end.

Definition sql_ageDistribution (db : Database) : list AgeDistributionPoint :=
  let rows := filter (fun u => is_not_null (u_age u)) (users db) in
  let groups := group_count str_eqb (map (fun u => age_case (u_age u)) rows) in
  order_by (fun p => FIELD (age_name p) age_order)
           (map (fun g => {| age_name := fst g; age_count := snd g |}) groups).

Definition gender_eqb (a b : option jsstring) : bool :=
  match a, b with
  | None, None => true
  | Some x, Some y => str_eqb x y
  | _, _ => false
  end.

(** [SELECT IFNULL(gender, 'No especificado') as name, COUNT( * ) as value
    FROM users GROUP BY gender] *)
Definition sql_genderDistribution (db : Database) : list DataPoint :=
  map (fun g => {| dp_name := IFNULL (fst g) (lit "No especificado");
                   dp_value := snd g |})
      (group_count gender_eqb (map u_gender (users db))).

(** The effectiveness query.  [user_tests]: one group per [usuario_id] with
    its first and last date, kept when they are at least 30 days apart. *)
Record UserTests : Type := {
  ut_usuario_id : Z;
  primera_fecha : datetime;
  ultima_fecha : datetime
}.

Fixpoint add_test (t : Test) (groups : list UserTests) : list UserTests :=
  match groups with
  | [] => [ {| ut_usuario_id := rt_usuario_id t;
               primera_fecha := rt_fecha t;
               ultima_fecha := rt_fecha t |} ]
  | g :: r =>
      if (ut_usuario_id g =? rt_usuario_id t)%Z
      then {| ut_usuario_id := ut_usuario_id g;
              primera_fecha := dt_min (primera_fecha g) (rt_fecha t);
              ultima_fecha := dt_max (ultima_fecha g) (rt_fecha t) |} :: r
      else g :: add_test t r
  end.

Definition tests_by_user (tests : list Test) : list UserTests :=
  fold_left (fun groups t => add_test t groups) tests [].

Definition user_tests (tests : list Test) : list UserTests :=
  filter (fun g => (30 <=? DATEDIFF (ultima_fecha g) (primera_fecha g))%Z)
         (tests_by_user tests).

(** [scores]: [user_tests] joined with the tests of the user at the first
    date and with the tests of the user at the last date. *)
Record Scores : Type := {
  s_usuario_id : Z;
  primer_score : option Z;
  ultimo_score : option Z
}.

Definition tests_at (tests : list Test) (usuario : Z) (d : datetime)
  : list Test :=
  filter (fun rt => (usuario =? rt_usuario_id rt)%Z && dt_eqb d (rt_fecha rt))
         tests.

Definition scores (tests : list Test) : list Scores :=
  flat_map
    (fun ut =>
       flat_map
         (fun first_test =>
            map (fun last_test =>
                   {| s_usuario_id := ut_usuario_id ut;
                      primer_score := rt_ansiedad_score first_test;
                      ultimo_score := rt_ansiedad_score last_test |})
                (tests_at tests (ut_usuario_id ut) (ultima_fecha ut)))
         (tests_at tests (ut_usuario_id ut) (primera_fecha ut)))
    (user_tests tests).

(** [a < b] holds; with a [NULL] operand it does not. *)
Definition sql_lt (a b : option Z) : bool :=
  match a, b with
  | Some x, Some y => (x <? y)%Z
  | _, _ => false
  end.

(** [CASE WHEN ultimo_score < primer_score THEN 1 ELSE 0 END] *)
Definition mejoro (s : Scores) : Z :=
  if sql_lt (ultimo_score s) (primer_score s) then 1%Z else 0%Z.

Definition sql_efectividad (db : Database) : list Efectividad :=
  let rows := scores (resultados_test db) in
  let n := Z.of_nat (List.length rows) in
  let improved := SUM (map mejoro rows) in
  [ {| total_usuarios := Present n;
       mejoraron := nullable improved;
       porcentaje_mejora :=
         ROUND (sql_mul (sql_div (option_map inject_Z improved)
                                 (Some (inject_Z n)))
                        (Some (inject_Z 100)))
               1 |} ].

(** The retention query.  [user_activity]: one group per [users.id]; the
    left joins add the chats and the tests of the user, whose latest dates
    fall back to ['1970-01-01']. *)
Record UserGroup : Type := {
  ug_id : Z;
  ug_created_at : datetime;
  ug_updated_at : datetime
}.

Fixpoint add_user (u : User) (groups : list UserGroup) : list UserGroup :=
  match groups with
  | [] => [ {| ug_id := u_id u;
               ug_created_at := u_created_at u;
               ug_updated_at := u_updated_at u |} ]
  | g :: r =>
      if (ug_id g =? u_id u)%Z
      then {| ug_id := ug_id g;
              ug_created_at := dt_min (ug_created_at g) (u_created_at u);
              ug_updated_at := dt_max (ug_updated_at g) (u_updated_at u) |} :: r
      else g :: add_user u r
  end.

Definition MAX_date (ds : list datetime) : option datetime :=
  fold_left (fun m d => Some (match m with
                              | None => d
                              | Some x => dt_max x d
                              end))
            ds None.

Record UserActivity : Type := {
  ua_id : Z;
  primera_actividad : datetime;
  ultima_actividad : datetime
}.

Definition user_activity (db : Database) : list UserActivity :=
  map (fun g =>
         let chat_dates :=
           map c_updated_at
               (filter (fun c => (ug_id g =? c_user_id c)%Z) (chats db)) in
         let test_dates :=
           map rt_fecha
               (filter (fun rt => (ug_id g =? rt_usuario_id rt)%Z)
                       (resultados_test db)) in
         {| ua_id := ug_id g;
            primera_actividad := ug_created_at g;
            ultima_actividad :=
              dt_max (dt_max (ug_updated_at g)
                             (IFNULL (MAX_date chat_dates) epoch))
                     (IFNULL (MAX_date test_dates) epoch) |})
      (fold_left (fun groups u => add_user u groups) (users db) []).

Definition meses_uso (db : Database) : list Z :=
  map (fun a => TIMESTAMPDIFF_MONTH (primera_actividad a) (ultima_actividad a))
      (user_activity db).

Definition usuarios_mes_anterior (now : datetime) (db : Database) : Z :=
  count (fun a => dt_leb (sub_months 2 now) (ultima_actividad a))
        (user_activity db).

Definition usuarios_este_mes (now : datetime) (db : Database) : Z :=
  count (fun a => dt_leb (sub_months 1 now) (ultima_actividad a))
        (user_activity db).

Definition sql_retencion (now : datetime) (db : Database) : list Retencion :=
  let este := usuarios_este_mes now db in
  let anterior := usuarios_mes_anterior now db in
  [ {| promedio_meses_uso := ROUND (AVG (meses_uso db)) 1;
       usuarios_activos_este_mes := Present este;
       usuarios_activos_mes_anterior := Present anterior;
       tasa_retencion :=
         ROUND (sql_mul (sql_div (Some (inject_Z este))
                                 (Some (inject_Z anterior)))
                        (Some (inject_Z 100)))
               1 |} ].

(** ** The specification's wording, for comparison with the code *)

(** New users of the calendar month: created between the first day of the
    month of [now] and [now]. *)
Definition spec_new_this_month (now : datetime) (db : Database) : Z :=
  count (fun u => dt_leb (first_of_month now) (u_created_at u)
                  && dt_leb (u_created_at u) now)
        (users db).

(** The first balanced braces-delimited substring: from the leftmost [{]
    that is closed again, up to the brace that closes it. *)
Fixpoint balanced_prefix (depth : nat) (s : jsstring) : option jsstring :=
  match s with
  | [] => None
  | c :: r =>
      if N.eqb c lbrace then option_map (cons c) (balanced_prefix (S depth) r)
      else if N.eqb c rbrace then
             match depth with
             | O => Some [c]
             | S d => option_map (cons c) (balanced_prefix d r)
             end
           else option_map (cons c) (balanced_prefix depth r)
  end.

Fixpoint first_balanced (s : jsstring) : option jsstring :=
  match s with
  | [] => None
  | c :: r =>
      if N.eqb c lbrace then
        match balanced_prefix 0 r with
        | Some m => Some (c :: m)
        | None => first_balanced r
        end
      else first_balanced r
  end.

(** The expected shape of each agent's output. *)
Definition is_string (j : json) : bool :=
  match j with JString _ => true | _ => false end.

Definition is_number (j : json) : bool :=
  match j with JNumber _ => true | _ => false end.

Definition is_string_list (j : json) : bool :=
  match j with JArray items => forallb is_string items | _ => false end.

Fixpoint member (key : jsstring) (members : list (jsstring * json))
  : option json :=
  match members with
  | [] => None
  | (k, v) :: r => if str_eqb k key then Some v else member key r
  end.

Definition has (key : jsstring) (p : json -> bool) (j : json) : bool :=
  match j with
  | JObject members =>
      match member key members with
      | Some v => p v
      | None => false
      end
  | _ => false
  end.

Definition conforms (a : Agent) (j : json) : bool :=
  match a with
  | AnalisisEfectividad =>
      has (lit "insight") is_string j && has (lit "score") is_number j
  | AnalisisRespuestas =>
      has (lit "commonPatterns") is_string_list j
      && has (lit "keyInsights") is_string_list j
      && has (lit "recommendedActions") is_string_list j
  | _ => is_string_list j
  end.

Definition parse_shape (a : Agent) (s : jsstring) : option json :=
  match JSON_parse s with
  | Some v => if conforms a v then Some v else None
  | None => None
  end.

(** The runner as the specification words it: strip the fences, parse
    against the shape, else parse the first balanced braces-delimited
    substring, and fail exactly when both attempts fail. *)
Definition spec_runner (a : Agent) (text : jsstring) : result json :=
  let stripped := trim (replace_fences text) in
  match parse_shape a stripped with
  | Some v => Ok v
  | None =>
      match first_balanced stripped with
      | Some m =>
          match parse_shape a m with
          | Some v => Ok v
          | None => Throw (invalid_json_error (agentName a))
          end
      | None => Throw (invalid_json_error (agentName a))
      end
  end.

(** The bundle as the specification words it: per agent, the parsed output
    or that agent's fallback. *)
Definition insight_of (a : Agent) (g : GeminiInsights) : json :=
  match a with
  | AnalisisEfectividad => effectiveness g
  | AnalisisPatrones => significantPatterns g
  | AnalisisCorrelaciones => correlations g
  | AnalisisTendencias => temporalTrends g
  | AnalisisRecomendaciones => recommendations g
  | AnalisisRespuestas => responseAnalysis g
  end.

Definition all_agents : list Agent :=
  [ AnalisisEfectividad; AnalisisPatrones; AnalisisCorrelaciones;
    AnalisisTendencias; AnalisisRecomendaciones; AnalisisRespuestas ].

Definition agent_failed (backend : Backend) (a : Agent) : bool :=
  match runAgent backend a with
  | Ok _ => false
  | Throw _ => true
  end.

Definition failed_agents (backend : Backend) : list Agent :=
  filter (agent_failed backend) all_agents.

Definition spec_insight (backend : Backend) (a : Agent) : json :=
  match runAgent backend a with
  | Ok v => v
  | Throw _ => insight_of a fallbackInsights
  end.

(** [a] is not later than [b]: the order that [dt_leb] decides. *)
Definition dt_le (a b : datetime) : Prop :=
  (dt_year a < dt_year b \/ dt_year a = dt_year b /\
   (dt_month a < dt_month b \/ dt_month a = dt_month b /\
    (dt_day a < dt_day b \/ dt_day a = dt_day b /\
     (dt_hour a < dt_hour b \/ dt_hour a = dt_hour b /\
      (dt_minute a < dt_minute b \/ dt_minute a = dt_minute b /\
       dt_second a <= dt_second b)))))%Z.

(** How often a key occurs, and the count that a grouping holds for it. *)
Definition occurrences {K : Type} (eqb : K -> K -> bool) (k : K)
  (keys : list K) : Z :=
  count (fun x => eqb x k) keys.

Fixpoint group_of {K : Type} (eqb : K -> K -> bool) (k : K)
  (groups : list (K * Z)) : option Z :=
  match groups with
  | [] => None
  | (k', n) :: r => if eqb k' k then Some n else group_of eqb k r
  end.

(** What a grouping holds after the keys [seen]. *)
Definition groups_of {K : Type} (eqb : K -> K -> bool) (seen : list K)
  (gs : list (K * Z)) : Prop :=
  NoDup (map fst gs)
  /\ (forall k, In k (map fst gs) <-> In k seen)
  /\ forall k n, group_of eqb k gs = Some n -> n = occurrences eqb k seen.

(** ** Sample inputs *)

Definition date (y m d : Z) : datetime :=
  {| dt_year := y; dt_month := m; dt_day := d;
     dt_hour := 0; dt_minute := 0; dt_second := 0 |}.

Definition empty_database : Database :=
  {| users := []; chats := []; resultados_test := [] |}.

(** What the queries return on a database: the modelled queries by their
    definitions, the others as given. *)
Definition answers (now : datetime) (db : Database) (others : Gateway)
  : Gateway :=
  {| q_userCount := Ok [ {| cr_total := Z.of_nat (List.length (users db)) |} ];
     q_newUsersThisMonth := Ok (sql_newUsersThisMonth now db);
     q_testCount :=
       Ok [ {| cr_total := Z.of_nat (List.length (resultados_test db)) |} ];
     q_messageCount := q_messageCount others;
     q_anxietyLevels := q_anxietyLevels others;
     q_depressionLevels := q_depressionLevels others;
     q_ageDistribution := Ok (sql_ageDistribution db);
     q_genderDistribution := Ok (sql_genderDistribution db);
     q_monthlyUsers := q_monthlyUsers others;
     q_monthlyTests := q_monthlyTests others;
     q_messageActivity := q_messageActivity others;
     q_correlationData := q_correlationData others;
     q_efectividad := Ok (sql_efectividad db);
     q_retencion := Ok (sql_retencion now db);
     q_patronesUso := q_patronesUso others;
     q_respuestasExtra := q_respuestasExtra others;
     q_chatAnalytics := q_chatAnalytics others |}.

(** The answers on a store without any row: a count of zero, and no group. *)
Definition no_rows : Gateway :=
  {| q_userCount := Ok [ {| cr_total := 0 |} ];
     q_newUsersThisMonth := Ok [ {| cr_total := 0 |} ];
     q_testCount := Ok [ {| cr_total := 0 |} ];
     q_messageCount := Ok [ {| cr_total := 0 |} ];
     q_anxietyLevels := Ok [];
     q_depressionLevels := Ok [];
     q_ageDistribution := Ok [];
     q_genderDistribution := Ok [];
     q_monthlyUsers := Ok [];
     q_monthlyTests := Ok [];
     q_messageActivity := Ok [];
     q_correlationData := Ok [];
     q_efectividad := Ok [];
     q_retencion := Ok [];
     q_patronesUso := Ok [];
     q_respuestasExtra := Ok [];
     q_chatAnalytics := Ok [] |}.

Definition empty_store_gateway : Gateway :=
  answers (date 2024 3 15) empty_database no_rows.

Definition empty_snapshot : RawData :=
  {| userStats := {| total := 0; nuevos_este_mes := 0;
                     tests_totales := 0; mensajes_totales := 0 |};
     anxietyLevels := [];
     depressionLevels := [];
     ageDistribution := [];
     genderDistribution := [];
     monthlyActivity := [];
     messageActivity := [];
     correlationData := [];
     efectividad := default_efectividad;
     retencion := default_retencion;
     patronesUso := [];
     respuestasExtra := [];
     chatAnalytics := [] |}.

(** A sample text, written with ['] where the text has a double quote. *)
Definition text (s : string) : jsstring :=
  map (fun c => if N.eqb c 39 then 34%N else c) (lit s).

(** A backend whose text for the recommendations agent is not JSON, the
    other five texts being well-formed. *)
Definition malformed_recommendations : Backend :=
  fun a =>
    match a with
    | AnalisisEfectividad =>
        Ok (text "{'insight': 'Mejora sostenida', 'score': 80}")
    | AnalisisRecomendaciones => Ok (text "No puedo responder ahora.")
    | AnalisisRespuestas =>
        Ok (text "{'commonPatterns': [], 'keyInsights': ['Insomnio'], 'recommendedActions': []}")
    | _ => Ok (text "```json" ++ [10%N] ++ text "['Uso nocturno']"
               ++ [10%N] ++ text "```")
    end.

Definition six_valid : Backend :=
  fun a =>
    match a with
    | AnalisisRecomendaciones => Ok (text "['Recordatorios diarios']")
    | _ => malformed_recommendations a
    end.

(** A text with a well-formed payload followed by prose with braces. *)
Definition payload_then_braces : jsstring :=
  text "Resultado: {'insight': 'ok', 'score': 80}. Use {x} con cuidado.".

Definition sample_user (i : Z) (created : datetime) (g : option jsstring)
  : User :=
  {| u_id := i; u_created_at := created; u_updated_at := created;
     u_age := None; u_gender := g |}.

(** Two users, each with a first test and a test 40 days later; the first
    test of user 1 is stored twice. *)
Definition repeated_first_test : Database :=
  {| users := [ sample_user 1 (date 2023 12 20) None;
                sample_user 2 (date 2023 12 21) None ];
     chats := [];
     resultados_test :=
       [ {| rt_usuario_id := 1; rt_fecha := date 2024 1 1;
            rt_ansiedad_score := Some 15%Z |};
         {| rt_usuario_id := 1; rt_fecha := date 2024 1 1;
            rt_ansiedad_score := Some 15%Z |};
         {| rt_usuario_id := 1; rt_fecha := date 2024 2 10;
            rt_ansiedad_score := Some 9%Z |};
         {| rt_usuario_id := 2; rt_fecha := date 2024 1 1;
            rt_ansiedad_score := Some 10%Z |};
         {| rt_usuario_id := 2; rt_fecha := date 2024 2 10;
            rt_ansiedad_score := Some 12%Z |} ] |}.

(** One user, two tests 40 days apart, the score going down. *)
Definition one_improving_user : Database :=
  {| users := [ sample_user 7 (date 2023 12 20) None ];
     chats := [];
     resultados_test :=
       [ {| rt_usuario_id := 7; rt_fecha := date 2024 1 1;
            rt_ansiedad_score := Some 15%Z |};
         {| rt_usuario_id := 7; rt_fecha := date 2024 2 10;
            rt_ansiedad_score := Some 9%Z |} ] |}.

(** A user created in February, looked at in the middle of March. *)
Definition created_last_month : Database :=
  {| users := [ sample_user 1 (date 2024 2 10) None ];
     chats := [];
     resultados_test := [] |}.

(** A user whose gender is the empty string. *)
Definition empty_gender : Database :=
  {| users := [ sample_user 1 (date 2024 2 10) (Some []) ];
     chats := [];
     resultados_test := [] |}.

(** ** Further notions for the properties of the queries *)

Definition sum_Z (xs : list Z) : Z := fold_right Z.add 0%Z xs.

(** The score of the first, and of the last, test of a group of
    [user_tests], where the group has one. *)
Definition first_score (tests : list Test) (ut : UserTests) : option Z :=
  match tests_at tests (ut_usuario_id ut) (primera_fecha ut) with
  | t :: _ => rt_ansiedad_score t
  | [] => None
  end.

Definition last_score (tests : list Test) (ut : UserTests) : option Z :=
  match tests_at tests (ut_usuario_id ut) (ultima_fecha ut) with
  | t :: _ => rt_ansiedad_score t
  | [] => None
  end.

(** The states of the lexer that it reaches: a literal is awaited letter by
    letter, and none of the letters is white space. *)
Definition lstate_ok (st : lstate) : Prop :=
  match st with
  | LLit rest _ => Forall (fun x => is_trim_space x = false) rest
  | _ => True
  end.

(** ** The tables in full

    The columns that the remaining queries read, beside those above.
    [is_bot] is a number, summed by the weekly query; the names and ids are
    not [NULL]. *)

Record ResultadoTest : Type := {
  r_usuario_id : Z;
  r_fecha : datetime;
  r_ansiedad_score : option Z;
  r_depresion_score : option Z;
  r_ansiedad_interpretacion : option jsstring;
  r_depresion_interpretacion : option jsstring;
  r_respuestas_extra : option jsstring
}.

Record ChatRow : Type := {
  ch_id : Z;
  ch_user_id : Z;
  ch_name : jsstring;
  ch_updated_at : datetime
}.

Record ChatMessage : Type := {
  cm_id : Z;
  cm_chat_id : Z;
  cm_created_at : datetime;
  cm_is_bot : Z
}.

Record Store : Type := {
  st_users : list User;
  st_chats : list ChatRow;
  st_chat_messages : list ChatMessage;
  st_resultados_test : list ResultadoTest
}.

(** The columns of the store that the queries above read. *)
Definition database_of (s : Store) : Database :=
  {| users := st_users s;
     chats := map (fun c => {| c_user_id := ch_user_id c;
                               c_updated_at := ch_updated_at c |})
                  (st_chats s);
     resultados_test :=
       map (fun r => {| rt_usuario_id := r_usuario_id r;
                        rt_fecha := r_fecha r;
                        rt_ansiedad_score := r_ansiedad_score r |})
           (st_resultados_test s) |}.

(** ** MySQL: more of dates, strings and grouping *)

(** The calendar date of a day number, the inverse of [day_number]. *)
Definition civil_of_day_number (z : Z) : Z * Z * Z :=
  (let era := z / 146097 in
   let doe := z - era * 146097 in
   let yoe := (doe - doe / 1460 + doe / 36524 - doe / 146096) / 365 in
   let doy := doe - (365 * yoe + yoe / 4 - yoe / 100) in
   let mp := (5 * doy + 2) / 153 in
   let d := doy - (153 * mp + 2) / 5 + 1 in
   let m := if mp <? 10 then mp + 3 else mp - 9 in
   let y := yoe + era * 400 + (if m <=? 2 then 1 else 0) in
   (y, m, d))%Z.

(** [d - INTERVAL n DAY] *)
Definition sub_days (n : Z) (d : datetime) : datetime :=
  match civil_of_day_number (day_number d - n) with
  | (y, m, dd) =>
      {| dt_year := y; dt_month := m; dt_day := dd;
         dt_hour := dt_hour d; dt_minute := dt_minute d;
         dt_second := dt_second d |}
  end.

(** The day of the week, 0 for Monday. *)
Definition WEEKDAY (d : datetime) : Z := ((day_number d + 2) mod 7)%Z.

Definition weekday_names : list jsstring :=
  [ lit "Mon"; lit "Tue"; lit "Wed"; lit "Thu"; lit "Fri"; lit "Sat";
    lit "Sun" ].

Definition month_names : list jsstring :=
  [ lit "Jan"; lit "Feb"; lit "Mar"; lit "Apr"; lit "May"; lit "Jun";
    lit "Jul"; lit "Aug"; lit "Sep"; lit "Oct"; lit "Nov"; lit "Dec" ].

(** [DATE_FORMAT(d, '%a')] and [DATE_FORMAT(d, '%b')] with the names of the
    locale that the server starts with, [en_US]. *)
Definition format_a (d : datetime) : jsstring :=
  nth (Z.to_nat (WEEKDAY d)) weekday_names [].

Definition format_b (d : datetime) : jsstring :=
  if ((1 <=? dt_month d) && (dt_month d <=? 12))%Z
  then nth (Z.to_nat (dt_month d - 1)) month_names []
  else [].

Definition digit (n : Z) : N := (48 + Z.to_N (n mod 10))%N.

(** [DATE_FORMAT(d, '%Y-%m')]: the year in four digits, the month in two. *)
Definition format_Y_m (d : datetime) : jsstring :=
  [ digit (dt_year d / 1000); digit (dt_year d / 100);
    digit (dt_year d / 10); digit (dt_year d); 45%N;
    digit (dt_month d / 10); digit (dt_month d) ].

(** The order of strings, code unit by code unit. *)
Fixpoint str_compare (a b : jsstring) : comparison :=
  match a, b with
  | [], [] => Eq
  | [], _ :: _ => Lt
  | _ :: _, [] => Gt
  | x :: a', y :: b' =>
      match N.compare x y with
      | Eq => str_compare a' b'
      | c => c
      end
  end.

Definition str_leb (a b : jsstring) : bool :=
  match str_compare a b with Gt => false | _ => true end.

(** [ORDER BY] on a column of strings: a stable sort. *)
Fixpoint insert_with {A : Type} (leb : A -> A -> bool) (x : A) (l : list A)
  : list A :=
  match l with
  | [] => [x]
  | y :: r => if leb y x then y :: insert_with leb x r else x :: l
  end.

Definition sort_with {A : Type} (leb : A -> A -> bool) (l : list A) : list A :=
  fold_left (fun sorted x => insert_with leb x sorted) l [].

(** [GROUP BY key]: the rows of each key, the keys in the order in which
    they first occur. *)
Fixpoint add_row {K A : Type} (eqb : K -> K -> bool) (k : K) (a : A)
  (groups : list (K * list A)) : list (K * list A) :=
  match groups with
  | [] => [(k, [a])]
  | (k', rows) :: r =>
      if eqb k' k then (k', rows ++ [a]) :: r
      else (k', rows) :: add_row eqb k a r
  end.

Definition group_by {K A : Type} (eqb : K -> K -> bool) (key : A -> K)
  (rows : list A) : list (K * list A) :=
  fold_left (fun groups a => add_row eqb (key a) a groups) rows [].

(** The values of a column that are not [NULL]. *)
Definition not_null {A B : Type} (column : A -> option B) (rows : list A)
  : list B :=
  flat_map (fun r => match column r with
                     | Some v => [v]
                     | None => []
                     end)
           rows.

(** [MAX] and [MIN] of a column: [NULL] values are skipped, and over no
    value the result is [NULL]. *)
Definition MAX (xs : list Z) : option Z :=
  match xs with
  | [] => None
  | x :: r => Some (fold_left Z.max r x)
  end.

Definition MIN (xs : list Z) : option Z :=
  match xs with
  | [] => None
  | x :: r => Some (fold_left Z.min r x)
  end.

(** ** The remaining queries of [collectRawData] *)

(** [SELECT COUNT( * ) as total FROM t] *)
Definition sql_count {A : Type} (table : list A) : list CountRow :=
  [ {| cr_total := Z.of_nat (List.length table) |} ].

(** [SELECT c as name, COUNT( * ) as value FROM resultados_test WHERE c IS
    NOT NULL GROUP BY c], for the two interpretation columns. *)
Definition sql_levels (column : ResultadoTest -> option jsstring) (s : Store)
  : list DataPoint :=
  map (fun g => {| dp_name := fst g; dp_value := snd g |})
      (group_count str_eqb (not_null column (st_resultados_test s))).

Definition sql_anxietyLevels : Store -> list DataPoint :=
  sql_levels r_ansiedad_interpretacion.

Definition sql_depressionLevels : Store -> list DataPoint :=
  sql_levels r_depresion_interpretacion.

Definition month_key_eqb (a b : jsstring * jsstring) : bool :=
  str_eqb (fst a) (fst b) && str_eqb (snd a) (snd b).

(** The new users of the last six months, by month.  [GROUP BY month, name]
    names the two expressions of the select list, [users] being taken to
    have no column of these names. *)
Definition sql_monthlyUsers (now : datetime) (s : Store) : list MonthlyUsers :=
  let rows := filter (fun u => dt_leb (sub_months 6 now) (u_created_at u))
                     (st_users s) in
  let groups :=
    group_count month_key_eqb
                (map (fun u => (format_Y_m (u_created_at u),
                                format_b (u_created_at u)))
                     rows) in
  sort_with (fun a b => str_leb (mu_month a) (mu_month b))
            (map (fun g => {| mu_month := fst (fst g);
                              mu_name := snd (fst g);
                              mu_usuarios := snd g |})
                 groups).

(** The tests of the last six months, by month. *)
Definition sql_monthlyTests (now : datetime) (s : Store) : list MonthlyTests :=
  let rows := filter (fun r => dt_leb (sub_months 6 now) (r_fecha r))
                     (st_resultados_test s) in
  let groups := group_count str_eqb (map (fun r => format_Y_m (r_fecha r)) rows) in
  sort_with (fun a b => str_leb (mt_month a) (mt_month b))
            (map (fun g => {| mt_month := fst g; mt_tests := snd g |}) groups).

(** The messages of the last seven days, by day of the week. *)
Definition sql_messageActivity (now : datetime) (s : Store)
  : list (MessageActivity jsstring) :=
  let rows := filter (fun m => dt_leb (sub_days 7 now) (cm_created_at m))
                     (st_chat_messages s) in
  let groups := group_by str_eqb (fun m => format_a (cm_created_at m)) rows in
  order_by (fun r => FIELD (dia r) weekday_names)
           (map (fun g => {| dia := fst g;
                             mensajes := Z.of_nat (List.length (snd g));
                             chatbots := SUM (map cm_is_bot (snd g)) |})
                groups).

(** The three hours of the day with the most messages of the last 30
    days. *)
Definition sql_patronesUso (now : datetime) (s : Store) : list PatronUso :=
  let rows := filter (fun m => dt_leb (sub_days 30 now) (cm_created_at m))
                     (st_chat_messages s) in
  let groups := group_count Z.eqb (map (fun m => dt_hour (cm_created_at m)) rows) in
  firstn 3
    (order_by (fun r => (- pu_mensajes r)%Z)
              (map (fun g => {| hora := fst g; pu_mensajes := snd g |}) groups)).

(** [SELECT respuestas_extra FROM resultados_test WHERE respuestas_extra IS
    NOT NULL LIMIT 100] *)
Definition sql_respuestasExtra (s : Store) : list RespuestaExtra :=
  firstn 100
    (map (fun v => {| respuestas_extra := v |})
         (not_null r_respuestas_extra (st_resultados_test s))).

(** ** The chats with the most messages *)

(** A row of [chats c JOIN users u ON c.user_id = u.id JOIN chat_messages cm
    ON c.id = cm.chat_id LEFT JOIN resultados_test rt ON u.id =
    rt.usuario_id]; the test is [None] in the one row that the left join
    keeps for a message of a user without tests. *)
Record ChatJoin : Type := {
  cj_chat : ChatRow;
  cj_user : User;
  cj_message : ChatMessage;
  cj_test : option ResultadoTest
}.

Definition left_join_tests (c : ChatRow) (u : User) (cm : ChatMessage)
  (tests : list ResultadoTest) : list ChatJoin :=
  match filter (fun rt => (u_id u =? r_usuario_id rt)%Z) tests with
  | [] => [ {| cj_chat := c; cj_user := u; cj_message := cm;
               cj_test := None |} ]
  | matching =>
      map (fun rt => {| cj_chat := c; cj_user := u; cj_message := cm;
                        cj_test := Some rt |})
          matching
  end.

Definition joins_of_chat (s : Store) (c : ChatRow) : list ChatJoin :=
  flat_map (fun u =>
              flat_map (fun cm => left_join_tests c u cm (st_resultados_test s))
                       (filter (fun cm => (ch_id c =? cm_chat_id cm)%Z)
                               (st_chat_messages s)))
           (filter (fun u => (ch_user_id c =? u_id u)%Z) (st_users s)).

Definition chat_joins (s : Store) : list ChatJoin :=
  flat_map (joins_of_chat s) (st_chats s).

(** [GROUP BY c.id, c.name, u.gender, u.age]; two [NULL]s are one group. *)
Definition ChatKey : Type := Z * jsstring * option jsstring * option Z.

Definition chat_key (j : ChatJoin) : ChatKey :=
  (ch_id (cj_chat j), ch_name (cj_chat j), u_gender (cj_user j),
   u_age (cj_user j)).

Definition age_eqb (a b : option Z) : bool :=
  match a, b with
  | None, None => true
  | Some x, Some y => (x =? y)%Z
  | _, _ => false
  end.

Definition chat_key_eqb (a b : ChatKey) : bool :=
  match a, b with
  | (i, n, g, e), (i', n', g', e') =>
      (i =? i')%Z && str_eqb n n' && gender_eqb g g' && age_eqb e e'
  end.

Definition test_column (column : ResultadoTest -> option Z) (j : ChatJoin)
  : option Z :=
  match cj_test j with
  | Some rt => column rt
  | None => None
  end.

(** [COUNT(cm.id)] counts the rows of the group, [cm.id] being in every row
    of the join; [ORDER BY message_count DESC LIMIT 50]. *)
Definition sql_chatAnalytics (s : Store) : list ChatAnalytic :=
  firstn 50
    (order_by (fun r => (- message_count r)%Z)
       (map (fun g : ChatKey * list ChatJoin =>
               match fst g with
               | (i, n, ge, a) =>
                   {| chat_id := i; chat_name := n; user_gender := ge;
                      user_age := a;
                      message_count := Z.of_nat (List.length (snd g));
                      max_ansiedad :=
                        MAX (not_null (test_column r_ansiedad_score) (snd g));
                      max_depresion :=
                        MAX (not_null (test_column r_depresion_score) (snd g))
                   |}
               end)
            (group_by chat_key_eqb chat_key (chat_joins s)))).

(** ** Calendar months

    The dates that a [DATETIME] column holds: the year in four digits, the
    month from 1 to 12.  [month_index] numbers the calendar months in their
    order. *)
Definition valid_month (d : datetime) : Prop :=
  (0 <= dt_year d <= 9999)%Z /\ (1 <= dt_month d <= 12)%Z.

Definition month_index (d : datetime) : Z :=
  (dt_year d * 12 + dt_month d)%Z.

(** ** A sample store *)

Definition at_time (y m d h mi : Z) : datetime :=
  {| dt_year := y; dt_month := m; dt_day := d;
     dt_hour := h; dt_minute := mi; dt_second := 0 |}.

Definition sample_message (i chat : Z) (sent : datetime) (bot : Z)
  : ChatMessage :=
  {| cm_id := i; cm_chat_id := chat; cm_created_at := sent; cm_is_bot := bot |}.

Definition sample_test (user : Z) (taken : datetime) (anxiety : Z)
  : ResultadoTest :=
  {| r_usuario_id := user; r_fecha := taken;
     r_ansiedad_score := Some anxiety; r_depresion_score := None;
     r_ansiedad_interpretacion := None; r_depresion_interpretacion := None;
     r_respuestas_extra := None |}.

(** Two users; the first has one chat of two messages and three tests, the
    second a chat of one message and no test. *)
Definition sample_store : Store :=
  {| st_users := [ sample_user 1 (date 2023 11 20) None;
                   sample_user 2 (date 2024 2 3) None ];
     st_chats := [ {| ch_id := 10; ch_user_id := 1; ch_name := lit "Primera";
                      ch_updated_at := date 2024 3 11 |};
                   {| ch_id := 11; ch_user_id := 2; ch_name := lit "Segunda";
                      ch_updated_at := date 2024 3 13 |} ];
     st_chat_messages :=
       [ sample_message 100 10 (at_time 2024 3 11 9 0) 0;
         sample_message 101 10 (at_time 2024 3 11 9 1) 1;
         sample_message 102 11 (at_time 2024 3 13 21 15) 0 ];
     st_resultados_test :=
       [ sample_test 1 (date 2023 12 1) 15;
         sample_test 1 (date 2024 1 15) 12;
         sample_test 1 (date 2024 3 1) 9 ] |}.

Definition sample_now : datetime := at_time 2024 3 15 10 30.

(** ** The connection pool of [lib/db.js]

    The module keeps one variable, [pool], unset until the first call of
    [getConnection].  [createPool n] is the pool that the call number [n] of
    [mysql.createPool] returns, and [execute] what [connection.execute] does
    with a query on a pool.  Beside the variable, the state records how many
    pools were created and what was written to the console. *)

Section ConnectionPool.

Variables Pool Query Rows : Type.
Variable createPool : nat -> Pool.
Variable execute : Pool -> Query -> result Rows.

Record Connections : Type := {
  pool : option Pool;
  pools_created : nat;
  console : list thrown
}.

Definition unset : Connections :=
  {| pool := None; pools_created := 0; console := [] |}.

(** [if (!pool) { pool = mysql.createPool({...}) } return pool] *)
Definition getConnection (st : Connections) : Pool * Connections :=
  match pool st with
  | Some p => (p, st)
  | None =>
      let p := createPool (pools_created st) in
      (p, {| pool := Some p;
             pools_created := S (pools_created st);
             console := console st |})
  end.

(** [try { const connection = await getConnection(); const [results] = await
    connection.execute(query, params); return results } catch (error) {
    console.error(..., error); throw error }] *)
Definition executeQuery_on (query : Query) (st : Connections)
  : result Rows * Connections :=
  let (connection, st') := getConnection st in
  match execute connection query with
  | Ok results => (Ok results, st')
  | Throw error =>
      (Throw error,
       {| pool := pool st';
          pools_created := pools_created st';
          console := console st' ++ [error] |})
  end.

(** Calls of [executeQuery], one after the other, whatever their outcomes. *)
Fixpoint run_queries (queries : list Query) (st : Connections)
  : list (result Rows) * Connections :=
  match queries with
  | [] => ([], st)
  | query :: rest =>
      let (outcome, st') := executeQuery_on query st in
      let (outcomes, st'') := run_queries rest st' in
      (outcome :: outcomes, st'')
  end.

End ConnectionPool.

Arguments pool {Pool} _.
Arguments pools_created {Pool} _.
Arguments console {Pool} _.
Arguments unset {Pool}.
Arguments getConnection {Pool} createPool st.
Arguments executeQuery_on {Pool Query Rows} createPool execute query st.
Arguments run_queries {Pool Query Rows} createPool execute queries st.

(** * Properties *)

(** ** Strings *)

Lemma str_eqb_eq (a b : jsstring) : str_eqb a b = true <-> a = b.
Proof.
  revert b; induction a as [|x a IH]; intros [|y b]; simpl;
    try (split; [discriminate | intros H; discriminate H]);
    [tauto|].
  rewrite andb_true_iff, N.eqb_eq, IH.
  split; [intros [-> ->]; reflexivity | intros H; inversion H; auto].
Qed.

Lemma str_eqb_refl (a : jsstring) : str_eqb a a = true.
Proof. apply str_eqb_eq; reflexivity. Qed.

Lemma str_eqb_neq (a b : jsstring) : str_eqb a b = false <-> a <> b.
Proof.
  rewrite <- str_eqb_eq. destruct (str_eqb a b); split; congruence.
Qed.

(** ** The monthly merge *)

(** [find] returns the first row that satisfies the test. *)
Lemma find_first {A : Type} (p : A -> bool) (l : list A) :
  match find p l with
  | Some x => exists pre post, l = pre ++ x :: post /\ p x = true
                               /\ forall y, In y pre -> p y = false
  | None => forall y, In y l -> p y = false
  end.
Proof.
  induction l as [|a l IH]; simpl.
  - intros y [].
  - destruct (p a) eqn:Hp.
    + exists [], l. repeat split; auto. intros y [].
    + destruct (find p l) as [x|].
      * destruct IH as (pre & post & -> & Hx & Hpre).
        exists (a :: pre), post. repeat split; auto.
        intros y [<-|Hy]; auto.
      * intros y [<-|Hy]; auto.
Qed.

(** C6. The merged monthly list has one entry per row of the new-users
    series, in the same order and with the same month key, label and user
    count; its tests field is that of the first test-count row with the same
    month key, and 0 when no test-count row has that key; a month key that
    only the test-count series has is the key of no entry. *)
Theorem combineMonthlyData_user_months_authoritative
  (monthlyUsers : list MonthlyUsers) (monthlyTests : list MonthlyTests) :
  let merged := combineMonthlyData monthlyUsers monthlyTests in
  map md_month merged = map mu_month monthlyUsers
  /\ Forall2
       (fun u e =>
          md_month e = mu_month u /\ md_name e = mu_name u
          /\ md_usuarios e = mu_usuarios u
          /\ ((exists pre t post,
                  monthlyTests = pre ++ t :: post
                  /\ mt_month t = mu_month u
                  /\ (forall t', In t' pre -> mt_month t' <> mu_month u)
                  /\ md_tests e = mt_tests t)
              \/ ((forall t, In t monthlyTests -> mt_month t <> mu_month u)
                  /\ md_tests e = 0%Z)))
       monthlyUsers merged
  /\ Forall
       (fun t => ~ In (mt_month t) (map mu_month monthlyUsers) ->
                 ~ In (mt_month t) (map md_month merged))
       monthlyTests.
Proof.
  cbv zeta. split; [|split].
  - unfold combineMonthlyData. rewrite map_map. reflexivity.
  - unfold combineMonthlyData.
    induction monthlyUsers as [|u us IH]; simpl; constructor; auto.
    simpl. repeat split.
    pose proof (find_first (fun test => str_eqb (mt_month test) (mu_month u))
                           monthlyTests) as Hf.
    destruct (find _ monthlyTests) as [t|].
    + left. destruct Hf as (pre & post & -> & Ht & Hpre).
      exists pre, t, post. repeat split; auto.
      * apply str_eqb_eq; exact Ht.
      * intros t' Hin. apply str_eqb_neq, Hpre, Hin.
    + right. split; auto.
      intros t Hin. apply str_eqb_neq, Hf, Hin.
  - apply Forall_forall. intros t _ Hnot.
    unfold combineMonthlyData. rewrite map_map. exact Hnot.
Qed.

(** With distinct months in the new-users series, the merged list has
    exactly one entry per month. *)
Lemma combineMonthlyData_one_entry_per_month
  (monthlyUsers : list MonthlyUsers) (monthlyTests : list MonthlyTests) :
  NoDup (map mu_month monthlyUsers) ->
  NoDup (map md_month (combineMonthlyData monthlyUsers monthlyTests)).
Proof.
  unfold combineMonthlyData. rewrite map_map. auto.
Qed.

(** ** The weekday translation *)





(** A label of another locale goes through unchanged, and a label of the
    table is translated. *)
Lemma translateDay_other_locale :
  dia (translateDay {| dia := lit "lun"; mensajes := 12; chatbots := Some 5%Z |})
  = JsString (lit "lun")
  /\ dia (translateDay {| dia := lit "Wed"; mensajes := 12; chatbots := Some 5%Z |})
     = JsString (lit "Mi" ++ [233%N]).
Proof. split; reflexivity. Qed.

(** The step keeps the rows and their order. *)
Lemma translateMessageActivity_rows (rows : list (MessageActivity jsstring)) :
  map mensajes (translateMessageActivity rows) = map mensajes rows
  /\ map chatbots (translateMessageActivity rows) = map chatbots rows.
Proof.
  unfold translateMessageActivity. rewrite !map_map. split; reflexivity.
Qed.

(** The seven English abbreviations, which MySQL produces by default, are
    no members of [Object.prototype]. *)
Lemma weekdays_not_inherited :
  Forall (fun en => inherited en = false) (map fst diasTraducidos).
Proof. repeat constructor. Qed.

(** A label that names a member of [Object.prototype] is replaced by that
    member. *)
Lemma translateDay_inherited :
  dia (translateDay {| dia := lit "constructor"; mensajes := 1;
                       chatbots := None |})
  = JsInherited (lit "constructor").
Proof. reflexivity. Qed.

(** ** The route handler *)

Ltac next_query r :=
  destruct r; cbn [executeQuery bind failure app];
  [| solve [repeat split; cbn; try reflexivity; congruence]].

(** C8. If a query of the aggregation fails, the aggregation stops with the
    exception of the first failing query and yields no snapshot, and the
    endpoint answers with status 500 and the body [{success: false, error:
    message}]; otherwise it answers with status 200 and the body [{success:
    true, stats: payload}].  [stats] is there exactly when [success] is
    true, and [error] exactly when it is false. *)
Theorem GET_all_or_nothing (gw : Gateway) (backend : Backend) :
  match failures gw with
  | [] =>
      exists raw,
        collectRawData gw = Ok raw
        /\ GET gw backend
           = {| status := 200;
                success := true;
                stats := Some (analyzeDataWithGeminiAgents backend raw);
                error := None |}
  | e :: _ =>
      collectRawData gw = Throw e
      /\ GET gw backend
         = {| status := 500;
              success := false;
              stats := None;
              error := Some (errorMessage e) |}
  end
  /\ (success (GET gw backend) = true <-> stats (GET gw backend) <> None)
  /\ (success (GET gw backend) = false <-> error (GET gw backend) <> None).
Proof.
  destruct gw as [r1 r2 r3 r4 r5 r6 r7 r8 r9 r10 r11 r12 r13 r14 r15 r16 r17].
  unfold GET, failures, collectRawData.
  cbn [q_userCount q_newUsersThisMonth q_testCount q_messageCount
       q_anxietyLevels q_depressionLevels q_ageDistribution
       q_genderDistribution q_monthlyUsers q_monthlyTests q_messageActivity
       q_correlationData q_efectividad q_retencion q_patronesUso
       q_respuestasExtra q_chatAnalytics].
  next_query r1. next_query r2. next_query r3. next_query r4.
  next_query r5. next_query r6. next_query r7. next_query r8.
  next_query r9. next_query r10. next_query r11. next_query r12.
  next_query r13. next_query r14. next_query r15. next_query r16.
  next_query r17.
  repeat split; cbn; try congruence. eauto.
Qed.

(** ** The orchestrator *)

Ltac all_runs backend :=
  destruct (runAgent backend AnalisisEfectividad) eqn:?;
  destruct (runAgent backend AnalisisPatrones) eqn:?;
  destruct (runAgent backend AnalisisCorrelaciones) eqn:?;
  destruct (runAgent backend AnalisisTendencias) eqn:?;
  destruct (runAgent backend AnalisisRecomendaciones) eqn:?;
  destruct (runAgent backend AnalisisRespuestas) eqn:?.

(** C1, as the code has it.  When none of the six agent runs fails, the six
    fields of the insights hold the six parsed outputs; when k ≥ 1 of them
    fail, all six fields hold the fixed fallback values, those of the agents
    that returned included.  Either way the bundle has its six fields and a
    request whose aggregation succeeded reports [success: true] with it. *)
Theorem analyzeDataWithGeminiAgents_all_or_fallback
  (backend : Backend) (raw : RawData) (k : nat) :
  List.length (failed_agents backend) = k ->
  let enhanced := analyzeDataWithGeminiAgents backend raw in
  rawData enhanced = raw
  /\ (k = 0%nat ->
      forall a, runAgent backend a = Ok (insight_of a (geminiInsights enhanced)))
  /\ ((0 < k)%nat -> geminiInsights enhanced = fallbackInsights)
  /\ forall gw,
       collectRawData gw = Ok raw ->
       GET gw backend
       = {| status := 200; success := true;
            stats := Some enhanced; error := None |}.
Proof.
  intros Hk enhanced. subst enhanced.
  split; [|split; [|split]].
  - unfold analyzeDataWithGeminiAgents.
    destruct (runAllAgents backend); reflexivity.
  - intros ->.
    unfold failed_agents, agent_failed, all_agents in Hk.
    unfold analyzeDataWithGeminiAgents, runAllAgents.
    cbn [filter] in Hk.
    all_runs backend; cbn [List.length] in Hk; try discriminate Hk.
    cbn [bind geminiInsights].
    intros []; cbn [insight_of effectiveness significantPatterns correlations
                    temporalTrends recommendations responseAnalysis];
      assumption.
  - intros Hpos.
    unfold failed_agents, agent_failed, all_agents in Hk.
    unfold analyzeDataWithGeminiAgents, runAllAgents.
    cbn [filter] in Hk.
    all_runs backend; cbn [List.length] in Hk; cbn [bind geminiInsights];
      try reflexivity.
    exfalso. subst k. inversion Hpos.
  - intros gw Hraw. unfold GET. rewrite Hraw. reflexivity.
Qed.

(** The recommendations agent alone fails: the insights are the six
    fallbacks. *)
Lemma analyzeDataWithGeminiAgents_all_or_fallback_witness :
  List.length (failed_agents malformed_recommendations) = 1%nat
  /\ geminiInsights
       (analyzeDataWithGeminiAgents malformed_recommendations empty_snapshot)
     = fallbackInsights.
Proof.
  split; [reflexivity|].
  apply (analyzeDataWithGeminiAgents_all_or_fallback
           malformed_recommendations empty_snapshot 1 eq_refl).
  constructor.
Defined.

(** C1, as the specification words it, fails: with the recommendations
    agent as the only failure, the effectiveness field is not the parsed
    output of the effectiveness agent but the fallback. *)
Lemma one_failure_replaces_all_six :
  failed_agents malformed_recommendations = [AnalisisRecomendaciones]
  /\ runAgent malformed_recommendations AnalisisEfectividad
     = Ok (JObject [ (lit "insight", JString (lit "Mejora sostenida"));
                     (lit "score", JNumber (lit "80")) ])
  /\ spec_insight malformed_recommendations AnalisisEfectividad
     = JObject [ (lit "insight", JString (lit "Mejora sostenida"));
                 (lit "score", JNumber (lit "80")) ]
  /\ insight_of AnalisisEfectividad
       (geminiInsights
          (analyzeDataWithGeminiAgents malformed_recommendations
                                       empty_snapshot))
     = insight_of AnalisisEfectividad fallbackInsights
  /\ insight_of AnalisisEfectividad
       (geminiInsights
          (analyzeDataWithGeminiAgents malformed_recommendations
                                       empty_snapshot))
     <> spec_insight malformed_recommendations AnalisisEfectividad.
Proof.
  repeat split; try (vm_compute; reflexivity).
  vm_compute. discriminate.
Qed.

(** With six well-formed texts the insights are the six parsed outputs. *)
Lemma six_valid_insights :
  failed_agents six_valid = []
  /\ forall a,
       runAgent six_valid a
       = Ok (insight_of a (geminiInsights
                             (analyzeDataWithGeminiAgents six_valid
                                                          empty_snapshot))).
Proof.
  split; [reflexivity|]. intros []; vm_compute; reflexivity.
Qed.

(** ** The agent runner *)

Lemma from_first_Some (c : N) (s r : jsstring) :
  from_first c s = Some r <->
  exists pre, s = pre ++ c :: r /\ ~ In c pre.
Proof.
  revert r; induction s as [|x s IH]; intros r; simpl.
  - split; [discriminate|]. intros ([|? ?] & H & _); discriminate H.
  - destruct (N.eqb x c) eqn:E.
    + apply N.eqb_eq in E; subst x. split.
      * intros H; inversion H; subst. exists []. split; [reflexivity | intros []].
      * intros ([|y pre] & H & Hn).
        -- inversion H; reflexivity.
        -- inversion H; subst. exfalso; apply Hn; left; reflexivity.
    + apply N.eqb_neq in E. rewrite IH. split.
      * intros (pre & -> & Hn). exists (x :: pre). split; [reflexivity|].
        intros [H|H]; [congruence | auto].
      * intros ([|y pre] & H & Hn); inversion H; subst; [congruence|].
        exists pre. split; [reflexivity|]. intros Hin; apply Hn; right; exact Hin.
Qed.

Lemma from_first_None (c : N) (s : jsstring) :
  from_first c s = None <-> ~ In c s.
Proof.
  induction s as [|x s IH]; simpl; [tauto|].
  destruct (N.eqb x c) eqn:E.
  - apply N.eqb_eq in E. split; [discriminate | intros H; exfalso; auto].
  - apply N.eqb_neq in E. rewrite IH. tauto.
Qed.

Lemma upto_last_None (c : N) (s : jsstring) :
  upto_last c s = None <-> ~ In c s.
Proof.
  induction s as [|x s IH]; simpl; [tauto|].
  destruct (upto_last c s) as [m|].
  - split; [discriminate|]. intros H. exfalso.
    assert (Hs : ~ In c s) by tauto. apply IH in Hs. discriminate Hs.
  - destruct (N.eqb x c) eqn:E.
    + apply N.eqb_eq in E. split; [discriminate | intros H; exfalso; auto].
    + apply N.eqb_neq in E. split; [|reflexivity].
      intros _ [H|H]; [congruence|]. apply IH in H; auto.
Qed.

Lemma upto_last_Some (c : N) (s m : jsstring) :
  upto_last c s = Some m <->
  exists mid post, s = mid ++ c :: post /\ ~ In c post /\ m = mid ++ [c].
Proof.
  revert m; induction s as [|x s IH]; intros m; simpl.
  - split; [discriminate|]. intros ([|? ?] & post & H & _); discriminate H.
  - destruct (upto_last c s) as [m'|] eqn:E.
    + split.
      * intros H; injection H as <-.
        destruct (proj1 (IH m') eq_refl) as (mid & post & Hs & Hn & Hm).
        exists (x :: mid), post. subst; auto.
      * intros (mid2 & post2 & H & Hn2 & ->).
        destruct mid2 as [|y mid2]; simpl in H; injection H as Hx Hs.
        -- exfalso. apply upto_last_None in Hn2. congruence.
        -- subst y.
           assert (Hu : Some m' = Some (mid2 ++ [c])).
           { apply IH. exists mid2, post2. auto. }
           injection Hu as ->. reflexivity.
    + apply upto_last_None in E.
      destruct (N.eqb x c) eqn:Ex.
      * apply N.eqb_eq in Ex; subst x. split.
        -- intros H; injection H as <-. exists [], s. auto.
        -- intros (mid2 & post2 & H & Hn & ->).
           destruct mid2 as [|y mid2]; simpl in H; [reflexivity|].
           injection H as Hx Hs.
           exfalso. apply E. rewrite Hs. apply in_or_app.
           right; left; reflexivity.
      * apply N.eqb_neq in Ex. split; [discriminate|].
        intros (mid2 & post2 & H & Hn & ->).
        destruct mid2 as [|y mid2]; simpl in H; injection H as Hx Hs;
          [congruence|].
        exfalso. apply E. rewrite Hs. apply in_or_app.
        right; left; reflexivity.
Qed.

(** The match of [/\{[\s\S]*\}/] is the stretch from the first [{] to the
    last [}] of the text. *)
Lemma match_braces_Some (s m : jsstring) :
  match_braces s = Some m <->
  exists pre mid post,
    s = pre ++ lbrace :: mid ++ rbrace :: post
    /\ ~ In lbrace pre /\ ~ In rbrace post
    /\ m = lbrace :: mid ++ [rbrace].
Proof.
  unfold match_braces. split.
  - destruct (from_first lbrace s) as [body|] eqn:E1; [|discriminate].
    destruct (upto_last rbrace body) as [m'|] eqn:E2; [|discriminate].
    intros H; inversion H; subst.
    apply from_first_Some in E1. destruct E1 as (pre & -> & Hpre).
    apply upto_last_Some in E2. destruct E2 as (mid & post & -> & Hpost & ->).
    exists pre, mid, post. auto.
  - intros (pre & mid & post & -> & Hpre & Hpost & ->).
    assert (E1 : from_first lbrace (pre ++ lbrace :: mid ++ rbrace :: post)
                 = Some (mid ++ rbrace :: post)).
    { apply from_first_Some. exists pre. auto. }
    rewrite E1.
    assert (E2 : upto_last rbrace (mid ++ rbrace :: post)
                 = Some (mid ++ [rbrace])).
    { apply upto_last_Some. exists mid, post. auto. }
    rewrite E2. reflexivity.
Qed.

(** C2, as the code has it.  The runner deletes the fence markers, trims,
    and parses the text as JSON, whatever its shape.  When that fails it
    parses the stretch from the first [{] to the last [}] of the text.  It
    returns the value of the first parse that succeeds, and throws its
    invalid-JSON error exactly when the strict parse fails and the text has
    no such stretch or the stretch does not parse. *)
Theorem runGeminiAgent_parse_policy (a : Agent) (generated : jsstring) :
  let stripped := trim (replace_fences generated) in
  let outcome := runGeminiAgent (Ok generated) (agentName a) in
  (forall v,
      outcome = Ok v <->
      JSON_parse stripped = Some v
      \/ (JSON_parse stripped = None
          /\ exists pre mid post,
               stripped = pre ++ lbrace :: mid ++ rbrace :: post
               /\ ~ In lbrace pre /\ ~ In rbrace post
               /\ JSON_parse (lbrace :: mid ++ [rbrace]) = Some v))
  /\ (forall e,
         outcome = Throw e <->
         e = invalid_json_error (agentName a)
         /\ JSON_parse stripped = None
         /\ forall pre mid post,
              stripped = pre ++ lbrace :: mid ++ rbrace :: post ->
              ~ In lbrace pre -> ~ In rbrace post ->
              JSON_parse (lbrace :: mid ++ [rbrace]) = None).
Proof.
  cbv zeta. unfold runGeminiAgent.
  set (stripped := trim (replace_fences generated)).
  destruct (JSON_parse stripped) as [v0|] eqn:Estrict.
  - split.
    + intros v. split.
      * intros H; inversion H; subst. left; reflexivity.
      * intros [H|[H _]]; [inversion H; reflexivity | discriminate H].
    + intros e. split; [discriminate|]. intros (_ & H & _); discriminate H.
  - destruct (match_braces stripped) as [m|] eqn:Em.
    + pose proof (proj1 (match_braces_Some _ _) Em)
        as (pre & mid & post & Hs & Hpre & Hpost & ->).
      assert (Huniq : forall pre' mid' post',
                 stripped = pre' ++ lbrace :: mid' ++ rbrace :: post' ->
                 ~ In lbrace pre' -> ~ In rbrace post' ->
                 lbrace :: mid' ++ [rbrace] = lbrace :: mid ++ [rbrace]).
      { intros pre' mid' post' Hs' Hpre' Hpost'.
        assert (Em' : match_braces stripped = Some (lbrace :: mid' ++ [rbrace])).
        { apply match_braces_Some. exists pre', mid', post'. auto. }
        rewrite Em in Em'. inversion Em'. reflexivity. }
      destruct (JSON_parse (lbrace :: mid ++ [rbrace])) as [v1|] eqn:Esecond.
      * split.
        -- intros v. split.
           ++ intros H; inversion H; subst. right. split; [reflexivity|].
              exists pre, mid, post. auto.
           ++ intros [H|(_ & pre' & mid' & post' & Hs' & Hpre' & Hpost' & Hv)];
                [discriminate H|].
              rewrite (Huniq _ _ _ Hs' Hpre' Hpost') in Hv.
              rewrite Esecond in Hv. inversion Hv; reflexivity.
        -- intros e. split; [discriminate|].
           intros (_ & _ & H). specialize (H pre mid post Hs Hpre Hpost).
           rewrite Esecond in H. discriminate H.
      * split.
        -- intros v. split; [discriminate|].
           intros [H|(_ & pre' & mid' & post' & Hs' & Hpre' & Hpost' & Hv)];
             [discriminate H|].
           rewrite (Huniq _ _ _ Hs' Hpre' Hpost') in Hv.
           rewrite Esecond in Hv. discriminate Hv.
        -- intros e. split.
           ++ intros H; inversion H; subst. repeat split.
              intros pre' mid' post' Hs' Hpre' Hpost'.
              rewrite (Huniq _ _ _ Hs' Hpre' Hpost'). exact Esecond.
           ++ intros (-> & _ & _). reflexivity.
    + assert (Hnone : forall pre' mid' post',
                 stripped = pre' ++ lbrace :: mid' ++ rbrace :: post' ->
                 ~ In lbrace pre' -> ~ In rbrace post' -> False).
      { intros pre' mid' post' Hs' Hpre' Hpost'.
        assert (Em' : match_braces stripped = Some (lbrace :: mid' ++ [rbrace])).
        { apply match_braces_Some. exists pre', mid', post'. auto. }
        rewrite Em in Em'. discriminate Em'. }
      split.
      * intros v. split; [discriminate|].
        intros [H|(_ & pre' & mid' & post' & Hs' & Hpre' & Hpost' & _)];
          [discriminate H|]. exfalso; eauto.
      * intros e. split.
        -- intros H; inversion H; subst. repeat split.
           intros pre' mid' post' Hs' Hpre' Hpost'. exfalso; eauto.
        -- intros (-> & _ & _). reflexivity.
Qed.

(** C2, as the specification words it, fails: on a text with a well-formed
    payload followed by prose with braces, parsing the first balanced
    braces-delimited substring yields the payload, whereas the runner parses
    the stretch up to the last [}] and throws. *)
Lemma greedy_braces_not_first_balanced :
  first_balanced (trim (replace_fences payload_then_braces))
  = Some (text "{'insight': 'ok', 'score': 80}")
  /\ spec_runner AnalisisEfectividad payload_then_braces
     = Ok (JObject [ (lit "insight", JString (lit "ok"));
                     (lit "score", JNumber (lit "80")) ])
  /\ match_braces (trim (replace_fences payload_then_braces))
     = Some (text "{'insight': 'ok', 'score': 80}. Use {x}")
  /\ runGeminiAgent (Ok payload_then_braces) (agentName AnalisisEfectividad)
     = Throw (invalid_json_error (agentName AnalisisEfectividad))
  /\ runGeminiAgent (Ok payload_then_braces) (agentName AnalisisEfectividad)
     <> spec_runner AnalisisEfectividad payload_then_braces.
Proof.
  repeat split; try (vm_compute; reflexivity).
  vm_compute. discriminate.
Qed.

(** The strict parse accepts any JSON value: a text that is a bare number is
    returned for the effectiveness agent although it has not the shape of an
    effectiveness insight. *)
Lemma strict_parse_ignores_shape :
  runGeminiAgent (Ok (lit "42")) (agentName AnalisisEfectividad)
  = Ok (JNumber (lit "42"))
  /\ conforms AnalisisEfectividad (JNumber (lit "42")) = false.
Proof. split; reflexivity. Qed.

(** An array inside prose is not recovered: the fallback looks for braces
    only.  A bare or fenced array parses strictly. *)
Lemma array_payloads :
  runGeminiAgent (Ok (text "Patrones: ['Uso nocturno']"))
                 (agentName AnalisisPatrones)
  = Throw (invalid_json_error (agentName AnalisisPatrones))
  /\ runGeminiAgent (Ok (text "```json" ++ [10%N] ++ text "['Uso nocturno']"
                         ++ [10%N] ++ text "```"))
                    (agentName AnalisisPatrones)
     = Ok (JArray [JString (lit "Uso nocturno")]).
Proof. split; vm_compute; reflexivity. Qed.

(** An exception of the backend call is rethrown as it is. *)
Lemma runGeminiAgent_backend_error (e : thrown) (name : jsstring) :
  runGeminiAgent (Throw e) name = Throw e.
Proof. reflexivity. Qed.

(** ** Grouping and ordering *)

Section GroupCount.
Context {K : Type} (eqb : K -> K -> bool).
Hypothesis eqb_eq : forall a b, eqb a b = true <-> a = b.

Lemma key_eqb_refl (a : K) : eqb a a = true.
Proof. apply eqb_eq; reflexivity. Qed.

Lemma key_eqb_false (a b : K) : a <> b -> eqb a b = false.
Proof.
  intros H. destruct (eqb a b) eqn:E; [|reflexivity].
  apply eqb_eq in E. contradiction.
Qed.

Lemma group_of_bump_same (k : K) (gs : list (K * Z)) :
  group_of eqb k (bump eqb k gs)
  = Some (match group_of eqb k gs with
          | Some n => (n + 1)%Z
          | None => 1%Z
          end).
Proof.
  induction gs as [|[k' n] gs IH]; simpl.
  - rewrite key_eqb_refl. reflexivity.
  - destruct (eqb k' k) eqn:E; simpl; rewrite E; auto.
Qed.

Lemma group_of_bump_other (k k0 : K) (gs : list (K * Z)) :
  k <> k0 -> group_of eqb k (bump eqb k0 gs) = group_of eqb k gs.
Proof.
  intros Hne. induction gs as [|[k' n] gs IH]; simpl.
  - rewrite key_eqb_false by auto. reflexivity.
  - destruct (eqb k' k0) eqn:E0; simpl.
    + apply eqb_eq in E0; subst k'.
      rewrite key_eqb_false by auto. reflexivity.
    + rewrite IH. reflexivity.
Qed.

Lemma bump_keys (k : K) (gs : list (K * Z)) :
  map fst (bump eqb k gs) = map fst gs
  \/ (~ In k (map fst gs) /\ map fst (bump eqb k gs) = map fst gs ++ [k]).
Proof.
  induction gs as [|[k' n] gs IH]; simpl.
  - right. split; [tauto | reflexivity].
  - destruct (eqb k' k) eqn:E; simpl.
    + left; reflexivity.
    + destruct IH as [IH|[Hn IH]]; rewrite IH; [left; reflexivity|].
      right. split; [|reflexivity].
      intros [H|H]; [|tauto]. subst k'. rewrite key_eqb_refl in E. discriminate.
Qed.

Lemma bump_NoDup (k : K) (gs : list (K * Z)) :
  NoDup (map fst gs) -> NoDup (map fst (bump eqb k gs)).
Proof.
  intros H. destruct (bump_keys k gs) as [->|[Hn ->]]; [exact H|].
  apply NoDup_app; auto.
  - repeat constructor. intros [].
  - intros x Hx [<-|[]]. contradiction.
Qed.

Lemma group_of_In (k : K) (n : Z) (gs : list (K * Z)) :
  NoDup (map fst gs) -> (In (k, n) gs <-> group_of eqb k gs = Some n).
Proof.
  induction gs as [|[k' n'] gs IH]; simpl; intros Hnd.
  - split; [tauto | discriminate].
  - inversion Hnd as [|? ? Hnotin Hnd']; subst.
    destruct (eqb k' k) eqn:E.
    + apply eqb_eq in E; subst k'. split.
      * intros [H|H]; [congruence|].
        exfalso. apply Hnotin. apply (in_map fst) in H. exact H.
      * intros H; left; congruence.
    + rewrite <- (IH Hnd'). split; [|tauto].
      intros [H|H]; [|exact H].
      injection H as -> ->. rewrite key_eqb_refl in E. discriminate.
Qed.

Lemma occurrences_app (k : K) (l1 l2 : list K) :
  occurrences eqb k (l1 ++ l2)
  = (occurrences eqb k l1 + occurrences eqb k l2)%Z.
Proof.
  unfold occurrences, count. rewrite filter_app, length_app. lia.
Qed.

Lemma occurrences_absent (k : K) (l : list K) :
  ~ In k l -> occurrences eqb k l = 0%Z.
Proof.
  unfold occurrences, count. induction l as [|x l IH]; simpl; intros H.
  - reflexivity.
  - rewrite key_eqb_false by (intros ->; tauto). apply IH. tauto.
Qed.

Lemma occurrences_present (k : K) (l : list K) :
  In k l -> (0 < occurrences eqb k l)%Z.
Proof.
  unfold occurrences, count. induction l as [|x l IH]; simpl; intros H.
  - destruct H.
  - destruct (eqb x k) eqn:E; simpl; [lia|].
    apply IH. destruct H as [->|H]; [|exact H].
    rewrite key_eqb_refl in E. discriminate.
Qed.

Lemma group_of_key (k : K) (gs : list (K * Z)) :
  In k (map fst gs) <-> exists n, group_of eqb k gs = Some n.
Proof.
  induction gs as [|[k' n'] gs IH]; simpl.
  - split; [tauto | intros [n H]; discriminate H].
  - destruct (eqb k' k) eqn:E.
    + apply eqb_eq in E. split; eauto.
    + rewrite <- IH. split; [|tauto].
      intros [H|H]; [|exact H]. subst. rewrite key_eqb_refl in E. discriminate.
Qed.

Lemma groups_of_bump (k0 : K) (seen : list K) (gs : list (K * Z)) :
  groups_of eqb seen gs -> groups_of eqb (seen ++ [k0]) (bump eqb k0 gs).
Proof.
  intros (Hnd & Hkeys & Hcount). split; [|split].
  - apply bump_NoDup; exact Hnd.
  - intros k. rewrite in_app_iff. simpl.
    destruct (bump_keys k0 gs) as [E|[Hn E]]; rewrite E.
    + rewrite Hkeys. split; [tauto|].
      intros [H|[<-|[]]]; [exact H|].
      apply Hkeys. apply group_of_key.
      destruct (group_of eqb k0 gs) as [n|] eqn:G; [eauto|].
      exfalso.
      assert (Hin : In k0 (map fst (bump eqb k0 gs))).
      { apply group_of_key. rewrite group_of_bump_same. eauto. }
      rewrite E in Hin. apply group_of_key in Hin. destruct Hin as [n Hin].
      congruence.
    + rewrite in_app_iff, Hkeys. simpl. tauto.
  - intros k n Hg. rewrite occurrences_app.
    destruct (eqb k0 k) eqn:E.
    + apply eqb_eq in E; subst k0.
      rewrite group_of_bump_same in Hg. injection Hg as <-.
      unfold occurrences at 2, count. simpl. rewrite key_eqb_refl. simpl.
      destruct (group_of eqb k gs) as [n|] eqn:G.
      * rewrite (Hcount k n G). reflexivity.
      * rewrite occurrences_absent; [reflexivity|].
        intros Hin. apply Hkeys, group_of_key in Hin.
        destruct Hin as [n Hin]. congruence.
    + assert (Hne : k <> k0).
      { intros ->. rewrite key_eqb_refl in E. discriminate. }
      rewrite group_of_bump_other in Hg by exact Hne.
      unfold occurrences at 2, count. simpl. rewrite E. simpl.
      rewrite (Hcount k n Hg). lia.
Qed.

Lemma groups_of_fold (keys seen : list K) (gs : list (K * Z)) :
  groups_of eqb seen gs ->
  groups_of eqb (seen ++ keys) (fold_left (fun g k => bump eqb k g) keys gs).
Proof.
  revert seen gs. induction keys as [|k keys IH]; intros seen gs H; simpl.
  - rewrite app_nil_r. exact H.
  - replace (seen ++ k :: keys) with ((seen ++ [k]) ++ keys)
      by (rewrite <- app_assoc; reflexivity).
    apply IH. apply groups_of_bump. exact H.
Qed.

Lemma group_count_groups (keys : list K) :
  groups_of eqb keys (group_count eqb keys).
Proof.
  apply (groups_of_fold keys [] []).
  split; [constructor|]. split; [tauto|]. discriminate.
Qed.

(** One group per key that occurs, holding the number of its rows. *)
Lemma group_count_In (keys : list K) (k : K) (n : Z) :
  In (k, n) (group_count eqb keys)
  <-> In k keys /\ n = occurrences eqb k keys.
Proof.
  destruct (group_count_groups keys) as (Hnd & Hkeys & Hcount).
  rewrite (group_of_In k n _ Hnd). split.
  - intros H. split; [|apply Hcount; exact H].
    apply Hkeys, group_of_key. eauto.
  - intros [Hin ->]. apply Hkeys, group_of_key in Hin.
    destruct Hin as [n Hn]. rewrite Hn. f_equal. apply Hcount; exact Hn.
Qed.

Lemma group_count_NoDup (keys : list K) :
  NoDup (map fst (group_count eqb keys)).
Proof. apply group_count_groups. Qed.

End GroupCount.

Lemma insert_by_In {A : Type} (key : A -> Z) (x y : A) (l : list A) :
  In y (insert_by key x l) <-> y = x \/ In y l.
Proof.
  induction l as [|a l IH]; simpl.
  - split; [intros [H|[]]; auto | intros [H|[]]; auto].
  - destruct (key a <=? key x)%Z; simpl; rewrite ?IH; intuition auto.
Qed.

Lemma order_by_In {A : Type} (key : A -> Z) (y : A) (l : list A) :
  In y (order_by key l) <-> In y l.
Proof.
  unfold order_by.
  assert (H : forall acc, In y (fold_left (fun s x => insert_by key x s) l acc)
                          <-> In y l \/ In y acc).
  { induction l as [|a l IH]; intros acc; simpl; [tauto|].
    rewrite IH, insert_by_In. intuition auto. }
  rewrite H. simpl. tauto.
Qed.

(** ** The age distribution *)

Lemma age_case_ranges (a : Z) :
  In (age_case (Some a))
     [ lit "Menor de 18"; lit "18-24"; lit "25-34"; lit "35-44"; lit "45-54";
       lit "55+" ].
Proof.
  unfold age_case.
  destruct (a <? 18)%Z eqn:E1; [simpl; auto|].
  destruct ((18 <=? a) && (a <=? 24))%Z eqn:E2; [simpl; auto|].
  destruct ((25 <=? a) && (a <=? 34))%Z eqn:E3; [simpl; auto 6|].
  destruct ((35 <=? a) && (a <=? 44))%Z eqn:E4; [simpl; auto 7|].
  destruct ((45 <=? a) && (a <=? 54))%Z eqn:E5; [simpl; auto 8|].
  destruct (55 <=? a)%Z eqn:E6; [simpl; auto 9|].
  exfalso.
  apply andb_false_iff in E2, E3, E4, E5.
  rewrite !Z.leb_gt in *. rewrite Z.ltb_ge in E1. lia.
Qed.

(** C10. Every entry of the age distribution is named by one of the six
    ranges: the rows without an age are filtered out before the ranges are
    taken, so the label "No especificado" names no entry. *)
Theorem sql_ageDistribution_names (db : Database) :
  Forall (fun p =>
            In (age_name p)
               [ lit "Menor de 18"; lit "18-24"; lit "25-34"; lit "35-44";
                 lit "45-54"; lit "55+" ])
         (sql_ageDistribution db)
  /\ ~ In (lit "No especificado") (map age_name (sql_ageDistribution db)).
Proof.
  assert (H : forall p, In p (sql_ageDistribution db) ->
                        In (age_name p)
                           [ lit "Menor de 18"; lit "18-24"; lit "25-34";
                             lit "35-44"; lit "45-54"; lit "55+" ]).
  { intros p Hp. unfold sql_ageDistribution in Hp.
    apply order_by_In in Hp. apply in_map_iff in Hp.
    destruct Hp as ([k n] & <- & Hg). cbn [age_name fst].
    apply (group_count_In str_eqb str_eqb_eq) in Hg. destruct Hg as [Hk _].
    apply in_map_iff in Hk. destruct Hk as (u & <- & Hu).
    apply filter_In in Hu. destruct Hu as [_ Hage].
    destruct (u_age u) as [a|]; [apply age_case_ranges | discriminate Hage]. }
  split.
  - apply Forall_forall. exact H.
  - intros Hin. apply in_map_iff in Hin. destruct Hin as (p & Hname & Hp).
    apply H in Hp. rewrite Hname in Hp. simpl in Hp.
    repeat (destruct Hp as [Hp|Hp]; [discriminate Hp|]). exact Hp.
Qed.

(** Every user with an age is counted in the entry of the range of the
    age. *)
Lemma sql_ageDistribution_counts (db : Database) (u : User) (a : Z) :
  In u (users db) -> u_age u = Some a ->
  exists p, In p (sql_ageDistribution db)
            /\ age_name p = age_case (Some a) /\ (0 < age_count p)%Z.
Proof.
  intros Hu Ha.
  set (keys := map (fun u => age_case (u_age u))
                   (filter (fun u => is_not_null (u_age u)) (users db))).
  assert (Hk : In (age_case (Some a)) keys).
  { unfold keys. apply in_map_iff. exists u. rewrite Ha. split; [reflexivity|].
    apply filter_In. rewrite Ha. auto. }
  exists {| age_name := age_case (Some a);
            age_count := occurrences str_eqb (age_case (Some a)) keys |}.
  cbn [age_name age_count]. split; [|split; [reflexivity|]].
  - unfold sql_ageDistribution. apply order_by_In. apply in_map_iff.
    exists (age_case (Some a), occurrences str_eqb (age_case (Some a)) keys).
    split; [reflexivity|].
    apply (group_count_In str_eqb str_eqb_eq). auto.
  - apply (occurrences_present str_eqb str_eqb_eq). exact Hk.
Qed.

(** ** The gender distribution *)

Lemma gender_eqb_eq (a b : option jsstring) : gender_eqb a b = true <-> a = b.
Proof.
  destruct a as [x|], b as [y|]; simpl;
    try (split; [discriminate | intros H; discriminate H]).
  - rewrite str_eqb_eq. split; [intros ->; reflexivity | intros H; congruence].
  - tauto.
Qed.

Lemma occurrences_map {A K : Type} (eqb : K -> K -> bool) (f : A -> K)
  (k : K) (l : list A) :
  occurrences eqb k (map f l) = count (fun x => eqb (f x) k) l.
Proof.
  unfold occurrences, count. f_equal.
  induction l as [|x l IH]; simpl; [reflexivity|].
  destruct (eqb (f x) k); simpl; rewrite IH; reflexivity.
Qed.

(** C5, as the code has it.  The gender distribution has one entry per
    distinct stored gender value, [NULL] being one of them: the entry of
    [NULL] is named "No especificado", the entry of any other value, the
    empty string included, is named by the value itself, and every entry
    counts the rows with its value. *)
Theorem sql_genderDistribution_groups (db : Database) :
  exists genders : list (option jsstring),
    NoDup genders
    /\ (forall g, In g genders <-> In g (map u_gender (users db)))
    /\ sql_genderDistribution db
       = map (fun g =>
                {| dp_name := match g with
                              | None => lit "No especificado"
                              | Some raw => raw
                              end;
                   dp_value := count (fun u => gender_eqb (u_gender u) g)
                                     (users db) |})
             genders.
Proof.
  set (keys := map u_gender (users db)).
  pose proof (group_count_groups gender_eqb gender_eqb_eq keys)
    as (Hnd & Hkeys & Hcount).
  exists (map fst (group_count gender_eqb keys)).
  split; [exact Hnd|]. split; [exact Hkeys|].
  unfold sql_genderDistribution. fold keys. rewrite map_map.
  apply map_ext_in. intros [g n] Hin. cbn [fst snd].
  apply (group_count_In gender_eqb gender_eqb_eq) in Hin.
  destruct Hin as [_ ->]. unfold keys. rewrite occurrences_map.
  destruct g; reflexivity.
Qed.

(** C5, as the specification words it, fails: a row whose gender is the
    empty string is counted in an entry named by the empty string, and no
    entry is named "No especificado". *)
Lemma empty_gender_not_unspecified :
  map u_gender (users empty_gender) = [Some []]
  /\ sql_genderDistribution empty_gender = [ {| dp_name := []; dp_value := 1 |} ]
  /\ ~ In (lit "No especificado")
          (map dp_name (sql_genderDistribution empty_gender)).
Proof.
  repeat split. simpl. intros [H|[]]. discriminate H.
Qed.

(** ** The order of dates *)

Lemma dt_leb_le (a b : datetime) : dt_leb a b = true <-> dt_le a b.
Proof.
  unfold dt_leb, dt_compare, dt_fields, dt_le. cbn [compare_fields].
  destruct (Z.compare_spec (dt_year a) (dt_year b));
    [|split; [lia | reflexivity] | split; [discriminate | lia]].
  destruct (Z.compare_spec (dt_month a) (dt_month b));
    [|split; [lia | reflexivity] | split; [discriminate | lia]].
  destruct (Z.compare_spec (dt_day a) (dt_day b));
    [|split; [lia | reflexivity] | split; [discriminate | lia]].
  destruct (Z.compare_spec (dt_hour a) (dt_hour b));
    [|split; [lia | reflexivity] | split; [discriminate | lia]].
  destruct (Z.compare_spec (dt_minute a) (dt_minute b));
    [|split; [lia | reflexivity] | split; [discriminate | lia]].
  destruct (Z.compare_spec (dt_second a) (dt_second b));
    [split; [lia | reflexivity] | split; [lia | reflexivity]
     | split; [discriminate | lia]].
Qed.

Lemma dt_le_refl (a : datetime) : dt_le a a.
Proof. unfold dt_le. lia. Qed.

Lemma dt_le_trans (a b c : datetime) : dt_le a b -> dt_le b c -> dt_le a c.
Proof. unfold dt_le. lia. Qed.

Lemma dt_le_total (a b : datetime) : dt_le a b \/ dt_le b a.
Proof. unfold dt_le. lia. Qed.

Lemma dt_min_le (a b : datetime) : dt_le (dt_min a b) a /\ dt_le (dt_min a b) b.
Proof.
  unfold dt_min. destruct (dt_leb a b) eqn:E.
  - apply dt_leb_le in E. split; [apply dt_le_refl | exact E].
  - split; [|apply dt_le_refl].
    destruct (dt_le_total a b) as [H|H]; [|exact H].
    apply dt_leb_le in H. congruence.
Qed.

Lemma dt_max_le (a b : datetime) : dt_le a (dt_max a b) /\ dt_le b (dt_max a b).
Proof.
  unfold dt_max. destruct (dt_leb a b) eqn:E.
  - apply dt_leb_le in E. split; [exact E | apply dt_le_refl].
  - split; [apply dt_le_refl|].
    destruct (dt_le_total a b) as [H|H]; [|exact H].
    apply dt_leb_le in H. congruence.
Qed.

(** ** New users of the month *)

(** The bound of the query is the first day of the month before the month
    of [now]. *)
Lemma newUsers_bound_previous_month (now : datetime) :
  (1 <= dt_month now <= 12)%Z ->
  first_of_month (sub_months 1 now)
  = date (if (dt_month now =? 1)%Z then dt_year now - 1 else dt_year now)
         (if (dt_month now =? 1)%Z then 12 else dt_month now - 1)
         1.
Proof.
  intros Hm. unfold first_of_month, sub_months, date. cbn [dt_year dt_month].
  destruct (Z.eqb_spec (dt_month now) 1) as [E|E].
  - rewrite E.
    assert (Hq : ((dt_year now * 12 + (1 - 1) - 1) / 12 = dt_year now - 1)%Z).
    { symmetry. apply (Z.div_unique _ _ _ 11); lia. }
    assert (Hr : ((dt_year now * 12 + (1 - 1) - 1) mod 12 = 11)%Z).
    { symmetry. apply (Z.mod_unique _ _ (dt_year now - 1)); lia. }
    rewrite Hq, Hr. reflexivity.
  - assert (Hq : ((dt_year now * 12 + (dt_month now - 1) - 1) / 12
                  = dt_year now)%Z).
    { symmetry. apply (Z.div_unique _ _ _ (dt_month now - 2)); lia. }
    assert (Hr : ((dt_year now * 12 + (dt_month now - 1) - 1) mod 12
                  = dt_month now - 2)%Z).
    { symmetry. apply (Z.mod_unique _ _ (dt_year now)); lia. }
    rewrite Hq, Hr. f_equal. lia.
Qed.

Lemma count_le {A : Type} (p q : A -> bool) (l : list A) :
  (forall x, In x l -> p x = true -> q x = true) ->
  (count p l <= count q l)%Z.
Proof.
  unfold count. intros H. apply inj_le.
  induction l as [|x l IH]; simpl; [lia|].
  assert (IH' : (List.length (filter p l) <= List.length (filter q l))%nat).
  { apply IH. intros y Hy. apply H. right; exact Hy. }
  destruct (p x) eqn:Ep.
  - rewrite (H x (or_introl eq_refl) Ep). simpl. lia.
  - destruct (q x); simpl; lia.
Qed.

(** The query counts every user of the calendar month, and those of the
    month before on top. *)
Lemma newUsersThisMonth_includes_this_month (now : datetime) (db : Database) :
  (1 <= dt_month now <= 12)%Z ->
  (spec_new_this_month now db
   <= fold_right Z.add 0 (map cr_total (sql_newUsersThisMonth now db)))%Z.
Proof.
  intros Hm. unfold sql_newUsersThisMonth, spec_new_this_month.
  cbn [map cr_total fold_right]. rewrite Z.add_0_r.
  apply count_le. intros u _ Hu.
  apply andb_true_iff in Hu. destruct Hu as [Hu _].
  apply dt_leb_le. apply dt_leb_le in Hu.
  apply dt_le_trans with (b := first_of_month now); [|exact Hu].
  rewrite (newUsers_bound_previous_month now Hm).
  unfold dt_le, first_of_month, date. cbn.
  destruct (Z.eqb_spec (dt_month now) 1); lia.
Qed.

(** C4 on a store with one user created on 10 February, at a request in the
    middle of March: the query counts the user, and the snapshot reports one
    new user of the month, although no user was created between 1 March and
    the time of the request. *)
Theorem newUsersThisMonth_counts_previous_month :
  let now := {| dt_year := 2024; dt_month := 3; dt_day := 15;
                dt_hour := 10; dt_minute := 30; dt_second := 0 |} in
  first_of_month (sub_months 1 now) = date 2024 2 1
  /\ sql_newUsersThisMonth now created_last_month = [ {| cr_total := 1 |} ]
  /\ (exists raw,
         collectRawData (answers now created_last_month no_rows) = Ok raw
         /\ nuevos_este_mes (userStats raw) = 1%Z)
  /\ spec_new_this_month now created_last_month = 0%Z.
Proof.
  cbv zeta. repeat split.
  eexists. split; reflexivity.
Qed.

(** ** Effectiveness and retention on an empty cohort *)

Lemma collectRawData_summaries (gw : Gateway) (raw : RawData) :
  collectRawData gw = Ok raw ->
  exists e r,
    q_efectividad gw = Ok e /\ q_retencion gw = Ok r
    /\ efectividad raw = first_or e default_efectividad
    /\ retencion raw = first_or r default_retencion.
Proof.
  destruct gw as [r1 r2 r3 r4 r5 r6 r7 r8 r9 r10 r11 r12 r13 r14 r15 r16 r17].
  unfold collectRawData.
  cbn [q_userCount q_newUsersThisMonth q_testCount q_messageCount
       q_anxietyLevels q_depressionLevels q_ageDistribution
       q_genderDistribution q_monthlyUsers q_monthlyTests q_messageActivity
       q_correlationData q_efectividad q_retencion q_patronesUso
       q_respuestasExtra q_chatAnalytics].
  destruct r1; [|discriminate]. destruct r2; [|discriminate].
  destruct r3; [|discriminate]. destruct r4; [|discriminate].
  destruct r5; [|discriminate]. destruct r6; [|discriminate].
  destruct r7; [|discriminate]. destruct r8; [|discriminate].
  destruct r9; [|discriminate]. destruct r10; [|discriminate].
  destruct r11; [|discriminate]. destruct r12; [|discriminate].
  destruct r13; [|discriminate]. destruct r14; [|discriminate].
  destruct r15; [|discriminate]. destruct r16; [|discriminate].
  destruct r17; [|discriminate].
  cbn [executeQuery bind]. intros H. injection H as <-.
  eexists _, _. repeat split.
Qed.

(** C3 on the code.  With an empty effectiveness cohort the query still
    returns its one row, with [COUNT] 0 and [NULL] for the sum and for the
    percentage, so the fallback [{ porcentaje_mejora: 0 }] of the assembler
    is not taken and the percentage of the snapshot is [null].  In the same
    way a count of 0 users active in the prior months leaves [null] as the
    retention rate. *)
Theorem empty_cohort_rates_are_null
  (now : datetime) (db : Database) (gw : Gateway) (raw : RawData) :
  collectRawData gw = Ok raw ->
  q_efectividad gw = Ok (sql_efectividad db) ->
  q_retencion gw = Ok (sql_retencion now db) ->
  (scores (resultados_test db) = [] ->
   efectividad raw
   = {| total_usuarios := Present 0%Z; mejoraron := Null;
        porcentaje_mejora := Null |})
  /\ (usuarios_mes_anterior now db = 0%Z ->
      tasa_retencion (retencion raw) = Null).
Proof.
  intros Hraw He Hr.
  destruct (collectRawData_summaries gw raw Hraw)
    as (e & r & He' & Hr' & -> & ->).
  rewrite He in He'. injection He' as <-.
  rewrite Hr in Hr'. injection Hr' as <-.
  split.
  - intros Hempty. unfold sql_efectividad. rewrite Hempty. reflexivity.
  - intros Hzero. unfold sql_retencion. rewrite Hzero. reflexivity.
Qed.

(** The empty store: the snapshot has [null] where the fallback has 0. *)
Lemma empty_cohort_rates_are_null_witness :
  exists raw,
    collectRawData empty_store_gateway = Ok raw
    /\ porcentaje_mejora (efectividad raw) = Null
    /\ tasa_retencion (retencion raw) = Null
    /\ porcentaje_mejora (efectividad raw)
       <> porcentaje_mejora default_efectividad.
Proof.
  eexists. split; [reflexivity|].
  pose proof (empty_cohort_rates_are_null
                (date 2024 3 15) empty_database empty_store_gateway _
                eq_refl eq_refl eq_refl) as [He Hr].
  split; [rewrite (He eq_refl); reflexivity|].
  split; [exact (Hr eq_refl)|].
  rewrite (He eq_refl). discriminate.
Defined.

(** ** Effectiveness *)

(** C7 on a store in which the first test of user 1 is stored twice.  Two
    users have their first and last test 40 days apart and one of them has
    a lower last score; the query reports 3 users, 2 of them improved, and
    66.7 percent, because it counts the rows of the join of the first with
    the last tests and not the users. *)
Theorem sql_efectividad_counts_join_rows :
  map ut_usuario_id (user_tests (resultados_test repeated_first_test))
  = [1%Z; 2%Z]
  /\ sql_efectividad repeated_first_test
     = [ {| total_usuarios := Present 3%Z;
            mejoraron := Present 2%Z;
            porcentaje_mejora := Present {| unscaled := 667; scale := 1 |} |} ].
Proof. split; reflexivity. Qed.

(** One user with two tests 40 days apart and a lower last score: total 1,
    improved 1, 100.0 percent. *)
Lemma sql_efectividad_one_improving_user :
  DATEDIFF (date 2024 2 10) (date 2024 1 1) = 40%Z
  /\ sql_efectividad one_improving_user
     = [ {| total_usuarios := Present 1%Z;
            mejoraron := Present 1%Z;
            porcentaje_mejora := Present {| unscaled := 1000; scale := 1 |} |} ].
Proof. split; reflexivity. Qed.

Lemma dt_eqb_refl (d : datetime) : dt_eqb d d = true.
Proof.
  unfold dt_eqb, dt_compare, dt_fields. simpl.
  rewrite !Z.compare_refl. reflexivity.
Qed.

Lemma dt_min_cases (a b : datetime) : dt_min a b = a \/ dt_min a b = b.
Proof. unfold dt_min. destruct (dt_leb a b); auto. Qed.

Lemma dt_max_cases (a b : datetime) : dt_max a b = a \/ dt_max a b = b.
Proof. unfold dt_max. destruct (dt_leb a b); auto. Qed.

Lemma add_test_users (t : Test) (gs : list UserTests) :
  map ut_usuario_id (add_test t gs) = map ut_usuario_id gs
  \/ (~ In (rt_usuario_id t) (map ut_usuario_id gs)
      /\ map ut_usuario_id (add_test t gs)
         = map ut_usuario_id gs ++ [rt_usuario_id t]).
Proof.
  induction gs as [|g gs IH]; simpl.
  - right. split; [tauto | reflexivity].
  - destruct (Z.eqb_spec (ut_usuario_id g) (rt_usuario_id t)) as [E|E]; simpl.
    + left; reflexivity.
    + destruct IH as [IH|[Hn IH]]; rewrite IH; [left; reflexivity|].
      right. split; [tauto | reflexivity].
Qed.

Lemma tests_by_user_NoDup (tests : list Test) :
  NoDup (map ut_usuario_id (tests_by_user tests)).
Proof.
  unfold tests_by_user.
  assert (H : forall gs, NoDup (map ut_usuario_id gs) ->
                         NoDup (map ut_usuario_id
                                  (fold_left (fun groups t => add_test t groups)
                                             tests gs))).
  { induction tests as [|t tests IH]; intros gs Hgs; simpl; [exact Hgs|].
    apply IH. destruct (add_test_users t gs) as [->|[Hn ->]]; [exact Hgs|].
    apply NoDup_app; auto.
    - repeat constructor. intros [].
    - intros x Hx [<-|[]]. contradiction. }
  apply H. constructor.
Qed.

(** The [HAVING] clause drops groups and keeps one group per user. *)
Lemma having_keeps_users_distinct (keep : UserTests -> bool)
  (groups : list UserTests) :
  NoDup (map ut_usuario_id groups) ->
  NoDup (map ut_usuario_id (filter keep groups)).
Proof.
  induction groups as [|g groups IH]; simpl; intros Hnd; [constructor|].
  apply NoDup_cons_iff in Hnd. destruct Hnd as [Hfresh Hrest].
  destruct (keep g); simpl; [|apply IH; exact Hrest].
  apply NoDup_cons_iff. split; [|apply IH; exact Hrest].
  intros Hin. apply Hfresh.
  apply in_map_iff in Hin. destruct Hin as (g' & Hid & Hg').
  apply filter_In in Hg'. apply in_map_iff. exists g'. tauto.
Qed.

(** Each group holds the dates of two tests of its user. *)
Lemma tests_by_user_attained (tests : list Test) :
  Forall (fun g =>
            (exists t, In t tests /\ rt_usuario_id t = ut_usuario_id g
                       /\ rt_fecha t = primera_fecha g)
            /\ (exists t, In t tests /\ rt_usuario_id t = ut_usuario_id g
                          /\ rt_fecha t = ultima_fecha g))
         (tests_by_user tests).
Proof.
  unfold tests_by_user.
  set (P := fun (seen : list Test) (g : UserTests) =>
              (exists t, In t seen /\ rt_usuario_id t = ut_usuario_id g
                         /\ rt_fecha t = primera_fecha g)
              /\ (exists t, In t seen /\ rt_usuario_id t = ut_usuario_id g
                            /\ rt_fecha t = ultima_fecha g)).
  assert (Hmono : forall seen t g, P seen g -> P (seen ++ [t]) g).
  { intros seen t g [(t1 & H1 & H1') (t2 & H2 & H2')]. split.
    - exists t1. split; [apply in_or_app; auto | exact H1'].
    - exists t2. split; [apply in_or_app; auto | exact H2']. }
  assert (Hadd : forall seen t gs,
             Forall (P seen) gs -> Forall (P (seen ++ [t])) (add_test t gs)).
  { intros seen t gs. induction gs as [|g gs IH]; intros Hgs; simpl.
    - constructor; [|constructor]. split; exists t; cbn;
        (split; [apply in_or_app; right; left; reflexivity | auto]).
    - inversion Hgs as [|? ? Hg Hgs']; subst.
      destruct (Z.eqb_spec (ut_usuario_id g) (rt_usuario_id t)) as [E|E].
      + constructor.
        * destruct Hg as [(t1 & H1 & H1u & H1d) (t2 & H2 & H2u & H2d)].
          split; cbn.
          -- destruct (dt_min_cases (primera_fecha g) (rt_fecha t)) as [->| ->].
             ++ exists t1. split; [apply in_or_app; auto | auto].
             ++ exists t. split; [apply in_or_app; right; left; reflexivity|].
                auto.
          -- destruct (dt_max_cases (ultima_fecha g) (rt_fecha t)) as [->| ->].
             ++ exists t2. split; [apply in_or_app; auto | auto].
             ++ exists t. split; [apply in_or_app; right; left; reflexivity|].
                auto.
        * eapply Forall_impl; [|exact Hgs']. intros g'. apply Hmono.
      + constructor; [apply Hmono; exact Hg | apply IH; exact Hgs']. }
  assert (Hfold : forall rest seen gs,
             Forall (P seen) gs ->
             Forall (P (seen ++ rest))
                    (fold_left (fun groups t => add_test t groups) rest gs)).
  { induction rest as [|t rest IH]; intros seen gs Hgs; simpl.
    - rewrite app_nil_r. exact Hgs.
    - replace (seen ++ t :: rest) with ((seen ++ [t]) ++ rest)
        by (rewrite <- app_assoc; reflexivity).
      apply IH, Hadd, Hgs. }
  apply (Hfold tests [] []). constructor.
Qed.

(** Where no user has two tests of the same date, the join has one row per
    eligible user, with the scores of the user's first and last test; the
    total of the query is then the number of eligible users. *)
Lemma scores_without_ties (tests : list Test) :
  (forall u d, (List.length (tests_at tests u d) <= 1)%nat) ->
  NoDup (map ut_usuario_id (user_tests tests))
  /\ Forall2
       (fun ut s =>
          s_usuario_id s = ut_usuario_id ut
          /\ exists first_test last_test,
               tests_at tests (ut_usuario_id ut) (primera_fecha ut)
               = [first_test]
               /\ tests_at tests (ut_usuario_id ut) (ultima_fecha ut)
                  = [last_test]
               /\ primer_score s = rt_ansiedad_score first_test
               /\ ultimo_score s = rt_ansiedad_score last_test)
       (user_tests tests) (scores tests).
Proof.
  intros Hties. split.
  - unfold user_tests. apply having_keeps_users_distinct, tests_by_user_NoDup.
  - assert (Hone : forall g, In g (user_tests tests) ->
               (exists t, tests_at tests (ut_usuario_id g) (primera_fecha g) = [t])
               /\ (exists t, tests_at tests (ut_usuario_id g) (ultima_fecha g) = [t])).
    { intros g Hg. unfold user_tests in Hg. apply filter_In in Hg.
      destruct Hg as [Hg _].
      pose proof (proj1 (Forall_forall _ _) (tests_by_user_attained tests) g Hg)
        as [(t1 & H1 & H1u & H1d) (t2 & H2 & H2u & H2d)].
      assert (Hnonempty : forall t d, In t tests ->
                 rt_usuario_id t = ut_usuario_id g -> rt_fecha t = d ->
                 exists t', tests_at tests (ut_usuario_id g) d = [t']).
      { intros t d Hin Hu Hd.
        assert (Hat : In t (tests_at tests (ut_usuario_id g) d)).
        { unfold tests_at. apply filter_In. split; [exact Hin|].
          rewrite Hu, Hd, Z.eqb_refl, dt_eqb_refl. reflexivity. }
        specialize (Hties (ut_usuario_id g) d).
        destruct (tests_at tests (ut_usuario_id g) d) as [|t' [|t'' r]];
          [destruct Hat | eauto | simpl in Hties; lia]. }
      split; eauto. }
    unfold scores.
    induction (user_tests tests) as [|g gs IH]; simpl; [constructor|].
    destruct (Hone g (or_introl eq_refl)) as [[t1 E1] [t2 E2]].
    rewrite E1, E2. simpl.
    constructor.
    + split; [reflexivity|]. exists t1, t2. auto.
    + apply IH. intros g' Hg'. apply Hone. right; exact Hg'.
Qed.

Lemma sql_efectividad_total_without_ties (db : Database) :
  (forall u d, (List.length (tests_at (resultados_test db) u d) <= 1)%nat) ->
  map total_usuarios (sql_efectividad db)
  = [Present (Z.of_nat (List.length (user_tests (resultados_test db))))].
Proof.
  intros Hties. unfold sql_efectividad. cbn [map total_usuarios].
  destruct (scores_without_ties _ Hties) as [_ H].
  apply Forall2_length in H. rewrite H. reflexivity.
Qed.

(** What [add_test] does to groups of distinct users. *)
Lemma add_test_cases (t : Test) (gs : list UserTests) (g' : UserTests) :
  NoDup (map ut_usuario_id gs) ->
  In g' (add_test t gs) ->
  (In g' gs /\ ut_usuario_id g' <> rt_usuario_id t)
  \/ (exists g, In g gs /\ ut_usuario_id g = rt_usuario_id t
                /\ g' = {| ut_usuario_id := ut_usuario_id g;
                           primera_fecha := dt_min (primera_fecha g) (rt_fecha t);
                           ultima_fecha := dt_max (ultima_fecha g) (rt_fecha t) |})
  \/ (~ In (rt_usuario_id t) (map ut_usuario_id gs)
      /\ g' = {| ut_usuario_id := rt_usuario_id t;
                 primera_fecha := rt_fecha t;
                 ultima_fecha := rt_fecha t |}).
Proof.
  induction gs as [|g gs IH]; simpl; intros Hnd.
  - intros [<-|[]]. right; right. split; [tauto | reflexivity].
  - apply NoDup_cons_iff in Hnd. destruct Hnd as [Hfresh Hnd].
    destruct (Z.eqb_spec (ut_usuario_id g) (rt_usuario_id t)) as [E|E].
    + intros [<-|Hin].
      * right; left. exists g. auto.
      * left. split; [auto|]. intros E'. apply Hfresh.
        rewrite E, <- E'. apply in_map. exact Hin.
    + intros [<-|Hin]; [left; auto|].
      destruct (IH Hnd Hin) as [[H1 H2]|[(g0 & H1 & H2 & H3)|[H1 H2]]].
      * left; auto.
      * right; left. exists g0. auto.
      * right; right. split; [|exact H2]. intros [H|H]; [congruence | auto].
Qed.

Lemma add_test_has_user (t : Test) (gs : list UserTests) :
  In (rt_usuario_id t) (map ut_usuario_id (add_test t gs))
  /\ forall u, In u (map ut_usuario_id gs) ->
               In u (map ut_usuario_id (add_test t gs)).
Proof.
  induction gs as [|g gs [IH1 IH2]]; simpl.
  - split; [auto | tauto].
  - destruct (Z.eqb_spec (ut_usuario_id g) (rt_usuario_id t)) as [E|E]; simpl.
    + split; [auto | tauto].
    + split; [auto|]. intros u [H|H]; auto.
Qed.

(** The groups of [user_tests] before the [HAVING] clause: one per user
    with a test, holding the earliest and the latest date of the tests of
    the user. *)
Lemma tests_by_user_first_last (tests : list Test) :
  (forall t, In t tests ->
             In (rt_usuario_id t) (map ut_usuario_id (tests_by_user tests)))
  /\ Forall (fun g =>
               forall t, In t tests -> rt_usuario_id t = ut_usuario_id g ->
                         dt_le (primera_fecha g) (rt_fecha t)
                         /\ dt_le (rt_fecha t) (ultima_fecha g))
            (tests_by_user tests).
Proof.
  unfold tests_by_user.
  set (Q := fun (seen : list Test) (gs : list UserTests) =>
              NoDup (map ut_usuario_id gs)
              /\ (forall t, In t seen ->
                            In (rt_usuario_id t) (map ut_usuario_id gs))
              /\ forall g t, In g gs -> In t seen ->
                             rt_usuario_id t = ut_usuario_id g ->
                             dt_le (primera_fecha g) (rt_fecha t)
                             /\ dt_le (rt_fecha t) (ultima_fecha g)).
  assert (Hstep : forall seen t gs, Q seen gs -> Q (seen ++ [t]) (add_test t gs)).
  { intros seen t gs (Hnd & Hall & Hbounds). split; [|split].
    - destruct (add_test_users t gs) as [->|[Hn ->]]; [exact Hnd|].
      apply NoDup_app; auto.
      + repeat constructor. intros [].
      + intros x Hx [<-|[]]. contradiction.
    - intros t' Hin. apply in_app_or in Hin.
      destruct Hin as [Hin|[<-|[]]].
      + apply (proj2 (add_test_has_user t gs)), Hall, Hin.
      + apply (proj1 (add_test_has_user t gs)).
    - intros g' t' Hg' Hin Hu. apply in_app_or in Hin.
      destruct (add_test_cases t gs g' Hnd Hg')
        as [[Hg Hne]|[(g & Hg & Hgu & ->)|[Hfresh ->]]].
      + destruct Hin as [Hin|[<-|[]]]; [eauto | congruence].
      + cbn [ut_usuario_id primera_fecha ultima_fecha] in *.
        pose proof (dt_min_le (primera_fecha g) (rt_fecha t)) as [Hm1 Hm2].
        pose proof (dt_max_le (ultima_fecha g) (rt_fecha t)) as [HM1 HM2].
        destruct Hin as [Hin|[<-|[]]]; [|auto].
        destruct (Hbounds g t' Hg Hin Hu) as [H1 H2].
        split; [apply dt_le_trans with (b := primera_fecha g)
               | apply dt_le_trans with (b := ultima_fecha g)]; assumption.
      + cbn [ut_usuario_id primera_fecha ultima_fecha] in *.
        destruct Hin as [Hin|[<-|[]]].
        * exfalso. apply Hfresh. rewrite <- Hu. apply Hall, Hin.
        * split; apply dt_le_refl. }
  assert (Hfold : forall rest seen gs,
             Q seen gs ->
             Q (seen ++ rest)
               (fold_left (fun groups t => add_test t groups) rest gs)).
  { induction rest as [|t rest IH]; intros seen gs H; simpl.
    - rewrite app_nil_r. exact H.
    - replace (seen ++ t :: rest) with ((seen ++ [t]) ++ rest)
        by (rewrite <- app_assoc; reflexivity).
      apply IH, Hstep, H. }
  destruct (Hfold tests [] []) as (_ & Hall & Hbounds).
  { split; [constructor|]. split; [intros t []|intros g t []]. }
  split; [exact Hall|].
  apply Forall_forall. intros g Hg t Ht Hu. eauto.
Qed.

(** The users of the cohort: the groups of [user_tests] are the groups
    whose earliest and latest test dates are at least 30 days apart. *)
Lemma user_tests_cohort (tests : list Test) (g : UserTests) :
  In g (user_tests tests)
  <-> In g (tests_by_user tests)
      /\ (30 <= DATEDIFF (ultima_fecha g) (primera_fecha g))%Z.
Proof.
  unfold user_tests. rewrite filter_In, Z.leb_le. reflexivity.
Qed.

(** ** The percentage *)

Lemma round_half_away_comp (p q : Q) :
  (p == q)%Q -> round_half_away p = round_half_away q.
Proof.
  intros H. unfold round_half_away.
  assert (Hb : Qle_bool 0 p = Qle_bool 0 q).
  { destruct (Qle_bool 0 p) eqn:E1, (Qle_bool 0 q) eqn:E2; auto.
    - apply Qle_bool_iff in E1. rewrite H in E1.
      apply Qle_bool_iff in E1. congruence.
    - apply Qle_bool_iff in E2. rewrite <- H in E2.
      apply Qle_bool_iff in E2. congruence. }
  rewrite Hb. destruct (Qle_bool 0 q).
  - apply Qfloor_comp. rewrite H. reflexivity.
  - apply Qceiling_comp. rewrite H. reflexivity.
Qed.

(** [ROUND(k / n * 100, 1)] for counts [k] and [n > 0], in tenths. *)
Lemma ROUND_percentage (k n : Z) :
  (0 <= k)%Z -> (0 < n)%Z ->
  ROUND (sql_mul (sql_div (Some (inject_Z k)) (Some (inject_Z n)))
                 (Some (inject_Z 100)))
        1
  = Present {| unscaled := (2000 * k + n) / (2 * n); scale := 1 |}.
Proof.
  intros Hk Hn. destruct n as [|p|p]; try lia.
  unfold sql_div.
  assert (Hz : Qeq_bool (inject_Z (Z.pos p)) 0 = false) by reflexivity.
  rewrite Hz. unfold sql_mul, ROUND. f_equal. f_equal.
  rewrite (round_half_away_comp _ ((1000 * k) # p)).
  - unfold round_half_away.
    assert (Hle : Qle_bool 0 ((1000 * k) # p) = true).
    { apply Qle_bool_iff. unfold Qle. cbn [Qnum Qden]. lia. }
    rewrite Hle. unfold Qfloor, Qplus. cbn [Qnum Qden].
    rewrite Pos2Z.inj_mul. f_equal; lia.
  - unfold Qeq, Qdiv, Qmult, Qinv, inject_Z. cbn [Qnum Qden].
    rewrite ?Pos.mul_1_r, ?Pos.mul_1_l.
    change (10 ^ Z.of_nat 1)%Z with 10%Z. lia.
Qed.

(** That number of tenths is the nearest to [1000 k / n], a tie going up. *)
Lemma nearest_tenth (k n : Z) :
  (0 < n)%Z ->
  let r := ((2000 * k + n) / (2 * n))%Z in
  (- n < 2 * (n * r - 1000 * k) <= n)%Z.
Proof.
  intros Hn r.
  pose proof (Z.mul_div_le (2000 * k + n) (2 * n) ltac:(lia)) as H1.
  pose proof (Z.mul_succ_div_gt (2000 * k + n) (2 * n) ltac:(lia)) as H2.
  fold r in H1, H2. lia.
Qed.

Lemma sum_of_cases_nonneg (rows : list Scores) :
  (0 <= fold_left Z.add (map mejoro rows) 0)%Z.
Proof.
  assert (H : forall acc, (0 <= acc)%Z ->
                          (0 <= fold_left Z.add (map mejoro rows) acc)%Z).
  { induction rows as [|s rows IH]; intros acc Hacc; simpl; [exact Hacc|].
    apply IH. unfold mejoro. destruct (sql_lt _ _); lia. }
  apply H. lia.
Qed.

(** With a cohort that is not empty, the row of the effectiveness query
    holds the number of join rows, the number of those with a lower last
    score, and their ratio in percent, rounded to one decimal place. *)
Lemma sql_efectividad_percentage (db : Database) :
  let rows := scores (resultados_test db) in
  let n := Z.of_nat (List.length rows) in
  let k := fold_left Z.add (map mejoro rows) 0%Z in
  rows <> [] ->
  sql_efectividad db
  = [ {| total_usuarios := Present n;
         mejoraron := Present k;
         porcentaje_mejora :=
           Present {| unscaled := (2000 * k + n) / (2 * n); scale := 1 |} |} ].
Proof.
  intros rows n k Hrows. unfold sql_efectividad. fold rows. fold n.
  assert (Hsum : SUM (map mejoro rows) = Some k).
  { unfold SUM, k. destruct rows; [contradiction | reflexivity]. }
  rewrite Hsum. cbn [option_map nullable].
  rewrite ROUND_percentage; [reflexivity | apply sum_of_cases_nonneg |].
  unfold n. destruct rows; [contradiction | simpl; lia].
Qed.

(** ** Fences *)

Lemma replace_fences_plain (body rest : jsstring) :
  ~ In 96%N body ->
  replace_fences_from 0 (body ++ rest) = body ++ replace_fences_from 0 rest.
Proof.
  induction body as [|c body IH]; intros Hb; [reflexivity|].
  assert (Hc : N.eqb 96 c = false).
  { apply N.eqb_neq. intros E. apply Hb. left. symmetry; exact E. }
  cbn [app replace_fences_from fence_json fence starts_with].
  rewrite Hc. cbn [andb]. f_equal. apply IH.
  intros Hin. apply Hb. right; exact Hin.
Qed.

(** A payload without a backquote, wrapped in [```json] and [```], comes
    out of the replacement alone. *)
Lemma replace_fences_unwraps (body : jsstring) :
  ~ In 96%N body ->
  replace_fences (fence_json ++ body ++ fence) = body.
Proof.
  intros Hb. unfold replace_fences.
  change (replace_fences_from 0 (fence_json ++ body ++ fence))
    with (replace_fences_from 0 (body ++ fence)).
  rewrite replace_fences_plain by exact Hb.
  change (replace_fences_from 0 fence) with (@nil N).
  apply app_nil_r.
Qed.

(** * Further properties of the code *)

(** ** Counts of a grouping *)

Lemma bump_sum {K : Type} (eqb : K -> K -> bool) (k : K) (gs : list (K * Z)) :
  sum_Z (map snd (bump eqb k gs)) = (sum_Z (map snd gs) + 1)%Z.
Proof.
  induction gs as [|[k' n] gs IH]; simpl; [reflexivity|].
  destruct (eqb k' k); simpl; [lia | rewrite IH; lia].
Qed.

Lemma group_count_sum {K : Type} (eqb : K -> K -> bool) (keys : list K) :
  sum_Z (map snd (group_count eqb keys)) = Z.of_nat (List.length keys).
Proof.
  unfold group_count.
  assert (H : forall gs,
             sum_Z (map snd (fold_left (fun g k => bump eqb k g) keys gs))
             = (sum_Z (map snd gs) + Z.of_nat (List.length keys))%Z).
  { induction keys as [|k keys IH]; intros gs; simpl List.length; simpl fold_left.
    - lia.
    - rewrite IH, bump_sum. lia. }
  rewrite H. simpl. lia.
Qed.

Lemma group_count_positive {K : Type} (eqb : K -> K -> bool)
  (eqb_eq : forall a b, eqb a b = true <-> a = b) (keys : list K) :
  Forall (fun g => (0 < snd g)%Z) (group_count eqb keys).
Proof.
  apply Forall_forall. intros [k n] Hin. cbn [snd].
  apply (group_count_In eqb eqb_eq) in Hin. destruct Hin as [Hk ->].
  apply (occurrences_present eqb eqb_eq). exact Hk.
Qed.

(** ** [ORDER BY] *)

Lemma insert_by_perm {A : Type} (key : A -> Z) (x : A) (l : list A) :
  Permutation (insert_by key x l) (x :: l).
Proof.
  induction l as [|y l IH]; simpl; [reflexivity|].
  destruct (key y <=? key x)%Z; [|reflexivity].
  rewrite IH. apply perm_swap.
Qed.

Lemma order_by_perm {A : Type} (key : A -> Z) (l : list A) :
  Permutation (order_by key l) l.
Proof.
  unfold order_by.
  assert (H : forall acc,
             Permutation (fold_left (fun s x => insert_by key x s) l acc)
                         (acc ++ l)).
  { induction l as [|x l IH]; intros acc; simpl.
    - rewrite app_nil_r. reflexivity.
    - rewrite IH, insert_by_perm. apply Permutation_middle. }
  apply (H []).
Qed.

Lemma insert_by_sorted {A : Type} (key : A -> Z) (x : A) (l : list A) :
  StronglySorted (fun a b => (key a <= key b)%Z) l ->
  StronglySorted (fun a b => (key a <= key b)%Z) (insert_by key x l).
Proof.
  induction l as [|y l IH]; simpl; intros Hs.
  - repeat constructor.
  - inversion Hs as [|? ? Hl Hy]; subst.
    destruct (key y <=? key x)%Z eqn:E.
    + apply Z.leb_le in E. constructor; [apply IH; exact Hl|].
      apply Forall_forall. intros z Hz. apply insert_by_In in Hz.
      destruct Hz as [->|Hz]; [exact E|].
      exact (proj1 (Forall_forall _ _) Hy z Hz).
    + apply Z.leb_gt in E. constructor; [exact Hs|].
      constructor; [lia|].
      eapply Forall_impl; [|exact Hy]. intros z Hz. simpl in Hz. lia.
Qed.

Lemma order_by_sorted {A : Type} (key : A -> Z) (l : list A) :
  StronglySorted (fun a b => (key a <= key b)%Z) (order_by key l).
Proof.
  unfold order_by.
  assert (H : forall acc,
             StronglySorted (fun a b => (key a <= key b)%Z) acc ->
             StronglySorted (fun a b => (key a <= key b)%Z)
                            (fold_left (fun s x => insert_by key x s) l acc)).
  { induction l as [|x l IH]; intros acc Hacc; simpl; [exact Hacc|].
    apply IH, insert_by_sorted, Hacc. }
  apply H. constructor.
Qed.

Lemma sorted_distinct_strict {A : Type} (key : A -> Z) (l : list A) :
  StronglySorted (fun a b => (key a <= key b)%Z) l ->
  NoDup (map key l) ->
  StronglySorted (fun a b => (key a < key b)%Z) l.
Proof.
  induction l as [|x l IH]; intros Hs Hnd; [constructor|].
  inversion Hs as [|? ? Hl Hx]; subst.
  simpl in Hnd. apply NoDup_cons_iff in Hnd. destruct Hnd as [Hfresh Hnd].
  constructor; [apply IH; assumption|].
  apply Forall_forall. intros y Hy.
  pose proof (proj1 (Forall_forall _ _) Hx y Hy) as Hle. simpl in Hle.
  assert (key x <> key y).
  { intros E. apply Hfresh. rewrite E. apply in_map. exact Hy. }
  lia.
Qed.

Lemma sum_Z_perm (l l' : list Z) : Permutation l l' -> sum_Z l = sum_Z l'.
Proof.
  induction 1; simpl; lia.
Qed.

(** ** The distributions add up *)

(** X1. Every user is counted in exactly one entry of the gender
    distribution: the values of the entries add up to the number of rows of
    [users], and no entry has the value 0. *)
Theorem sql_genderDistribution_total (db : Database) :
  sum_Z (map dp_value (sql_genderDistribution db))
  = Z.of_nat (List.length (users db))
  /\ Forall (fun p => (0 < dp_value p)%Z) (sql_genderDistribution db).
Proof.
  unfold sql_genderDistribution. split.
  - rewrite map_map. cbn [dp_value].
    change (fun x : option jsstring * Z => snd x) with (@snd (option jsstring) Z).
    rewrite group_count_sum, length_map. reflexivity.
  - apply Forall_forall. intros p Hp. apply in_map_iff in Hp.
    destruct Hp as (g & <- & Hg). cbn [dp_value].
    exact (proj1 (Forall_forall _ _)
                 (group_count_positive gender_eqb gender_eqb_eq _) g Hg).
Qed.

Lemma FIELD_age_order_injective (a b : jsstring) :
  In a age_order -> In b age_order ->
  FIELD a age_order = FIELD b age_order -> a = b.
Proof.
  unfold age_order. simpl.
  intros Ha Hb.
  repeat (destruct Ha as [<-|Ha]);
    try contradiction;
    repeat (destruct Hb as [<-|Hb]);
    try contradiction;
    intros E; try reflexivity; vm_compute in E; discriminate E.
Qed.

(** X2. The age distribution counts every user with an age once: its counts
    add up to the number of users whose age is not [NULL].  Its entries come
    in the order of the ranges (Menor de 18, 18-24, 25-34, 35-44, 45-54,
    55+), each range at most once. *)
Theorem sql_ageDistribution_total_and_order (db : Database) :
  sum_Z (map age_count (sql_ageDistribution db))
  = count (fun u => is_not_null (u_age u)) (users db)
  /\ StronglySorted
       (fun p q => (FIELD (age_name p) age_order < FIELD (age_name q) age_order)%Z)
       (sql_ageDistribution db).
Proof.
  unfold sql_ageDistribution.
  set (rows := filter (fun u => is_not_null (u_age u)) (users db)).
  set (keys := map (fun u => age_case (u_age u)) rows).
  set (points := map (fun g => {| age_name := fst g; age_count := snd g |})
                     (group_count str_eqb keys)).
  set (key := fun p => FIELD (age_name p) age_order).
  pose proof (order_by_perm key points) as Hperm.
  split.
  - rewrite (sum_Z_perm _ _ (Permutation_map age_count Hperm)).
    unfold points. rewrite map_map. cbn [age_count].
    change (fun x : jsstring * Z => snd x) with (@snd jsstring Z).
    rewrite group_count_sum. unfold keys. rewrite length_map. reflexivity.
  - apply (sorted_distinct_strict key); [apply order_by_sorted|].
    apply (Permutation_NoDup (Permutation_sym (Permutation_map key Hperm))).
    apply NoDup_map_NoDup_ForallPairs.
    + intros p q Hp Hq E. unfold points in Hp, Hq.
      apply in_map_iff in Hp. destruct Hp as ([k n] & <- & Hg).
      apply in_map_iff in Hq. destruct Hq as ([k' n'] & <- & Hg').
      unfold key in E. cbn [age_name fst snd] in *.
      apply (group_count_In str_eqb str_eqb_eq) in Hg, Hg'.
      destruct Hg as [Hk ->]. destruct Hg' as [Hk' ->].
      assert (Hin : forall x, In x keys -> In x age_order).
      { intros x Hx. unfold keys in Hx. apply in_map_iff in Hx.
        destruct Hx as (u & <- & Hu). unfold rows in Hu.
        apply filter_In in Hu. destruct Hu as [_ Hage].
        destruct (u_age u) as [a|]; [|discriminate Hage].
        pose proof (age_case_ranges a) as H. unfold age_order.
        simpl in H. simpl. intuition auto. }
      assert (k = k') by (apply FIELD_age_order_injective; auto).
      subst k'. reflexivity.
    + unfold points.
      apply (NoDup_map_inv age_name).
      rewrite map_map. cbn [age_name].
      exact (group_count_NoDup str_eqb str_eqb_eq keys).
Qed.

(** ** Retention *)

Lemma sub_months_earlier (now : datetime) :
  dt_le (sub_months 2 now) (sub_months 1 now).
Proof.
  unfold dt_le, sub_months. cbn [dt_year dt_month dt_day dt_hour dt_minute dt_second].
  set (t := (dt_year now * 12 + (dt_month now - 1))%Z).
  pose proof (Z.div_mod (t - 2) 12 ltac:(lia)) as H2.
  pose proof (Z.div_mod (t - 1) 12 ltac:(lia)) as H1.
  pose proof (Z.mod_pos_bound (t - 2) 12 ltac:(lia)) as B2.
  pose proof (Z.mod_pos_bound (t - 1) 12 ltac:(lia)) as B1.
  lia.
Qed.

Lemma rate_bounds (k n : Z) :
  (0 <= k <= n)%Z -> (0 < n)%Z ->
  (0 <= (2000 * k + n) / (2 * n) <= 1000)%Z.
Proof.
  intros Hk Hn. split.
  - apply Z.div_pos; lia.
  - apply Z.lt_succ_r. apply Z.div_lt_upper_bound; lia.
Qed.

(** X3. The retention query returns one row.  The users active within one
    month are among those active within two months, so the first count is at
    most the second and the retention rate, where the second count is not 0,
    is a number of one decimal place between 0 and 100; where it is 0 the
    rate is [NULL]. *)
Theorem sql_retencion_rate_bounds (now : datetime) (db : Database) :
  exists promedio este anterior tasa,
    sql_retencion now db
    = [ {| promedio_meses_uso := promedio;
           usuarios_activos_este_mes := Present este;
           usuarios_activos_mes_anterior := Present anterior;
           tasa_retencion := tasa |} ]
    /\ (0 <= este <= anterior)%Z
    /\ match tasa with
       | Present d => (0 < anterior)%Z /\ scale d = 1%nat
                      /\ (0 <= unscaled d <= 1000)%Z
       | Null => anterior = 0%Z
       | Absent => False
       end.
Proof.
  unfold sql_retencion.
  set (este := usuarios_este_mes now db).
  set (anterior := usuarios_mes_anterior now db).
  assert (Hle : (0 <= este <= anterior)%Z).
  { split.
    - unfold este, usuarios_este_mes, count. lia.
    - unfold este, anterior, usuarios_este_mes, usuarios_mes_anterior.
      apply count_le. intros a _ Ha. apply dt_leb_le. apply dt_leb_le in Ha.
      eapply dt_le_trans; [apply sub_months_earlier | exact Ha]. }
  eexists _, este, anterior, _. split; [reflexivity|]. split; [exact Hle|].
  destruct (Z.eq_dec anterior 0) as [E|E].
  - rewrite E. reflexivity.
  - rewrite ROUND_percentage by lia. cbn [scale unscaled].
    split; [lia|]. split; [reflexivity|]. apply rate_bounds; lia.
Qed.

(** ** Effectiveness *)

Lemma sum_of_cases_at_most (rows : list Scores) :
  (fold_left Z.add (map mejoro rows) 0 <= Z.of_nat (List.length rows))%Z.
Proof.
  assert (H : forall acc,
             (fold_left Z.add (map mejoro rows) acc
              <= acc + Z.of_nat (List.length rows))%Z).
  { induction rows as [|s rows IH]; intros acc; simpl List.length; simpl.
    - lia.
    - specialize (IH (acc + mejoro s)%Z).
      unfold mejoro in *. destruct (sql_lt _ _); lia. }
  specialize (H 0%Z). lia.
Qed.

(** X4. The effectiveness query returns one row.  Over an empty cohort it
    holds the total 0 and [NULL] for the improved count and the percentage.
    Otherwise the improved count is between 0 and the total, and the
    percentage is the number of one decimal place nearest to
    improved / total × 100 (a tie going up), between 0 and 100. *)
Theorem sql_efectividad_row (db : Database) :
  exists n improved percentage,
    sql_efectividad db
    = [ {| total_usuarios := Present n;
           mejoraron := improved;
           porcentaje_mejora := percentage |} ]
    /\ n = Z.of_nat (List.length (scores (resultados_test db)))
    /\ match improved, percentage with
       | Null, Null => n = 0%Z
       | Present k, Present p =>
           (0 < n)%Z /\ (0 <= k <= n)%Z /\ scale p = 1%nat
           /\ (0 <= unscaled p <= 1000)%Z
           /\ (- n < 2 * (n * unscaled p - 1000 * k) <= n)%Z
       | _, _ => False
       end.
Proof.
  destruct (scores (resultados_test db)) as [|s rows] eqn:E.
  - exists 0%Z, Null, Null. unfold sql_efectividad. rewrite E.
    repeat split.
  - pose proof (sql_efectividad_percentage db) as H. cbv zeta in H.
    rewrite H by (rewrite E; discriminate). rewrite E.
    set (n := Z.of_nat (List.length (s :: rows))).
    set (k := fold_left Z.add (map mejoro (s :: rows)) 0%Z).
    assert (Hn : (0 < n)%Z) by (unfold n; simpl List.length; lia).
    assert (Hk : (0 <= k <= n)%Z).
    { split; [apply sum_of_cases_nonneg | apply sum_of_cases_at_most]. }
    eexists n, _, _. split; [reflexivity|]. split; [reflexivity|].
    cbn [scale unscaled].
    split; [exact Hn|]. split; [exact Hk|]. split; [reflexivity|].
    split; [apply rate_bounds; lia | apply nearest_tenth; exact Hn].
Qed.

Lemma dt_le_antisym (a b : datetime) : dt_le a b -> dt_le b a -> a = b.
Proof.
  destruct a, b. unfold dt_le. cbn. intros H1 H2.
  f_equal; lia.
Qed.

(** X5. The cohort of the effectiveness query.  [user_tests] has one group
    per user; the first date of a group is the earliest and its last date
    the latest date of the tests of the user, both being dates of tests of
    the user, and the two are at least 30 days apart.  Every user whose
    earliest and latest test dates are at least 30 days apart has a group. *)
Theorem user_tests_groups (tests : list Test) :
  NoDup (map ut_usuario_id (user_tests tests))
  /\ Forall
       (fun g =>
          (exists t, In t tests /\ rt_usuario_id t = ut_usuario_id g
                     /\ rt_fecha t = primera_fecha g)
          /\ (exists t, In t tests /\ rt_usuario_id t = ut_usuario_id g
                        /\ rt_fecha t = ultima_fecha g)
          /\ (forall t, In t tests -> rt_usuario_id t = ut_usuario_id g ->
                        dt_le (primera_fecha g) (rt_fecha t)
                        /\ dt_le (rt_fecha t) (ultima_fecha g))
          /\ (30 <= DATEDIFF (ultima_fecha g) (primera_fecha g))%Z)
       (user_tests tests)
  /\ forall first_test last_test,
       In first_test tests -> In last_test tests ->
       rt_usuario_id first_test = rt_usuario_id last_test ->
       (forall t, In t tests -> rt_usuario_id t = rt_usuario_id first_test ->
                  dt_le (rt_fecha first_test) (rt_fecha t)
                  /\ dt_le (rt_fecha t) (rt_fecha last_test)) ->
       (30 <= DATEDIFF (rt_fecha last_test) (rt_fecha first_test))%Z ->
       In {| ut_usuario_id := rt_usuario_id first_test;
             primera_fecha := rt_fecha first_test;
             ultima_fecha := rt_fecha last_test |}
          (user_tests tests).
Proof.
  pose proof (tests_by_user_attained tests) as Hatt.
  pose proof (tests_by_user_first_last tests) as [Hall Hbounds].
  rewrite Forall_forall in Hatt, Hbounds.
  split; [|split].
  - unfold user_tests. apply having_keeps_users_distinct, tests_by_user_NoDup.
  - apply Forall_forall. intros g Hg. apply user_tests_cohort in Hg.
    destruct Hg as [Hg Hdays].
    destruct (Hatt g Hg) as [H1 H2]. repeat split; auto.
    + apply (Hbounds g Hg); assumption.
    + apply (Hbounds g Hg); assumption.
  - intros t1 t2 Hin1 Hin2 Hu Hext Hdays.
    pose proof (Hall t1 Hin1) as Hgroup. apply in_map_iff in Hgroup.
    destruct Hgroup as (g & Hgu & Hg).
    destruct (Hatt g Hg) as [(a & Ha & Hau & Had) (b & Hb & Hbu & Hbd)].
    assert (Hfirst : primera_fecha g = rt_fecha t1).
    { apply dt_le_antisym.
      - apply (Hbounds g Hg t1 Hin1). congruence.
      - rewrite <- Had. apply (Hext a Ha). congruence. }
    assert (Hlast : ultima_fecha g = rt_fecha t2).
    { apply dt_le_antisym.
      - rewrite <- Hbd. apply (Hext b Hb). congruence.
      - apply (Hbounds g Hg t2 Hin2). congruence. }
    apply user_tests_cohort. cbn [primera_fecha ultima_fecha].
    split; [|exact Hdays].
    destruct g as [u p q]. cbn in *. subst.
    rewrite <- Hfirst, <- Hlast. exact Hg.
Qed.

Lemma dt_eqb_eq (a b : datetime) : dt_eqb a b = true -> a = b.
Proof.
  intros H. apply dt_le_antisym; apply dt_leb_le;
    unfold dt_eqb in H; unfold dt_leb.
  - destruct (dt_compare a b); [reflexivity | discriminate | discriminate].
  - unfold dt_compare, dt_fields in *. cbn [compare_fields] in *.
    destruct (Z.compare_spec (dt_year a) (dt_year b)) as [E1|E1|E1];
      try discriminate H.
    destruct (Z.compare_spec (dt_month a) (dt_month b)) as [E2|E2|E2];
      try discriminate H.
    destruct (Z.compare_spec (dt_day a) (dt_day b)) as [E3|E3|E3];
      try discriminate H.
    destruct (Z.compare_spec (dt_hour a) (dt_hour b)) as [E4|E4|E4];
      try discriminate H.
    destruct (Z.compare_spec (dt_minute a) (dt_minute b)) as [E5|E5|E5];
      try discriminate H.
    destruct (Z.compare_spec (dt_second a) (dt_second b)) as [E6|E6|E6];
      try discriminate H.
    rewrite E1, E2, E3, E4, E5, E6, !Z.compare_refl. reflexivity.
Qed.

Lemma sum_of_indicator {A : Type} (p : A -> bool) (l : list A) :
  fold_left Z.add (map (fun x => if p x then 1%Z else 0%Z) l) 0%Z = count p l.
Proof.
  unfold count.
  assert (H : forall acc,
             fold_left Z.add (map (fun x => if p x then 1%Z else 0%Z) l) acc
             = (acc + Z.of_nat (List.length (filter p l)))%Z).
  { induction l as [|x l IH]; intros acc; simpl; [lia|].
    rewrite IH. destruct (p x); simpl List.length; lia. }
  rewrite H. lia.
Qed.

(** X6. Where no user has two tests of the same date, the effectiveness
    query counts users: its total is the number of users of the cohort; its
    improved count is [NULL] over an empty cohort and otherwise the number
    of the users of the cohort whose last test has a lower anxiety score
    than their first test (a [NULL] score is not lower). *)
Theorem sql_efectividad_without_ties (db : Database) :
  (forall u d,
      (List.length (tests_at (resultados_test db) u d) <= 1)%nat) ->
  let cohort := user_tests (resultados_test db) in
  map total_usuarios (sql_efectividad db)
  = [Present (Z.of_nat (List.length cohort))]
  /\ map mejoraron (sql_efectividad db)
     = [match cohort with
        | [] => Null
        | _ :: _ =>
            Present (count (fun ut =>
                              sql_lt (last_score (resultados_test db) ut)
                                     (first_score (resultados_test db) ut))
                           cohort)
        end].
Proof.
  intros Hties cohort.
  destruct (scores_without_ties _ Hties) as [_ H].
  fold cohort in H.
  assert (Hcases :
            map mejoro (scores (resultados_test db))
            = map (fun ut =>
                     if sql_lt (last_score (resultados_test db) ut)
                               (first_score (resultados_test db) ut)
                     then 1%Z else 0%Z)
                  cohort).
  { induction H as [|ut s uts ss Hrow _ IH]; [reflexivity|].
    simpl. f_equal; [|exact IH].
    destruct Hrow as (_ & t1 & t2 & E1 & E2 & Hp & Hu).
    unfold mejoro, first_score, last_score. rewrite E1, E2, Hp, Hu.
    reflexivity. }
  unfold sql_efectividad. cbn [map total_usuarios mejoraron].
  split.
  - apply Forall2_length in H. rewrite <- H. reflexivity.
  - rewrite Hcases. clear H Hcases. clearbody cohort.
    destruct cohort as [|ut uts]; [reflexivity|].
    set (cohort := ut :: uts).
    set (cases := map (fun ut =>
                         if sql_lt (last_score (resultados_test db) ut)
                                   (first_score (resultados_test db) ut)
                         then 1%Z else 0%Z) cohort).
    assert (Hsum : SUM cases
                   = Some (count (fun ut =>
                                    sql_lt (last_score (resultados_test db) ut)
                                           (first_score (resultados_test db) ut))
                                 cohort)).
    { unfold SUM. destruct cases as [|c cs] eqn:E.
      - discriminate E.
      - rewrite <- E. unfold cases. rewrite sum_of_indicator. reflexivity. }
    rewrite Hsum. reflexivity.
Qed.

(** One user with two tests 40 days apart, the second with the lower
    score. *)
Lemma sql_efectividad_without_ties_witness :
  map total_usuarios (sql_efectividad one_improving_user) = [Present 1%Z]
  /\ map mejoraron (sql_efectividad one_improving_user) = [Present 1%Z].
Proof.
  assert (Hties : forall u d,
             (List.length (tests_at (resultados_test one_improving_user) u d)
              <= 1)%nat).
  { intros u d. unfold tests_at. simpl.
    destruct (dt_eqb d (date 2024 1 1)) eqn:E1;
      destruct (dt_eqb d (date 2024 2 10)) eqn:E2;
      destruct (u =? 7)%Z; simpl; try lia.
    apply dt_eqb_eq in E1, E2. rewrite E1 in E2. discriminate E2. }
  destruct (sql_efectividad_without_ties one_improving_user Hties) as [H1 H2].
  split; [exact H1 | exact H2].
Defined.

(** X7. For every time of the request, the bound of the new-users query is
    midnight of the first day of the calendar month before the current one
    (December of the year before, in January), so the reported count is the
    number of users created since then; it is never below the number of
    users created in the current calendar month up to now. *)
Theorem sql_newUsersThisMonth_window (now : datetime) (db : Database) :
  (1 <= dt_month now <= 12)%Z ->
  sql_newUsersThisMonth now db
  = [ {| cr_total :=
           count (fun u =>
                    dt_leb (date (if (dt_month now =? 1)%Z
                                  then dt_year now - 1 else dt_year now)
                                 (if (dt_month now =? 1)%Z
                                  then 12 else dt_month now - 1)
                                 1)
                           (u_created_at u))
                 (users db) |} ]
  /\ (spec_new_this_month now db
      <= sum_Z (map cr_total (sql_newUsersThisMonth now db)))%Z.
Proof.
  intros Hm. split.
  - unfold sql_newUsersThisMonth.
    rewrite (newUsers_bound_previous_month now Hm). reflexivity.
  - exact (newUsersThisMonth_includes_this_month now db Hm).
Qed.

(** A request in January: the bound is 1 December of the year before. *)
Lemma sql_newUsersThisMonth_window_witness :
  sql_newUsersThisMonth (date 2024 1 20)
    {| users := [ sample_user 1 (date 2023 12 5) None;
                  sample_user 2 (date 2023 11 30) None ];
       chats := []; resultados_test := [] |}
  = [ {| cr_total := 1 |} ].
Proof.
  refine (eq_trans
            (proj1 (sql_newUsersThisMonth_window (date 2024 1 20) _ _)) _).
  - cbn. lia.
  - reflexivity.
Defined.

(** ** White space around a JSON text *)

Lemma json_ws_cases (c : N) :
  is_json_ws c = true -> (c = 32 \/ c = 9 \/ c = 10 \/ c = 13)%N.
Proof.
  unfold is_json_ws. rewrite !orb_true_iff, !N.eqb_eq. tauto.
Qed.

Lemma other_space_cases (c : N) :
  is_trim_space c = true -> is_json_ws c = false ->
  (c = 11 \/ c = 12 \/ 160 <= c)%N.
Proof.
  unfold is_trim_space, is_json_ws.
  rewrite !orb_true_iff, !andb_true_iff, !orb_false_iff, !N.eqb_eq,
    !N.eqb_neq, !N.leb_le.
  lia.
Qed.

Lemma lex_leading_ws (c : N) (s : jsstring) :
  is_json_ws c = true -> lex LStart (c :: s) = lex LStart s.
Proof.
  intros H. cbn [lex lex_step]. unfold start_step. rewrite H.
  destruct (lex LStart s); reflexivity.
Qed.

Lemma start_step_ok (c : N) (st : lstate) (toks : list token) :
  start_step c = Some (st, toks) -> lstate_ok st.
Proof.
  unfold start_step.
  repeat match goal with
         | |- context [if ?b then _ else _] => destruct b
         end;
    intros H; inversion H; subst; cbn; auto;
    repeat constructor.
Qed.

Lemma lex_step_ok (st st' : lstate) (c : N) (toks : list token) :
  lstate_ok st -> lex_step st c = Some (st', toks) -> lstate_ok st'.
Proof.
  intros Hok. destruct st as [|acc|acc|acc v seen|ns acc|rest tok]; cbn [lex_step].
  - apply start_step_ok.
  - repeat match goal with
           | |- context [if ?b then _ else _] => destruct b
           end; intros H; inversion H; subst; exact I.
  - repeat match goal with
           | |- context [if ?b then _ else _] => destruct b
           end; intros H; inversion H; subst; exact I.
  - destruct (hex_value c); [|discriminate].
    destruct (Nat.eqb seen 3); intros H; inversion H; subst; exact I.
  - destruct (num_step ns c); [intros H; inversion H; subst; exact I|].
    destruct (num_accepting ns); [|discriminate].
    destruct (start_step c) as [[st0 toks0]|] eqn:E; [|discriminate].
    intros H; inversion H; subst. eapply start_step_ok; exact E.
  - destruct rest as [|x rest']; [discriminate|].
    destruct (N.eqb c x); [|discriminate].
    cbn in Hok. inversion Hok as [|? ? _ Hrest]; subst.
    destruct rest'; intros H; inversion H; subst; [exact I | exact Hrest].
Qed.

Lemma lex_last_ws (c : N) (st : lstate) :
  is_json_ws c = true -> lstate_ok st -> lex st [c] = lex_end st.
Proof.
  intros Hc Hok.
  destruct st as [|acc|acc|acc v seen|ns acc|rest tok].
  - cbn [lex lex_step]. unfold start_step. rewrite Hc. reflexivity.
  - destruct (json_ws_cases c Hc) as [->|[->|[->| ->]]]; reflexivity.
  - destruct (json_ws_cases c Hc) as [->|[->|[->| ->]]]; reflexivity.
  - destruct (json_ws_cases c Hc) as [->|[->|[->| ->]]]; reflexivity.
  - destruct (json_ws_cases c Hc) as [->|[->|[->| ->]]];
      destruct ns; reflexivity.
  - destruct rest as [|x rest']; [reflexivity|].
    cbn in Hok. inversion Hok as [|? ? Hx _]; subst.
    cbn [lex lex_step lex_end].
    destruct (N.eqb_spec c x) as [E|E]; [|reflexivity].
    subst x. exfalso.
    destruct (json_ws_cases c Hc) as [->|[->|[->| ->]]]; discriminate Hx.
Qed.

Lemma lex_trailing_ws (c : N) (s : jsstring) (st : lstate) :
  is_json_ws c = true -> lstate_ok st -> lex st (s ++ [c]) = lex st s.
Proof.
  intros Hc. revert st. induction s as [|x s IH]; intros st Hok.
  - apply lex_last_ws; assumption.
  - cbn [app lex]. destruct (lex_step st x) as [[st' toks]|] eqn:E;
      [|reflexivity].
    rewrite IH by (eapply lex_step_ok; eauto). reflexivity.
Qed.

Ltac no_such_unit c :=
  repeat match goal with
         | |- context [N.eqb c ?k] =>
             replace (N.eqb c k) with false
               by (symmetry; apply N.eqb_neq; lia)
         | |- context [N.leb c ?k] =>
             replace (N.leb c k) with false
               by (symmetry; apply N.leb_gt; lia)
         | |- context [N.ltb c ?k] =>
             replace (N.ltb c k) with false
               by (symmetry; apply N.ltb_ge; lia)
         end;
  rewrite ?andb_false_r; cbn [orb andb].

Lemma start_step_other_space (c : N) :
  is_trim_space c = true -> is_json_ws c = false -> start_step c = None.
Proof.
  intros Ht Hw.
  destruct (other_space_cases c Ht Hw) as [->|[->|Hc]];
    [reflexivity | reflexivity |].
  unfold start_step, is_digit. rewrite Hw. no_such_unit c. reflexivity.
Qed.

Lemma num_step_other_space (c : N) (ns : numstate) :
  is_trim_space c = true -> is_json_ws c = false -> num_step ns c = None.
Proof.
  intros Ht Hw.
  destruct (other_space_cases c Ht Hw) as [->|[->|Hc]];
    [destruct ns; reflexivity | destruct ns; reflexivity |].
  unfold num_step, is_digit. no_such_unit c. destruct ns; reflexivity.
Qed.

Lemma lex_last_other_space (c : N) (st : lstate) :
  is_trim_space c = true -> is_json_ws c = false -> lstate_ok st ->
  lex st [c] = None.
Proof.
  intros Ht Hw Hok.
  destruct st as [|acc|acc|acc v seen|ns acc|rest tok]; cbn [lex lex_step].
  - rewrite start_step_other_space by assumption. reflexivity.
  - destruct (other_space_cases c Ht Hw) as [->|[->|Hc]];
      [reflexivity | reflexivity |].
    no_such_unit c. reflexivity.
  - destruct (other_space_cases c Ht Hw) as [->|[->|Hc]];
      [reflexivity | reflexivity |].
    no_such_unit c. reflexivity.
  - destruct (other_space_cases c Ht Hw) as [->|[->|Hc]];
      [reflexivity | reflexivity |].
    unfold hex_value, is_digit. no_such_unit c. reflexivity.
  - rewrite num_step_other_space, start_step_other_space by assumption.
    destruct (num_accepting ns); reflexivity.
  - destruct rest as [|x rest']; [reflexivity|].
    cbn in Hok. inversion Hok as [|? ? Hx _]; subst.
    destruct (N.eqb_spec c x) as [E|E]; [|reflexivity].
    subst x. congruence.
Qed.

Lemma lex_trailing_other_space (c : N) (s : jsstring) (st : lstate) :
  is_trim_space c = true -> is_json_ws c = false -> lstate_ok st ->
  lex st (s ++ [c]) = None.
Proof.
  intros Ht Hw. revert st. induction s as [|x s IH]; intros st Hok.
  - apply lex_last_other_space; assumption.
  - cbn [app lex]. destruct (lex_step st x) as [[st' toks]|] eqn:E;
      [|reflexivity].
    rewrite IH by (eapply lex_step_ok; eauto). reflexivity.
Qed.

(** Trimming keeps the value of a text that parses. *)
Lemma JSON_parse_trimStart (s : jsstring) (v : json) :
  JSON_parse s = Some v -> JSON_parse (trimStart s) = Some v.
Proof.
  induction s as [|c s IH]; intros H; [exact H|].
  cbn [trimStart]. destruct (is_trim_space c) eqn:Ht; [|exact H].
  apply IH. unfold JSON_parse in *.
  destruct (is_json_ws c) eqn:Hw.
  - rewrite lex_leading_ws in H by exact Hw. exact H.
  - cbn [lex lex_step] in H.
    rewrite start_step_other_space in H by assumption. discriminate H.
Qed.

Lemma JSON_parse_trimEnd (s : jsstring) (v : json) :
  JSON_parse s = Some v -> JSON_parse (trimEnd s) = Some v.
Proof.
  unfold trimEnd. rewrite <- (rev_involutive s) at 1.
  induction (rev s) as [|c r IH]; intros H; [exact H|].
  cbn [trimStart]. destruct (is_trim_space c) eqn:Ht; [|exact H].
  apply IH. cbn [rev] in H. unfold JSON_parse in *.
  destruct (is_json_ws c) eqn:Hw.
  - rewrite lex_trailing_ws in H by (auto; exact I). exact H.
  - rewrite lex_trailing_other_space in H by (auto; exact I). discriminate H.
Qed.

Lemma JSON_parse_trim (s : jsstring) (v : json) :
  JSON_parse s = Some v -> JSON_parse (trim s) = Some v.
Proof.
  intros H. unfold trim. apply JSON_parse_trimEnd, JSON_parse_trimStart, H.
Qed.

(** X8. Whenever the generated text, with its fence markers deleted, is a
    JSON text, the runner returns the value of that text: trimming the white
    space around it loses nothing, and the second parse is not tried. *)
Theorem runGeminiAgent_returns_unfenced_json
  (generated name : jsstring) (v : json) :
  JSON_parse (replace_fences generated) = Some v ->
  runGeminiAgent (Ok generated) name = Ok v.
Proof.
  intros H. unfold runGeminiAgent.
  rewrite (JSON_parse_trim _ _ H). reflexivity.
Qed.

Lemma runGeminiAgent_returns_unfenced_json_witness :
  runGeminiAgent (Ok (text "```json" ++ [10%N; 32%N]
                      ++ text "['Uso nocturno'] " ++ [10%N] ++ text "```"
                      ++ [10%N]))
                 (agentName AnalisisPatrones)
  = Ok (JArray [JString (lit "Uso nocturno")]).
Proof.
  apply runGeminiAgent_returns_unfenced_json. reflexivity.
Defined.

(** X9. A JSON payload without a backquote that the backend wraps in the
    usual fence, [```json], a line feed, the payload, a line feed, [```], is
    returned as the payload parses. *)
Theorem runGeminiAgent_unwraps_fenced_payload
  (body name : jsstring) (v : json) :
  ~ In 96%N body ->
  JSON_parse body = Some v ->
  runGeminiAgent (Ok (fence_json ++ (10%N :: body ++ [10%N]) ++ fence)) name
  = Ok v.
Proof.
  intros Hb Hv. unfold runGeminiAgent.
  rewrite replace_fences_unwraps.
  - rewrite (JSON_parse_trim _ v); [reflexivity|].
    unfold JSON_parse in *.
    change (10%N :: body ++ [10%N]) with ((10%N :: body) ++ [10%N]).
    rewrite lex_trailing_ws by (reflexivity || exact I).
    rewrite lex_leading_ws by reflexivity. exact Hv.
  - intros [H|H]; [discriminate H|].
    apply in_app_or in H. destruct H as [H|[H|[]]]; [auto | discriminate H].
Qed.

Lemma runGeminiAgent_unwraps_fenced_payload_witness :
  runGeminiAgent
    (Ok (fence_json
         ++ (10%N :: text "{'insight': 'Mejora sostenida', 'score': 80}"
             ++ [10%N])
         ++ fence))
    (agentName AnalisisEfectividad)
  = Ok (JObject [ (lit "insight", JString (lit "Mejora sostenida"));
                  (lit "score", JNumber (lit "80")) ]).
Proof.
  apply runGeminiAgent_unwraps_fenced_payload.
  - vm_compute. intuition discriminate.
  - reflexivity.
Defined.

(** ** [GROUP BY] with the rows of the groups *)

Section GroupBy.
Context {K A : Type} (eqb : K -> K -> bool) (key : A -> K).
Hypothesis eqb_eq : forall a b, eqb a b = true <-> a = b.

Lemma add_row_keys (k : K) (a : A) (gs : list (K * list A)) :
  (In k (map fst gs) /\ map fst (add_row eqb k a gs) = map fst gs)
  \/ (~ In k (map fst gs) /\ map fst (add_row eqb k a gs) = map fst gs ++ [k]).
Proof.
  induction gs as [|[k' l] gs IH]; simpl.
  - right. split; [tauto | reflexivity].
  - destruct (eqb k' k) eqn:E; simpl.
    + left. apply eqb_eq in E. auto.
    + destruct IH as [[Hin IH]|[Hn IH]]; rewrite IH.
      * left. auto.
      * right. split; [|reflexivity].
        intros [H|H]; [|tauto]. subst k'.
        rewrite (key_eqb_refl eqb eqb_eq) in E. discriminate.
Qed.

Lemma add_row_cases (k : K) (a : A) (gs : list (K * list A))
  (k' : K) (l' : list A) :
  NoDup (map fst gs) ->
  In (k', l') (add_row eqb k a gs) ->
  (In (k', l') gs /\ k' <> k)
  \/ (k' = k /\ exists l, In (k, l) gs /\ l' = l ++ [a])
  \/ (k' = k /\ ~ In k (map fst gs) /\ l' = [a]).
Proof.
  induction gs as [|[k0 l0] gs IH]; simpl; intros Hnd.
  - intros [H|[]]. injection H as <- <-. right; right. tauto.
  - apply NoDup_cons_iff in Hnd. destruct Hnd as [Hfresh Hnd].
    destruct (eqb k0 k) eqn:E.
    + apply eqb_eq in E. subst k0. intros [H|H].
      * injection H as <- <-. right; left. split; [reflexivity|].
        exists l0. auto.
      * left. split; [auto|]. intros ->. apply Hfresh.
        apply (in_map fst) in H. exact H.
    + intros [H|H].
      * injection H as <- <-. left. split; [auto|].
        intros ->. rewrite (key_eqb_refl eqb eqb_eq) in E. discriminate.
      * destruct (IH Hnd H) as [[H1 H2]|[(-> & l & H1 & H2)|(-> & H1 & H2)]].
        -- left; auto.
        -- right; left. split; [reflexivity|]. exists l. auto.
        -- right; right. split; [reflexivity|]. split; [|exact H2].
           intros [H3|H3]; [|tauto]. subst k0.
           rewrite (key_eqb_refl eqb eqb_eq) in E. discriminate.
Qed.

Lemma filter_absent (k : K) (rows : list A) :
  ~ In k (map key rows) -> filter (fun a => eqb (key a) k) rows = [].
Proof.
  induction rows as [|a rows IH]; simpl; intros H; [reflexivity|].
  rewrite (key_eqb_false eqb eqb_eq) by (intros E; apply H; left; exact E).
  apply IH. tauto.
Qed.

(** One group per key that occurs, holding the rows of the key in their
    order. *)
Lemma group_by_groups (rows : list A) :
  NoDup (map fst (group_by eqb key rows))
  /\ (forall k, In k (map fst (group_by eqb key rows)) <-> In k (map key rows))
  /\ forall k l, In (k, l) (group_by eqb key rows) ->
                 l = filter (fun a => eqb (key a) k) rows.
Proof.
  unfold group_by.
  set (Q := fun (seen : list A) (gs : list (K * list A)) =>
              NoDup (map fst gs)
              /\ (forall k, In k (map fst gs) <-> In k (map key seen))
              /\ forall k l, In (k, l) gs ->
                             l = filter (fun a => eqb (key a) k) seen).
  assert (Hstep : forall seen a gs,
             Q seen gs -> Q (seen ++ [a]) (add_row eqb (key a) a gs)).
  { intros seen a gs (Hnd & Hkeys & Hrows). split; [|split].
    - destruct (add_row_keys (key a) a gs) as [[_ ->]|[Hn ->]]; [exact Hnd|].
      apply NoDup_app; auto.
      + repeat constructor. intros [].
      + intros x Hx [<-|[]]. contradiction.
    - intros k. rewrite map_app, in_app_iff. simpl.
      destruct (add_row_keys (key a) a gs) as [[Hin ->]|[Hn ->]].
      + rewrite Hkeys. split; [tauto|].
        intros [H|[<-|[]]]; [exact H | apply Hkeys, Hin].
      + rewrite in_app_iff, Hkeys. simpl. tauto.
    - intros k l Hin. rewrite filter_app. simpl.
      destruct (add_row_cases _ _ _ _ _ Hnd Hin)
        as [[H1 H2]|[(-> & l0 & H1 & ->)|(-> & H1 & ->)]].
      + rewrite (key_eqb_false eqb eqb_eq) by congruence.
        rewrite app_nil_r. apply Hrows, H1.
      + rewrite (key_eqb_refl eqb eqb_eq). rewrite (Hrows _ _ H1). reflexivity.
      + rewrite (key_eqb_refl eqb eqb_eq).
        rewrite filter_absent; [reflexivity|].
        intros H. apply H1, Hkeys, H. }
  assert (Hfold : forall rest seen gs,
             Q seen gs ->
             Q (seen ++ rest)
               (fold_left (fun groups a => add_row eqb (key a) a groups)
                          rest gs)).
  { induction rest as [|a rest IH]; intros seen gs H; simpl.
    - rewrite app_nil_r. exact H.
    - replace (seen ++ a :: rest) with ((seen ++ [a]) ++ rest)
        by (rewrite <- app_assoc; reflexivity).
      apply IH, Hstep, H. }
  apply (Hfold rows [] []).
  split; [constructor|]. split; [simpl; tauto | intros k l []].
Qed.

Lemma group_by_nonempty (rows : list A) (k : K) (l : list A) :
  In (k, l) (group_by eqb key rows) -> l <> [].
Proof.
  intros Hin. destruct (group_by_groups rows) as (_ & Hkeys & Hrows).
  rewrite (Hrows k l Hin).
  assert (Hk : In k (map key rows)).
  { apply Hkeys. apply (in_map fst) in Hin. exact Hin. }
  apply in_map_iff in Hk. destruct Hk as (a & Ha & Hin').
  intros E.
  assert (Hf : In a (filter (fun a => eqb (key a) k) rows)).
  { apply filter_In. split; [exact Hin'|]. apply eqb_eq. exact Ha. }
  rewrite E in Hf. destruct Hf.
Qed.

End GroupBy.

(** ** The levels of anxiety and depression *)

Lemma occurrences_not_null {A : Type} (column : A -> option jsstring)
  (k : jsstring) (rows : list A) :
  occurrences str_eqb k (not_null column rows)
  = count (fun r => match column r with
                    | Some x => str_eqb x k
                    | None => false
                    end)
          rows.
Proof.
  unfold occurrences, count, not_null. f_equal.
  induction rows as [|r rows IH]; simpl; [reflexivity|].
  destruct (column r) as [x|]; simpl; [|exact IH].
  destruct (str_eqb x k); simpl; rewrite IH; reflexivity.
Qed.

Lemma not_null_length {A B : Type} (column : A -> option B) (rows : list A) :
  Z.of_nat (List.length (not_null column rows))
  = count (fun r => is_not_null (column r)) rows.
Proof.
  unfold count, not_null. f_equal.
  induction rows as [|r rows IH]; simpl; [reflexivity|].
  destruct (column r); simpl; rewrite IH; reflexivity.
Qed.

(** X10. The distribution of an interpretation column (anxiety or
    depression) has one entry per label that occurs, each label once; the
    value of an entry is the number of tests with that label, never 0; the
    tests without a label are in no entry, so the values add up to the
    number of tests that have one. *)
Theorem sql_levels_counts (column : ResultadoTest -> option jsstring)
  (s : Store) :
  let tests := st_resultados_test s in
  NoDup (map dp_name (sql_levels column s))
  /\ (forall label, In label (map dp_name (sql_levels column s))
                    <-> exists r, In r tests /\ column r = Some label)
  /\ Forall (fun p =>
               dp_value p
               = count (fun r => match column r with
                                 | Some x => str_eqb x (dp_name p)
                                 | None => false
                                 end)
                       tests
               /\ (0 < dp_value p)%Z)
            (sql_levels column s)
  /\ sum_Z (map dp_value (sql_levels column s))
     = count (fun r => is_not_null (column r)) tests.
Proof.
  intros tests. unfold sql_levels. fold tests.
  set (keys := not_null column tests).
  pose proof (group_count_groups str_eqb str_eqb_eq keys)
    as (Hnd & Hkeys & _).
  assert (Hnames : map dp_name
                     (map (fun g => {| dp_name := fst g; dp_value := snd g |})
                          (group_count str_eqb keys))
                   = map fst (group_count str_eqb keys)).
  { rewrite map_map. reflexivity. }
  split; [|split; [|split]].
  - rewrite Hnames. exact Hnd.
  - intros label. rewrite Hnames, Hkeys. unfold keys, not_null.
    rewrite in_flat_map. split.
    + intros (r & Hr & Hin). exists r. split; [exact Hr|].
      destruct (column r) as [x|]; [|destruct Hin].
      destruct Hin as [<-|[]]. reflexivity.
    + intros (r & Hr & E). exists r. split; [exact Hr|].
      rewrite E. left; reflexivity.
  - apply Forall_forall. intros p Hp. apply in_map_iff in Hp.
    destruct Hp as ([k n] & <- & Hg). cbn [dp_name dp_value fst snd].
    apply (group_count_In str_eqb str_eqb_eq) in Hg. destruct Hg as [Hk ->].
    split.
    + apply occurrences_not_null.
    + apply (occurrences_present str_eqb str_eqb_eq). exact Hk.
  - rewrite map_map. cbn [dp_value].
    change (fun x : jsstring * Z => snd x) with (@snd jsstring Z).
    rewrite group_count_sum. apply not_null_length.
Qed.

(** ** The weekly activity *)

Lemma WEEKDAY_range (d : datetime) : (0 <= WEEKDAY d < 7)%Z.
Proof. unfold WEEKDAY. apply Z.mod_pos_bound. lia. Qed.

Lemma format_a_weekday (d : datetime) : In (format_a d) weekday_names.
Proof.
  unfold format_a. apply nth_In.
  pose proof (WEEKDAY_range d). unfold weekday_names. simpl List.length. lia.
Qed.

Lemma FIELD_weekday_injective (a b : jsstring) :
  In a weekday_names -> In b weekday_names ->
  FIELD a weekday_names = FIELD b weekday_names -> a = b.
Proof.
  unfold weekday_names. simpl.
  intros Ha Hb.
  repeat (destruct Ha as [<-|Ha]);
    try contradiction;
    repeat (destruct Hb as [<-|Hb]);
    try contradiction;
    intros E; try reflexivity; vm_compute in E; discriminate E.
Qed.

Lemma FIELD_weekday_range (a : jsstring) :
  In a weekday_names -> (1 <= FIELD a weekday_names <= 7)%Z.
Proof.
  unfold weekday_names. simpl. intros Ha.
  repeat (destruct Ha as [<-|Ha]); try contradiction; vm_compute;
    split; discriminate.
Qed.

Lemma strictly_sorted_length {A : Type} (key : A -> Z) (hi : Z) (l : list A) :
  StronglySorted (fun a b => (key a < key b)%Z) l ->
  forall lo, (lo <= hi + 1)%Z ->
             Forall (fun a => (lo <= key a <= hi)%Z) l ->
             (Z.of_nat (List.length l) <= hi - lo + 1)%Z.
Proof.
  induction 1 as [|x l Hl IH Hx]; intros lo Hlo Hrange; simpl List.length.
  - lia.
  - inversion Hrange as [|? ? Hxr Hlr]; subst.
    assert (Htail : Forall (fun a => (key x + 1 <= key a <= hi)%Z) l).
    { apply Forall_forall. intros y Hy.
      pose proof (proj1 (Forall_forall _ _) Hx y Hy).
      pose proof (proj1 (Forall_forall _ _) Hlr y Hy). simpl in *. lia. }
    specialize (IH (key x + 1)%Z ltac:(lia) Htail). lia.
Qed.

Lemma translateDay_weekday (day : MessageActivity jsstring) :
  In (dia day) weekday_names ->
  exists es, In (dia day, es) diasTraducidos
             /\ translateDay day
                = {| dia := JsString es; mensajes := mensajes day;
                     chatbots := chatbots day |}.
Proof.
  destruct day as [d m c]. cbn [dia mensajes chatbots].
  unfold weekday_names. simpl.
  intros H.
  repeat (destruct H as [<-|H]); try contradiction;
    eexists; (split; [|reflexivity]); unfold diasTraducidos; simpl; auto 10.
Qed.

Lemma sql_messageActivity_rows (now : datetime) (s : Store) :
  let window := filter (fun m => dt_leb (sub_days 7 now) (cm_created_at m))
                       (st_chat_messages s) in
  Permutation
    (sql_messageActivity now s)
    (map (fun g => {| dia := fst g;
                      mensajes := Z.of_nat (List.length (snd g));
                      chatbots := SUM (map cm_is_bot (snd g)) |})
         (group_by str_eqb (fun m => format_a (cm_created_at m)) window))
  /\ StronglySorted
       (fun p q => (FIELD (dia p) weekday_names
                    < FIELD (dia q) weekday_names)%Z)
       (sql_messageActivity now s)
  /\ Forall (fun r => In (dia r) weekday_names) (sql_messageActivity now s).
Proof.
  intros window. unfold sql_messageActivity. fold window.
  set (groups := group_by str_eqb (fun m => format_a (cm_created_at m)) window).
  set (rows := map (fun g => {| dia := fst g;
                                mensajes := Z.of_nat (List.length (snd g));
                                chatbots := SUM (map cm_is_bot (snd g)) |})
                   groups).
  set (key := fun r : MessageActivity jsstring => FIELD (dia r) weekday_names).
  pose proof (order_by_perm key rows) as Hperm.
  pose proof (group_by_groups str_eqb (fun m => format_a (cm_created_at m))
                              str_eqb_eq window) as (Hnd & Hkeys & _).
  fold groups in Hnd, Hkeys.
  assert (Hdias : map dia rows = map fst groups).
  { unfold rows. rewrite map_map. reflexivity. }
  assert (Hin : forall r, In r rows -> In (dia r) weekday_names).
  { intros r Hr. apply (in_map dia) in Hr. rewrite Hdias in Hr.
    apply Hkeys in Hr. apply in_map_iff in Hr.
    destruct Hr as (m & <- & _). apply format_a_weekday. }
  split; [exact Hperm|]. split.
  - apply (sorted_distinct_strict key); [apply order_by_sorted|].
    apply (Permutation_NoDup (Permutation_sym (Permutation_map key Hperm))).
    apply NoDup_map_NoDup_ForallPairs.
    + intros p q Hp Hq E. unfold key in E.
      assert (Hd : dia p = dia q)
        by (apply FIELD_weekday_injective; auto).
      unfold rows in Hp, Hq.
      apply in_map_iff in Hp. destruct Hp as ([k l] & <- & Hg).
      apply in_map_iff in Hq. destruct Hq as ([k' l'] & <- & Hg').
      cbn [dia fst snd] in *. subst k'.
      pose proof (group_by_groups str_eqb (fun m => format_a (cm_created_at m))
                                  str_eqb_eq window) as (_ & _ & Hrows).
      fold groups in Hrows.
      rewrite (Hrows k l Hg), (Hrows k l' Hg'). reflexivity.
    + apply (NoDup_map_inv dia). rewrite Hdias. exact Hnd.
  - apply Forall_forall. intros r Hr. apply Hin.
    apply (Permutation_in _ Hperm). exact Hr.
Qed.

(** X11. The weekly activity of the snapshot, the query followed by the
    translation: every row is labelled by one of Lun, Mar, Mié, Jue, Vie,
    Sáb, Dom, the translation of the English label of the query, with the
    counts of the query; the rows come in the order Monday to Sunday, each
    day at most once, so that there are at most seven rows. *)
Theorem weekly_activity_labels (now : datetime) (s : Store) :
  let rows := sql_messageActivity now s in
  Forall2 (fun r t =>
             exists es, In (dia r, es) diasTraducidos
                        /\ dia t = JsString es
                        /\ mensajes t = mensajes r
                        /\ chatbots t = chatbots r)
          rows (translateMessageActivity rows)
  /\ StronglySorted
       (fun p q => (FIELD (dia p) weekday_names
                    < FIELD (dia q) weekday_names)%Z)
       rows
  /\ (List.length (translateMessageActivity rows) <= 7)%nat.
Proof.
  intros rows.
  destruct (sql_messageActivity_rows now s) as (_ & Hsorted & Hin).
  fold rows in Hsorted, Hin.
  split; [|split].
  - unfold translateMessageActivity.
    induction rows as [|r rows' IH]; simpl; constructor.
    + inversion Hin as [|? ? Hr _]; subst.
      destruct (translateDay_weekday r Hr) as (es & Hes & ->).
      exists es. auto.
    + apply IH.
      * inversion Hsorted; assumption.
      * inversion Hin; assumption.
  - exact Hsorted.
  - unfold translateMessageActivity. rewrite length_map.
    pose proof (strictly_sorted_length
                  (fun r => FIELD (dia r) weekday_names) 7 rows Hsorted 1
                  ltac:(lia)) as H.
    assert (Hrange : Forall (fun a => (1 <= FIELD (dia a) weekday_names <= 7)%Z)
                            rows).
    { eapply Forall_impl; [|exact Hin].
      intros r Hr. apply FIELD_weekday_range, Hr. }
    specialize (H Hrange). lia.
Qed.

Lemma add_row_total {K A : Type} (eqb : K -> K -> bool) (k : K) (a : A)
  (gs : list (K * list A)) :
  sum_Z (map (fun g => Z.of_nat (List.length (snd g))) (add_row eqb k a gs))
  = (sum_Z (map (fun g => Z.of_nat (List.length (snd g))) gs) + 1)%Z.
Proof.
  induction gs as [|[k' l] gs IH]; simpl; [reflexivity|].
  destruct (eqb k' k); simpl.
  - rewrite length_app. simpl List.length. lia.
  - rewrite IH. lia.
Qed.

Lemma group_by_total {K A : Type} (eqb : K -> K -> bool) (key : A -> K)
  (rows : list A) :
  sum_Z (map (fun g => Z.of_nat (List.length (snd g))) (group_by eqb key rows))
  = Z.of_nat (List.length rows).
Proof.
  unfold group_by.
  assert (H : forall gs,
             sum_Z (map (fun g => Z.of_nat (List.length (snd g)))
                        (fold_left (fun g a => add_row eqb (key a) a g) rows gs))
             = (sum_Z (map (fun g => Z.of_nat (List.length (snd g))) gs)
                + Z.of_nat (List.length rows))%Z).
  { induction rows as [|a rows IH]; intros gs; simpl List.length;
      simpl fold_left.
    - lia.
    - rewrite IH, add_row_total. lia. }
  rewrite H. simpl. lia.
Qed.

Lemma fold_left_add_shift (xs : list Z) (a : Z) :
  fold_left Z.add xs a = (a + sum_Z xs)%Z.
Proof.
  revert a. induction xs as [|x xs IH]; intros a; simpl.
  - lia.
  - rewrite IH. unfold sum_Z. simpl. lia.
Qed.

Lemma sum_of_flags {A : Type} (flag : A -> Z) (l : list A) :
  Forall (fun a => flag a = 0%Z \/ flag a = 1%Z) l ->
  sum_Z (map flag l) = count (fun a => (flag a =? 1)%Z) l.
Proof.
  unfold count, sum_Z.
  induction 1 as [|b l' Hb _ IH]; [reflexivity|].
  simpl map. simpl fold_right. simpl filter. rewrite IH.
  destruct Hb as [E|E]; rewrite E; simpl Z.eqb; cbv iota.
  - lia.
  - simpl List.length. lia.
Qed.

Lemma SUM_of_flags {A : Type} (flag : A -> Z) (l : list A) :
  l <> [] ->
  Forall (fun a => flag a = 0%Z \/ flag a = 1%Z) l ->
  SUM (map flag l) = Some (count (fun a => (flag a =? 1)%Z) l)
  /\ (0 <= count (fun a => (flag a =? 1)%Z) l <= Z.of_nat (List.length l))%Z.
Proof.
  intros Hne Hflags. split.
  - rewrite <- (sum_of_flags flag l Hflags).
    unfold SUM. destruct l as [|a l]; [congruence|].
    change (map flag (a :: l)) with (flag a :: map flag l).
    cbv beta iota. f_equal. rewrite fold_left_add_shift. lia.
  - unfold count. pose proof (filter_length_le (fun a => (flag a =? 1)%Z) l).
    lia.
Qed.

Lemma sql_messageActivity_row (now : datetime) (s : Store)
  (r : MessageActivity jsstring) :
  In r (sql_messageActivity now s) ->
  let of_day :=
    filter (fun m => str_eqb (format_a (cm_created_at m)) (dia r))
           (filter (fun m => dt_leb (sub_days 7 now) (cm_created_at m))
                   (st_chat_messages s)) in
  of_day <> []
  /\ mensajes r = Z.of_nat (List.length of_day)
  /\ chatbots r = SUM (map cm_is_bot of_day).
Proof.
  intros Hr of_day.
  destruct (sql_messageActivity_rows now s) as (Hperm & _ & _).
  apply (Permutation_in _ Hperm) in Hr.
  apply in_map_iff in Hr. destruct Hr as ([k l] & <- & Hg).
  cbn [dia mensajes chatbots fst snd] in *.
  pose proof (group_by_groups str_eqb (fun m => format_a (cm_created_at m))
                              str_eqb_eq
                              (filter (fun m => dt_leb (sub_days 7 now)
                                                       (cm_created_at m))
                                      (st_chat_messages s)))
    as (_ & _ & Hrows).
  pose proof (Hrows k l Hg) as Hl. fold of_day in Hl. subst l.
  split; [|split; reflexivity].
  eapply (group_by_nonempty str_eqb (fun m => format_a (cm_created_at m))
                             str_eqb_eq).
  exact Hg.
Qed.

(** X12. Where the flag [is_bot] of every message is 0 or 1, every row of
    the weekly activity of the snapshot has a number of bot messages, not
    NULL, between 0 and its number of messages, and the number of messages
    is not 0. *)
Theorem weekly_activity_bots_at_most_messages (now : datetime) (s : Store) :
  Forall (fun m => cm_is_bot m = 0%Z \/ cm_is_bot m = 1%Z)
         (st_chat_messages s) ->
  Forall (fun t => (0 < mensajes t)%Z
                   /\ exists b, chatbots t = Some b
                                /\ (0 <= b <= mensajes t)%Z)
         (translateMessageActivity (sql_messageActivity now s)).
Proof.
  intros Hflags. unfold translateMessageActivity.
  apply Forall_forall. intros t Ht. apply in_map_iff in Ht.
  destruct Ht as (r & <- & Hr). cbn [translateDay mensajes chatbots].
  destruct (sql_messageActivity_row now s r Hr) as (Hne & Hm & Hc).
  set (of_day := filter (fun m => str_eqb (format_a (cm_created_at m)) (dia r))
                        (filter (fun m => dt_leb (sub_days 7 now)
                                                 (cm_created_at m))
                                (st_chat_messages s))) in *.
  assert (Hof : Forall (fun m => cm_is_bot m = 0%Z \/ cm_is_bot m = 1%Z)
                       of_day).
  { apply Forall_forall. intros m Hm'. unfold of_day in Hm'.
    apply filter_In in Hm'. destruct Hm' as [Hm' _].
    apply filter_In in Hm'. destruct Hm' as [Hm' _].
    exact (proj1 (Forall_forall _ _) Hflags m Hm'). }
  destruct (SUM_of_flags cm_is_bot of_day Hne Hof) as [Hsum Hbound].
  split.
  - rewrite Hm. destruct of_day; [congruence|]. simpl List.length. lia.
  - eexists. split; [rewrite Hc; exact Hsum|]. rewrite Hm. exact Hbound.
Qed.

(** X13. The numbers of messages of the rows of the weekly activity add up
    to the number of messages of the last seven days: every message of the
    window is counted under exactly one day. *)
Theorem weekly_activity_total (now : datetime) (s : Store) :
  sum_Z (map mensajes (translateMessageActivity (sql_messageActivity now s)))
  = count (fun m => dt_leb (sub_days 7 now) (cm_created_at m))
          (st_chat_messages s).
Proof.
  unfold translateMessageActivity. rewrite map_map.
  rewrite (map_ext _ (@mensajes jsstring)) by reflexivity.
  destruct (sql_messageActivity_rows now s) as (Hperm & _ & _).
  rewrite (sum_Z_perm _ _ (Permutation_map mensajes Hperm)).
  rewrite map_map.
  rewrite (map_ext _ (fun g : jsstring * list ChatMessage =>
                        Z.of_nat (List.length (snd g)))) by reflexivity.
  rewrite group_by_total. reflexivity.
Qed.

(** ** The hours of most activity *)

Lemma sorted_firstn_skipn {A : Type} (R : A -> A -> Prop) (n : nat)
  (l : list A) :
  StronglySorted R l ->
  StronglySorted R (firstn n l)
  /\ forall x y, In x (firstn n l) -> In y (skipn n l) -> R x y.
Proof.
  revert l. induction n as [|n IH]; intros l Hs.
  - simpl. split; [constructor|]. intros x y [].
  - destruct l as [|a l]; simpl.
    + split; [constructor|]. intros x y [].
    + inversion Hs as [|? ? Hl Ha]; subst.
      destruct (IH l Hl) as [Hfirst Hcross]. split.
      * constructor; [exact Hfirst|].
        apply Forall_forall. intros x Hx.
        apply (proj1 (Forall_forall _ _) Ha).
        rewrite <- (firstn_skipn n l). apply in_or_app. left; exact Hx.
      * intros x y [<-|Hx] Hy.
        -- apply (proj1 (Forall_forall _ _) Ha).
           rewrite <- (firstn_skipn n l). apply in_or_app. right; exact Hy.
        -- apply Hcross; assumption.
Qed.

Lemma sorted_weaken {A : Type} (R R' : A -> A -> Prop) (l : list A) :
  (forall a b, R a b -> R' a b) ->
  StronglySorted R l -> StronglySorted R' l.
Proof.
  intros Himp. induction 1 as [|a l _ IH Ha]; constructor; [exact IH|].
  eapply Forall_impl; [|exact Ha]. intros b. apply Himp.
Qed.

Lemma skipn_nonempty_firstn_full {A : Type} (n : nat) (l : list A) (y : A) :
  In y (skipn n l) -> List.length (firstn n l) = n.
Proof.
  intros Hy.
  assert (Hlen : (0 < List.length (skipn n l))%nat)
    by (destruct (skipn n l); [destruct Hy | simpl; lia]).
  rewrite length_skipn in Hlen. rewrite length_firstn. lia.
Qed.

(** X14. The usage patterns hold at most three rows, of three different
    hours of the day; the count of a row is the number of messages of the
    last 30 days sent at that hour, not 0; the rows come by descending
    count; and an hour that has messages but no row was left out because
    three rows were already there, each with at least as many messages. *)
Theorem sql_patronesUso_top_three (now : datetime) (s : Store) :
  let window := filter (fun m => dt_leb (sub_days 30 now) (cm_created_at m))
                       (st_chat_messages s) in
  let at_hour h :=
    count (fun m => (dt_hour (cm_created_at m) =? h)%Z) window in
  let rows := sql_patronesUso now s in
  (List.length rows <= 3)%nat
  /\ NoDup (map hora rows)
  /\ Forall (fun r => pu_mensajes r = at_hour (hora r)
                      /\ (0 < pu_mensajes r)%Z)
            rows
  /\ StronglySorted (fun p q => (pu_mensajes q <= pu_mensajes p)%Z) rows
  /\ forall m, In m window ->
               ~ In (dt_hour (cm_created_at m)) (map hora rows) ->
               List.length rows = 3%nat
               /\ Forall (fun r => (at_hour (dt_hour (cm_created_at m))
                                    <= pu_mensajes r)%Z)
                         rows.
Proof.
  intros window at_hour rows. unfold rows, sql_patronesUso. fold window.
  set (keys := map (fun m => dt_hour (cm_created_at m)) window).
  set (all := map (fun g : Z * Z => {| hora := fst g; pu_mensajes := snd g |})
                  (group_count Z.eqb keys)).
  set (key := fun r : PatronUso => (- pu_mensajes r)%Z).
  set (L := order_by key all).
  pose proof (order_by_perm key all) as Hperm. fold L in Hperm.
  pose proof (order_by_sorted key all) as Hsorted. fold L in Hsorted.
  destruct (sorted_firstn_skipn _ 3 L Hsorted) as [Hfirst Hcross].
  assert (Hhoras : map hora all = map fst (group_count Z.eqb keys)).
  { unfold all. rewrite map_map. reflexivity. }
  assert (Hall : forall r, In r all ->
                           In (hora r) keys
                           /\ pu_mensajes r = at_hour (hora r)).
  { intros r Hr. unfold all in Hr. apply in_map_iff in Hr.
    destruct Hr as ([k n] & <- & Hg). cbn [hora pu_mensajes fst snd].
    apply (group_count_In Z.eqb Z.eqb_eq) in Hg. destruct Hg as [Hk ->].
    split; [exact Hk|]. unfold keys. apply occurrences_map. }
  assert (Hsub : forall r, In r (firstn 3 L) -> In r all).
  { intros r Hr. apply (Permutation_in _ Hperm).
    rewrite <- (firstn_skipn 3 L). apply in_or_app. left; exact Hr. }
  split; [|split; [|split; [|split]]].
  - rewrite length_firstn. lia.
  - assert (Hnd : NoDup (map hora L)).
    { apply (Permutation_NoDup
               (Permutation_sym (Permutation_map hora Hperm))).
      rewrite Hhoras. apply (group_count_NoDup Z.eqb Z.eqb_eq). }
    rewrite <- (firstn_skipn 3 L), map_app in Hnd.
    exact (NoDup_app_remove_r _ _ Hnd).
  - apply Forall_forall. intros r Hr.
    destruct (Hall r (Hsub r Hr)) as [Hk Hn]. split; [exact Hn|].
    rewrite Hn. unfold at_hour.
    rewrite <- (occurrences_map Z.eqb (fun m => dt_hour (cm_created_at m))).
    apply (occurrences_present Z.eqb Z.eqb_eq). exact Hk.
  - eapply sorted_weaken; [|exact Hfirst].
    intros p q. unfold key. lia.
  - intros m Hm Hout.
    set (h := dt_hour (cm_created_at m)) in *.
    assert (Hk : In h keys).
    { unfold keys, h.
      apply (in_map (fun m => dt_hour (cm_created_at m))). exact Hm. }
    assert (Hrow : In {| hora := h; pu_mensajes := occurrences Z.eqb h keys |}
                      all).
    { unfold all.
      apply (in_map (fun g : Z * Z =>
                       {| hora := fst g; pu_mensajes := snd g |})
                    _ (h, occurrences Z.eqb h keys)).
      apply (group_count_In Z.eqb Z.eqb_eq). split; [exact Hk|reflexivity]. }
    apply (Permutation_in _ (Permutation_sym Hperm)) in Hrow.
    rewrite <- (firstn_skipn 3 L) in Hrow. apply in_app_or in Hrow.
    destruct Hrow as [Hrow|Hrow].
    { exfalso. apply Hout. apply (in_map hora) in Hrow. exact Hrow. }
    split; [exact (skipn_nonempty_firstn_full 3 L _ Hrow)|].
    apply Forall_forall. intros r Hr.
    pose proof (Hcross r _ Hr Hrow) as Hle. unfold key in Hle.
    cbn [pu_mensajes] in Hle.
    unfold at_hour.
    rewrite <- (occurrences_map Z.eqb (fun m => dt_hour (cm_created_at m))).
    fold keys. lia.
Qed.

(** ** The monthly activity *)

Lemma str_leb_total (a b : jsstring) :
  str_leb a b = true \/ str_leb b a = true.
Proof.
  unfold str_leb. revert b.
  induction a as [|x a IH]; intros [|y b]; simpl; auto.
  rewrite (N.compare_antisym x y).
  destruct (N.compare_spec x y); simpl; auto.
Qed.

Lemma str_leb_trans (a b c : jsstring) :
  str_leb a b = true -> str_leb b c = true -> str_leb a c = true.
Proof.
  unfold str_leb. revert b c.
  induction a as [|x a IH]; intros [|y b] [|z c]; simpl; try congruence.
  destruct (N.compare_spec x y) as [->|Hxy|Hxy]; [| |discriminate].
  - destruct (N.compare_spec y z) as [->|Hyz|Hyz]; [apply IH|reflexivity|].
    intros _ H. discriminate H.
  - intros _. destruct (N.compare_spec y z) as [->|Hyz|Hyz].
    + intros _. rewrite (proj2 (N.compare_lt_iff x z) Hxy). reflexivity.
    + intros _.
      rewrite (proj2 (N.compare_lt_iff x z) (N.lt_trans _ _ _ Hxy Hyz)).
      reflexivity.
    + intros H. discriminate H.
Qed.

Lemma insert_with_perm {A : Type} (leb : A -> A -> bool) (x : A) (l : list A) :
  Permutation (insert_with leb x l) (x :: l).
Proof.
  induction l as [|y l IH]; simpl; [reflexivity|].
  destruct (leb y x); [|reflexivity].
  rewrite IH. apply perm_swap.
Qed.

Lemma sort_with_perm {A : Type} (leb : A -> A -> bool) (l : list A) :
  Permutation (sort_with leb l) l.
Proof.
  unfold sort_with.
  assert (H : forall acc,
             Permutation (fold_left (fun s x => insert_with leb x s) l acc)
                         (acc ++ l)).
  { induction l as [|x l IH]; intros acc; simpl.
    - rewrite app_nil_r. reflexivity.
    - rewrite IH, insert_with_perm. apply Permutation_middle. }
  apply (H []).
Qed.

Lemma sort_with_month_sorted {A : Type} (month : A -> jsstring) (l : list A) :
  StronglySorted (fun a b => str_leb (month a) (month b) = true)
                 (sort_with (fun a b => str_leb (month a) (month b)) l).
Proof.
  unfold sort_with.
  set (leb := fun a b => str_leb (month a) (month b)).
  assert (Hins : forall x acc,
             StronglySorted (fun a b => leb a b = true) acc ->
             StronglySorted (fun a b => leb a b = true)
                            (insert_with leb x acc)).
  { intros x acc. induction acc as [|y acc IH]; simpl; intros Hs.
    - repeat constructor.
    - inversion Hs as [|? ? Hacc Hy]; subst.
      destruct (leb y x) eqn:E.
      + constructor; [apply IH; exact Hacc|].
        apply Forall_forall. intros z Hz.
        apply (Permutation_in _ (insert_with_perm leb x acc)) in Hz.
        destruct Hz as [<-|Hz]; [exact E|].
        exact (proj1 (Forall_forall _ _) Hy z Hz).
      + assert (Hxy : leb x y = true).
        { unfold leb in *.
          destruct (str_leb_total (month x) (month y)) as [H|H];
            [exact H | congruence]. }
        constructor; [exact Hs|].
        constructor; [exact Hxy|].
        eapply Forall_impl; [|exact Hy]. intros z Hz.
        unfold leb in *. eapply str_leb_trans; eassumption. }
  assert (H : forall acc,
             StronglySorted (fun a b => leb a b = true) acc ->
             StronglySorted (fun a b => leb a b = true)
                            (fold_left (fun s x => insert_with leb x s) l acc)).
  { induction l as [|x l IH]; intros acc Hacc; simpl; [exact Hacc|].
    apply IH, Hins, Hacc. }
  apply H. constructor.
Qed.

Lemma month_key_eqb_eq (a b : jsstring * jsstring) :
  month_key_eqb a b = true <-> a = b.
Proof.
  destruct a as [a1 a2], b as [b1 b2]. unfold month_key_eqb. cbn [fst snd].
  rewrite andb_true_iff, !str_eqb_eq. split.
  - intros [-> ->]. reflexivity.
  - intros E. injection E as -> ->. auto.
Qed.

Lemma sql_monthlyTests_lookup (now : datetime) (s : Store) (k : jsstring) :
  match find (fun test => str_eqb (mt_month test) k) (sql_monthlyTests now s)
  with
  | Some test => mt_tests test
  | None => 0%Z
  end
  = count (fun r => str_eqb (format_Y_m (r_fecha r)) k)
          (filter (fun r => dt_leb (sub_months 6 now) (r_fecha r))
                  (st_resultados_test s)).
Proof.
  unfold sql_monthlyTests.
  set (tests := filter (fun r => dt_leb (sub_months 6 now) (r_fecha r))
                       (st_resultados_test s)).
  set (keys := map (fun r => format_Y_m (r_fecha r)) tests).
  set (all := map (fun g : jsstring * Z =>
                     {| mt_month := fst g; mt_tests := snd g |})
                  (group_count str_eqb keys)).
  set (leb := fun a b => str_leb (mt_month a) (mt_month b)).
  pose proof (sort_with_perm leb all) as Hperm.
  rewrite <- (occurrences_map str_eqb (fun r => format_Y_m (r_fecha r))).
  fold keys.
  destruct (find _ (sort_with leb all)) as [t|] eqn:F.
  - apply find_some in F. destruct F as [Hin Hk].
    apply str_eqb_eq in Hk.
    apply (Permutation_in _ Hperm) in Hin. unfold all in Hin.
    apply in_map_iff in Hin. destruct Hin as ([k' n] & <- & Hg).
    cbn [mt_month mt_tests fst snd] in *. subst k'.
    apply (group_count_In str_eqb str_eqb_eq) in Hg. apply Hg.
  - symmetry. apply (occurrences_absent str_eqb str_eqb_eq). intros Hk.
    assert (Hrow : In {| mt_month := k;
                         mt_tests := occurrences str_eqb k keys |} all).
    { unfold all.
      apply (in_map (fun g : jsstring * Z =>
                       {| mt_month := fst g; mt_tests := snd g |})
                    _ (k, occurrences str_eqb k keys)).
      apply (group_count_In str_eqb str_eqb_eq). split; [exact Hk|reflexivity]. }
    apply (Permutation_in _ (Permutation_sym Hperm)) in Hrow.
    pose proof (find_none _ _ F _ Hrow) as Hno. cbn [mt_month] in Hno.
    rewrite (proj2 (str_eqb_eq k k) eq_refl) in Hno. discriminate Hno.
Qed.

Lemma sql_monthlyUsers_rows (now : datetime) (s : Store) :
  let users := filter (fun u => dt_leb (sub_months 6 now) (u_created_at u))
                      (st_users s) in
  let month_key u := (format_Y_m (u_created_at u), format_b (u_created_at u)) in
  NoDup (map (fun r => (mu_month r, mu_name r)) (sql_monthlyUsers now s))
  /\ (forall r, In r (sql_monthlyUsers now s) ->
                In (mu_month r, mu_name r) (map month_key users)
                /\ mu_usuarios r
                   = count (fun u => month_key_eqb (month_key u)
                                                   (mu_month r, mu_name r))
                           users)
  /\ (forall u, In u users ->
                exists r, In r (sql_monthlyUsers now s)
                          /\ (mu_month r, mu_name r) = month_key u)
  /\ StronglySorted (fun a b => str_leb (mu_month a) (mu_month b) = true)
                    (sql_monthlyUsers now s).
Proof.
  intros users month_key. unfold sql_monthlyUsers. fold users.
  change (map (fun u => (format_Y_m (u_created_at u),
                         format_b (u_created_at u))) users)
    with (map month_key users).
  set (keys := map month_key users).
  set (all := map (fun g : jsstring * jsstring * Z =>
                     {| mu_month := fst (fst g); mu_name := snd (fst g);
                        mu_usuarios := snd g |})
                  (group_count month_key_eqb keys)).
  set (leb := fun a b => str_leb (mu_month a) (mu_month b)).
  pose proof (sort_with_perm leb all) as Hperm.
  assert (Hkeys : map (fun r => (mu_month r, mu_name r)) all
                  = map fst (group_count month_key_eqb keys)).
  { unfold all. rewrite map_map. apply map_ext.
    intros [[a b] n]. reflexivity. }
  split; [|split; [|split]].
  - apply (Permutation_NoDup
             (Permutation_sym
                (Permutation_map (fun r => (mu_month r, mu_name r)) Hperm))).
    rewrite Hkeys. apply (group_count_NoDup month_key_eqb month_key_eqb_eq).
  - intros r Hr. apply (Permutation_in _ Hperm) in Hr. unfold all in Hr.
    apply in_map_iff in Hr. destruct Hr as ([[a b] n] & <- & Hg).
    cbn [mu_month mu_name mu_usuarios fst snd].
    apply (group_count_In month_key_eqb month_key_eqb_eq) in Hg.
    destruct Hg as [Hk ->]. split; [exact Hk|].
    unfold keys. apply occurrences_map.
  - intros u Hu.
    exists {| mu_month := fst (month_key u); mu_name := snd (month_key u);
              mu_usuarios := occurrences month_key_eqb (month_key u) keys |}.
    split; [|reflexivity].
    apply (Permutation_in _ (Permutation_sym Hperm)). unfold all.
    apply (in_map (fun g : jsstring * jsstring * Z =>
                     {| mu_month := fst (fst g); mu_name := snd (fst g);
                        mu_usuarios := snd g |})
                  _ (month_key u, occurrences month_key_eqb (month_key u) keys)).
    apply (group_count_In month_key_eqb month_key_eqb_eq).
    split; [|reflexivity]. unfold keys. apply in_map. exact Hu.
  - apply (sort_with_month_sorted mu_month).
Qed.

Lemma combineMonthlyData_keeps_order (monthlyUsers : list MonthlyUsers)
  (monthlyTests : list MonthlyTests) :
  StronglySorted (fun a b => str_leb (mu_month a) (mu_month b) = true)
                 monthlyUsers ->
  StronglySorted (fun a b => str_leb (md_month a) (md_month b) = true)
                 (combineMonthlyData monthlyUsers monthlyTests).
Proof.
  unfold combineMonthlyData.
  induction 1 as [|r l _ IH Hr]; simpl; constructor; [exact IH|].
  apply Forall_forall. intros d Hd. apply in_map_iff in Hd.
  destruct Hd as (r' & <- & Hr'). cbn [md_month].
  exact (proj1 (Forall_forall _ _) Hr r' Hr').
Qed.

(** X15. The monthly activity of the snapshot, the two queries followed by
    the merge: there is one row for every month (key and name) in which a
    user of the last six months was created, and no other row; its number
    of users is the number of those users, not 0, and its number of tests
    the number of tests of the last six months dated in the month of that
    key, 0 where there is none; the rows are in ascending order of the
    month key. *)
Theorem monthlyActivity_counts (now : datetime) (s : Store) :
  let users := filter (fun u => dt_leb (sub_months 6 now) (u_created_at u))
                      (st_users s) in
  let tests := filter (fun r => dt_leb (sub_months 6 now) (r_fecha r))
                      (st_resultados_test s) in
  let month_key u := (format_Y_m (u_created_at u), format_b (u_created_at u)) in
  let data := combineMonthlyData (sql_monthlyUsers now s)
                                 (sql_monthlyTests now s) in
  NoDup (map (fun d => (md_month d, md_name d)) data)
  /\ (forall key, In key (map (fun d => (md_month d, md_name d)) data)
                  <-> In key (map month_key users))
  /\ Forall (fun d =>
               md_usuarios d
               = count (fun u => month_key_eqb (month_key u)
                                               (md_month d, md_name d))
                       users
               /\ (0 < md_usuarios d)%Z
               /\ md_tests d
                  = count (fun r => str_eqb (format_Y_m (r_fecha r))
                                            (md_month d))
                          tests)
            data
  /\ StronglySorted (fun a b => str_leb (md_month a) (md_month b) = true) data.
Proof.
  intros users tests month_key data.
  destruct (sql_monthlyUsers_rows now s) as (Hnd & Hrows & Hcover & Hsorted).
  fold users in Hrows, Hcover. fold month_key in Hrows, Hcover.
  assert (Hkeys : map (fun d => (md_month d, md_name d)) data
                  = map (fun r => (mu_month r, mu_name r))
                        (sql_monthlyUsers now s)).
  { unfold data, combineMonthlyData. rewrite map_map. reflexivity. }
  split; [|split; [|split]].
  - rewrite Hkeys. exact Hnd.
  - intros key. rewrite Hkeys. split.
    + intros Hin. apply in_map_iff in Hin. destruct Hin as (r & <- & Hr).
      apply Hrows. exact Hr.
    + intros Hin. apply in_map_iff in Hin. destruct Hin as (u & <- & Hu).
      destruct (Hcover u Hu) as (r & Hr & E).
      apply in_map_iff. exists r. split; [exact E | exact Hr].
  - apply Forall_forall. intros d Hd. unfold data, combineMonthlyData in Hd.
    apply in_map_iff in Hd. destruct Hd as (r & <- & Hr).
    cbn [md_month md_name md_usuarios md_tests].
    destruct (Hrows r Hr) as [Hk Hn]. split; [exact Hn|]. split.
    + rewrite Hn.
      rewrite <- (occurrences_map month_key_eqb month_key).
      apply (occurrences_present month_key_eqb month_key_eqb_eq). exact Hk.
    + apply sql_monthlyTests_lookup.
  - apply combineMonthlyData_keeps_order. exact Hsorted.
Qed.

(** ** The order of the month keys *)

Lemma digit_compare (n m : Z) :
  N.compare (digit n) (digit m) = Z.compare (n mod 10) (m mod 10).
Proof.
  unfold digit. rewrite <- N2Z.inj_compare, !N2Z.inj_add.
  rewrite !Z2N.id by (apply Z.mod_pos_bound; lia).
  apply Z.add_compare_mono_l.
Qed.

Lemma format_Y_m_leb (a b : datetime) :
  valid_month a -> valid_month b ->
  (str_leb (format_Y_m a) (format_Y_m b) = true
   <-> (month_index a <= month_index b)%Z).
Proof.
  unfold valid_month, month_index, str_leb, format_Y_m.
  intros [Hya Hma] [Hyb Hmb]. cbn [str_compare].
  rewrite !digit_compare. rewrite N.compare_refl.
  set (ya := dt_year a) in *. set (yb := dt_year b) in *.
  set (ma := dt_month a) in *. set (mb := dt_month b) in *.
  destruct (Z.compare_spec ((ya / 1000) mod 10) ((yb / 1000) mod 10))
    as [E3|E3|E3];
  [ destruct (Z.compare_spec ((ya / 100) mod 10) ((yb / 100) mod 10))
      as [E2|E2|E2];
    [ destruct (Z.compare_spec ((ya / 10) mod 10) ((yb / 10) mod 10))
        as [E1|E1|E1];
      [ destruct (Z.compare_spec (ya mod 10) (yb mod 10)) as [E0|E0|E0];
        [ destruct (Z.compare_spec ((ma / 10) mod 10) ((mb / 10) mod 10))
            as [F1|F1|F1];
          [ destruct (Z.compare_spec (ma mod 10) (mb mod 10)) as [F0|F0|F0]
          | | ]
        | | ]
      | | ]
    | | ]
  | | ];
  (split; [intros H; try discriminate H | intros H; try reflexivity]);
  Z.div_mod_to_equations; lia.
Qed.

Lemma format_Y_m_same_month (a b : datetime) :
  valid_month a -> valid_month b ->
  format_Y_m a = format_Y_m b ->
  month_index a = month_index b /\ format_b a = format_b b.
Proof.
  intros Ha Hb E.
  assert (Hab : str_leb (format_Y_m a) (format_Y_m b) = true).
  { rewrite E. destruct (str_leb_total (format_Y_m b) (format_Y_m b)); auto. }
  assert (Hba : str_leb (format_Y_m b) (format_Y_m a) = true).
  { rewrite E. destruct (str_leb_total (format_Y_m b) (format_Y_m b)); auto. }
  apply (format_Y_m_leb a b Ha Hb) in Hab.
  apply (format_Y_m_leb b a Hb Ha) in Hba.
  split; [lia|].
  unfold valid_month, month_index in *.
  assert (Hm : dt_month a = dt_month b) by lia.
  unfold format_b. rewrite Hm. reflexivity.
Qed.

Lemma sorted_with_facts {A : Type} (R : A -> A -> Prop) (P : A -> Prop)
  (l : list A) :
  StronglySorted R l -> Forall P l ->
  StronglySorted (fun a b => R a b /\ P a /\ P b) l.
Proof.
  induction 1 as [|a l _ IH Ha]; intros HP; [constructor|].
  inversion HP as [|? ? Hpa Hpl]; subst.
  constructor; [apply IH; exact Hpl|].
  apply Forall_forall. intros b Hb.
  split; [exact (proj1 (Forall_forall _ _) Ha b Hb)|].
  split; [exact Hpa | exact (proj1 (Forall_forall _ _) Hpl b Hb)].
Qed.

Lemma sorted_distinct_keys {A K : Type} (R : A -> A -> Prop) (key : A -> K)
  (l : list A) :
  StronglySorted R l -> NoDup (map key l) ->
  StronglySorted (fun a b => R a b /\ key a <> key b) l.
Proof.
  induction 1 as [|a l _ IH Ha]; intros Hnd; [constructor|].
  simpl in Hnd. apply NoDup_cons_iff in Hnd. destruct Hnd as [Hfresh Hnd].
  constructor; [apply IH; exact Hnd|].
  apply Forall_forall. intros b Hb.
  split; [exact (proj1 (Forall_forall _ _) Ha b Hb)|].
  intros E. apply Hfresh. rewrite E. apply in_map. exact Hb.
Qed.

Lemma sorted_map {A B : Type} (R : B -> B -> Prop) (f : A -> B) (l : list A) :
  StronglySorted (fun a b => R (f a) (f b)) l -> StronglySorted R (map f l).
Proof.
  induction 1 as [|a l _ IH Ha]; simpl; constructor; [exact IH|].
  apply Forall_forall. intros b Hb. apply in_map_iff in Hb.
  destruct Hb as (b' & <- & Hb'). exact (proj1 (Forall_forall _ _) Ha b' Hb').
Qed.

(** X16. Where the creation dates of the users have a year of four digits
    and a month from 1 to 12, the monthly activity is in the order of the
    calendar, one row per calendar month: of two rows, the users counted in
    the earlier row were created in a strictly earlier calendar month than
    the users counted in the later row. *)
Theorem monthlyActivity_chronological (now : datetime) (s : Store) :
  Forall (fun u => valid_month (u_created_at u)) (st_users s) ->
  let users := filter (fun u => dt_leb (sub_months 6 now) (u_created_at u))
                      (st_users s) in
  StronglySorted
    (fun a b =>
       forall u v, In u users -> In v users ->
                   format_Y_m (u_created_at u) = md_month a ->
                   format_Y_m (u_created_at v) = md_month b ->
                   (month_index (u_created_at u)
                    < month_index (u_created_at v))%Z)
    (combineMonthlyData (sql_monthlyUsers now s) (sql_monthlyTests now s)).
Proof.
  intros Hvalid users.
  destruct (sql_monthlyUsers_rows now s) as (Hnd & Hrows & _ & Hsorted).
  fold users in Hrows.
  assert (Hv : forall u, In u users -> valid_month (u_created_at u)).
  { intros u Hu. unfold users in Hu. apply filter_In in Hu.
    exact (proj1 (Forall_forall _ _) Hvalid u (proj1 Hu)). }
  set (month_key := fun u : User =>
                      (format_Y_m (u_created_at u),
                       format_b (u_created_at u))) in *.
  set (key := fun r : MonthlyUsers => (mu_month r, mu_name r)) in *.
  assert (Hfrom : Forall (fun r => In (key r) (map month_key users))
                         (sql_monthlyUsers now s)).
  { apply Forall_forall. intros r Hr. apply (Hrows r Hr). }
  pose proof (sorted_with_facts _ _ _
                (sorted_distinct_keys _ key _ Hsorted Hnd) Hfrom) as Hall.
  unfold combineMonthlyData. apply sorted_map.
  eapply sorted_weaken; [|exact Hall].
  intros a b [[Hle Hne] [Ha Hb]] u v Hu Hv' Eu Ev. cbn [md_month] in Eu, Ev.
  apply in_map_iff in Ha. destruct Ha as (ua & Eua & Hua).
  apply in_map_iff in Hb. destruct Hb as (ub & Eub & Hub).
  unfold month_key, key in Eua, Eub.
  injection Eua as Eua1 Eua2. injection Eub as Eub1 Eub2.
  rewrite <- Eu, <- Ev in Hle.
  apply (format_Y_m_leb _ _ (Hv u Hu) (Hv v Hv')) in Hle.
  destruct (Z.eq_dec (month_index (u_created_at u))
                     (month_index (u_created_at v))) as [E|E]; [|lia].
  exfalso. apply Hne. unfold key.
  destruct (format_Y_m_same_month _ _ (Hv ua Hua) (Hv u Hu))
    as [Ia Na]; [congruence|].
  destruct (format_Y_m_same_month _ _ (Hv ub Hub) (Hv v Hv'))
    as [Ib Nb]; [congruence|].
  assert (Hm : dt_month (u_created_at u) = dt_month (u_created_at v)).
  { pose proof (Hv u Hu) as [? ?]. pose proof (Hv v Hv') as [? ?].
    unfold month_index in E. lia. }
  assert (Hy : dt_year (u_created_at u) = dt_year (u_created_at v)).
  { unfold month_index in E. lia. }
  assert (Hname : format_b (u_created_at u) = format_b (u_created_at v)).
  { unfold format_b. rewrite Hm. reflexivity. }
  assert (Hmonth : format_Y_m (u_created_at u) = format_Y_m (u_created_at v)).
  { unfold format_Y_m. rewrite Hm, Hy. reflexivity. }
  f_equal; congruence.
Qed.

Lemma monthlyActivity_chronological_witness :
  Forall (fun u => valid_month (u_created_at u)) (st_users sample_store)
  /\ StronglySorted
       (fun a b =>
          forall u v,
            In u (filter (fun u => dt_leb (sub_months 6 sample_now)
                                          (u_created_at u))
                         (st_users sample_store)) ->
            In v (filter (fun u => dt_leb (sub_months 6 sample_now)
                                          (u_created_at u))
                         (st_users sample_store)) ->
            format_Y_m (u_created_at u) = md_month a ->
            format_Y_m (u_created_at v) = md_month b ->
            (month_index (u_created_at u) < month_index (u_created_at v))%Z)
       (combineMonthlyData (sql_monthlyUsers sample_now sample_store)
                           (sql_monthlyTests sample_now sample_store)).
Proof.
  assert (H : Forall (fun u => valid_month (u_created_at u))
                     (st_users sample_store)).
  { repeat constructor; cbn; lia. }
  split; [exact H|].
  exact (monthlyActivity_chronological sample_now sample_store H).
Defined.

(** ** The chats with the most messages *)

Lemma age_eqb_eq (a b : option Z) : age_eqb a b = true <-> a = b.
Proof.
  destruct a as [x|], b as [y|]; simpl;
    try (split; [discriminate | intros H; discriminate H]).
  - rewrite Z.eqb_eq. split; [intros ->; reflexivity | intros H; congruence].
  - tauto.
Qed.

Lemma chat_key_eqb_eq (a b : ChatKey) : chat_key_eqb a b = true <-> a = b.
Proof.
  destruct a as [[[i n] g] e], b as [[[i' n'] g'] e']. unfold chat_key_eqb.
  rewrite !andb_true_iff, Z.eqb_eq, str_eqb_eq, gender_eqb_eq, age_eqb_eq.
  split.
  - intros [[[-> ->] ->] ->]. reflexivity.
  - intros E. injection E as -> -> -> ->. auto.
Qed.

Lemma left_join_tests_rows (c : ChatRow) (u : User) (cm : ChatMessage)
  (tests : list ResultadoTest) :
  Z.of_nat (List.length (left_join_tests c u cm tests))
  = Z.max 1 (count (fun rt => (u_id u =? r_usuario_id rt)%Z) tests)
  /\ forall j, In j (left_join_tests c u cm tests) ->
               cj_chat j = c /\ cj_user j = u /\ cj_message j = cm.
Proof.
  unfold left_join_tests, count.
  destruct (filter (fun rt => (u_id u =? r_usuario_id rt)%Z) tests)
    as [|rt matching].
  - split; [reflexivity|]. intros j [<-|[]]. auto.
  - split.
    + rewrite length_map. simpl List.length. lia.
    + intros j Hj. apply in_map_iff in Hj. destruct Hj as (rt' & <- & _). auto.
Qed.

Lemma matching_user (k : Z) (users : list User) :
  NoDup (map u_id users) ->
  filter (fun u => (k =? u_id u)%Z) users = []
  \/ exists u, filter (fun u => (k =? u_id u)%Z) users = [u]
               /\ In u users /\ k = u_id u.
Proof.
  induction users as [|u users IH]; simpl; intros Hnd; [left; reflexivity|].
  apply NoDup_cons_iff in Hnd. destruct Hnd as [Hfresh Hnd].
  destruct (k =? u_id u)%Z eqn:E.
  - apply Z.eqb_eq in E. right. exists u. split; [|auto].
    f_equal. destruct (IH Hnd) as [Hnone|(u' & _ & Hin & Hk)]; [exact Hnone|].
    exfalso. apply Hfresh. rewrite <- E, Hk. apply in_map. exact Hin.
  - destruct (IH Hnd) as [Hnone|(u' & Hone & Hin & Hk)]; [left; exact Hnone|].
    right. exists u'. auto.
Qed.

Lemma joins_per_message {A : Type} (f : A -> list ChatJoin) (n : Z)
  (l : list A) :
  (forall a, Z.of_nat (List.length (f a)) = n) ->
  Z.of_nat (List.length (flat_map f l)) = (Z.of_nat (List.length l) * n)%Z.
Proof.
  intros Hf. induction l as [|a l IH]; [reflexivity|].
  cbn [flat_map List.length].
  rewrite length_app, Nat2Z.inj_add, IH, Hf. lia.
Qed.

Lemma joins_of_chat_rows (s : Store) (c : ChatRow) :
  NoDup (map u_id (st_users s)) ->
  joins_of_chat s c = []
  \/ exists u,
       In u (st_users s) /\ ch_user_id c = u_id u
       /\ (forall j, In j (joins_of_chat s c) ->
                     cj_chat j = c /\ cj_user j = u)
       /\ Z.of_nat (List.length (joins_of_chat s c))
          = (count (fun cm => (ch_id c =? cm_chat_id cm)%Z)
                   (st_chat_messages s)
             * Z.max 1 (count (fun rt => (u_id u =? r_usuario_id rt)%Z)
                              (st_resultados_test s)))%Z.
Proof.
  intros Hnd. unfold joins_of_chat.
  destruct (matching_user (ch_user_id c) (st_users s) Hnd)
    as [->|(u & -> & Hu & Hid)]; [left; reflexivity|].
  right. exists u. split; [exact Hu|]. split; [exact Hid|].
  simpl flat_map. rewrite app_nil_r. split.
  - intros j Hj. apply in_flat_map in Hj. destruct Hj as (cm & _ & Hj).
    destruct (left_join_tests_rows c u cm (st_resultados_test s)) as [_ H].
    destruct (H j Hj) as (Hc & Hu' & _). auto.
  - unfold count at 1. apply joins_per_message.
    intros cm. apply left_join_tests_rows.
Qed.

Lemma group_of_chat (s : Store) (c : ChatRow) (u : User) (k : ChatKey)
  (chats : list ChatRow) :
  NoDup (map ch_id chats) ->
  In c chats ->
  k = (ch_id c, ch_name c, u_gender u, u_age u) ->
  (forall c' j, In j (joins_of_chat s c') -> cj_chat j = c') ->
  (forall j, In j (joins_of_chat s c) -> cj_user j = u) ->
  filter (fun j => chat_key_eqb (chat_key j) k)
         (flat_map (joins_of_chat s) chats)
  = joins_of_chat s c.
Proof.
  intros Hnd Hc Hk Hchat Huser.
  assert (Hin : forall j, In j (joins_of_chat s c) ->
                          chat_key_eqb (chat_key j) k = true).
  { intros j Hj. apply chat_key_eqb_eq. unfold chat_key.
    rewrite (Hchat c j Hj), (Huser j Hj). symmetry. exact Hk. }
  assert (Hout : forall c' j, ch_id c' <> ch_id c ->
                              In j (joins_of_chat s c') ->
                              chat_key_eqb (chat_key j) k = false).
  { intros c' j Hne Hj.
    destruct (chat_key_eqb (chat_key j) k) eqn:E; [|reflexivity].
    apply chat_key_eqb_eq in E. unfold chat_key in E.
    rewrite (Hchat c' j Hj), Hk in E. injection E as E _ _ _. contradiction. }
  assert (Hkeep : forall l, (forall j, In j l ->
                                       chat_key_eqb (chat_key j) k = true) ->
                            filter (fun j => chat_key_eqb (chat_key j) k) l = l).
  { induction l as [|j l IH]; simpl; intros H; [reflexivity|].
    rewrite (H j (or_introl eq_refl)). f_equal. apply IH.
    intros j' Hj'. apply H. right; exact Hj'. }
  assert (Hdrop : forall l, (forall j, In j l ->
                                       chat_key_eqb (chat_key j) k = false) ->
                            filter (fun j => chat_key_eqb (chat_key j) k) l = []).
  { induction l as [|j l IH]; simpl; intros H; [reflexivity|].
    rewrite (H j (or_introl eq_refl)). apply IH.
    intros j' Hj'. apply H. right; exact Hj'. }
  induction chats as [|c' chats IH]; [destruct Hc|].
  simpl in Hnd. apply NoDup_cons_iff in Hnd. destruct Hnd as [Hfresh Hnd].
  simpl flat_map. rewrite filter_app.
  destruct Hc as [->|Hc].
  - rewrite (Hkeep _ Hin). rewrite Hdrop; [apply app_nil_r|].
    intros j Hj. apply in_flat_map in Hj. destruct Hj as (c' & Hc' & Hj).
    apply (Hout c'); [|exact Hj].
    intros E. apply Hfresh. rewrite <- E. apply in_map. exact Hc'.
  - rewrite (Hdrop (joins_of_chat s c')); [apply (IH Hnd Hc)|].
    intros j Hj. apply (Hout c'); [|exact Hj].
    intros E. apply Hfresh. rewrite E. apply in_map. exact Hc.
Qed.

(** X17. Where the ids of the chats and the ids of the users are keys,
    every row of the chat analytics is the row of one chat that has messages
    and whose user exists, with the name of the chat and the gender and age
    of the user; its [message_count] is the number of messages of the chat
    multiplied by the number of tests of the user where the user has tests,
    the left join repeating every message once per test. *)
Theorem sql_chatAnalytics_message_count (s : Store) :
  NoDup (map ch_id (st_chats s)) ->
  NoDup (map u_id (st_users s)) ->
  Forall (fun r =>
            exists c u,
              In c (st_chats s) /\ In u (st_users s)
              /\ ch_user_id c = u_id u
              /\ chat_id r = ch_id c /\ chat_name r = ch_name c
              /\ user_gender r = u_gender u /\ user_age r = u_age u
              /\ (0 < count (fun cm => (ch_id c =? cm_chat_id cm)%Z)
                            (st_chat_messages s))%Z
              /\ message_count r
                 = (count (fun cm => (ch_id c =? cm_chat_id cm)%Z)
                          (st_chat_messages s)
                    * Z.max 1 (count (fun rt => (u_id u =? r_usuario_id rt)%Z)
                                     (st_resultados_test s)))%Z)
         (sql_chatAnalytics s).
Proof.
  intros Hchats Husers. apply Forall_forall. intros r Hr.
  unfold sql_chatAnalytics in Hr.
  set (groups := group_by chat_key_eqb chat_key (chat_joins s)) in Hr.
  assert (Hr' : In r (map (fun g : ChatKey * list ChatJoin =>
               match fst g with
               | (i, n, ge, a) =>
                   {| chat_id := i; chat_name := n; user_gender := ge;
                      user_age := a;
                      message_count := Z.of_nat (List.length (snd g));
                      max_ansiedad :=
                        MAX (not_null (test_column r_ansiedad_score) (snd g));
                      max_depresion :=
                        MAX (not_null (test_column r_depresion_score) (snd g))
                   |}
               end) groups)).
  { eapply Permutation_in; [apply order_by_perm|].
    rewrite <- (firstn_skipn 50 (order_by _ _)). apply in_or_app.
    left; exact Hr. }
  clear Hr. apply in_map_iff in Hr'. destruct Hr' as ([k l] & Er & Hg).
  cbn [fst snd] in Er.
  pose proof (group_by_groups chat_key_eqb chat_key chat_key_eqb_eq
                              (chat_joins s)) as (_ & Hkeys & Hrows).
  fold groups in Hkeys, Hrows.
  pose proof (Hrows k l Hg) as Hl.
  assert (Hk : In k (map chat_key (chat_joins s))).
  { apply Hkeys. apply (in_map fst) in Hg. exact Hg. }
  apply in_map_iff in Hk. destruct Hk as (j0 & Hk & Hj0).
  unfold chat_joins in Hj0. apply in_flat_map in Hj0.
  destruct Hj0 as (c & Hc & Hj0).
  destruct (joins_of_chat_rows s c Husers) as [Hnone|(u & Hu & Hid & Hcu & Hn)].
  { rewrite Hnone in Hj0. destruct Hj0. }
  assert (Hkey : k = (ch_id c, ch_name c, u_gender u, u_age u)).
  { rewrite <- Hk. unfold chat_key.
    destruct (Hcu j0 Hj0) as [-> ->]. reflexivity. }
  assert (Hgroup : l = joins_of_chat s c).
  { rewrite Hl. unfold chat_joins.
    apply (group_of_chat s c u k (st_chats s) Hchats Hc Hkey).
    - intros c' j Hj.
      destruct (joins_of_chat_rows s c' Husers) as [Hnone|(u' & _ & _ & H & _)].
      + rewrite Hnone in Hj. destruct Hj.
      + apply (H j Hj).
    - intros j Hj. apply (Hcu j Hj). }
  exists c, u. rewrite Hkey in Er. subst r.
  cbn [chat_id chat_name user_gender user_age message_count].
  repeat (split; [solve [auto]|]).
  rewrite Hgroup, Hn. split; [|reflexivity].
  assert (Hpos : (0 < Z.of_nat (List.length (joins_of_chat s c)))%Z).
  { destruct (joins_of_chat s c); [destruct Hj0 | simpl List.length; lia]. }
  rewrite Hn in Hpos. unfold count in *. nia.
Qed.

Lemma sql_chatAnalytics_message_count_witness :
  NoDup (map ch_id (st_chats sample_store))
  /\ NoDup (map u_id (st_users sample_store))
  /\ Forall (fun r =>
               exists c u,
                 In c (st_chats sample_store) /\ In u (st_users sample_store)
                 /\ ch_user_id c = u_id u
                 /\ chat_id r = ch_id c /\ chat_name r = ch_name c
                 /\ user_gender r = u_gender u /\ user_age r = u_age u
                 /\ (0 < count (fun cm => (ch_id c =? cm_chat_id cm)%Z)
                               (st_chat_messages sample_store))%Z
                 /\ message_count r
                    = (count (fun cm => (ch_id c =? cm_chat_id cm)%Z)
                             (st_chat_messages sample_store)
                       * Z.max 1
                           (count (fun rt => (u_id u =? r_usuario_id rt)%Z)
                                  (st_resultados_test sample_store)))%Z)
            (sql_chatAnalytics sample_store).
Proof.
  assert (Hchats : NoDup (map ch_id (st_chats sample_store))).
  { cbn. repeat constructor; cbn; intuition discriminate. }
  assert (Husers : NoDup (map u_id (st_users sample_store))).
  { cbn. repeat constructor; cbn; intuition discriminate. }
  split; [exact Hchats|]. split; [exact Husers|].
  exact (sql_chatAnalytics_message_count sample_store Hchats Husers).
Defined.

Lemma weekly_activity_bots_at_most_messages_witness :
  Forall (fun m => cm_is_bot m = 0%Z \/ cm_is_bot m = 1%Z)
         (st_chat_messages sample_store)
  /\ Forall (fun t => (0 < mensajes t)%Z
                      /\ exists b, chatbots t = Some b
                                   /\ (0 <= b <= mensajes t)%Z)
            (translateMessageActivity
               (sql_messageActivity sample_now sample_store)).
Proof.
  assert (H : Forall (fun m => cm_is_bot m = 0%Z \/ cm_is_bot m = 1%Z)
                     (st_chat_messages sample_store)).
  { repeat (apply Forall_cons; [cbn; auto|]). apply Forall_nil. }
  split; [exact H|].
  exact (weekly_activity_bots_at_most_messages sample_now sample_store H).
Defined.

(** ** The connection pool *)

Section ConnectionPoolProperties.

Context {Pool Query Rows : Type}.
Variable createPool : nat -> Pool.
Variable execute : Pool -> Query -> result Rows.

Lemma run_queries_on_pool (p : Pool) (queries : list Query)
  (st : Connections Pool) :
  pool st = Some p ->
  let outcomes := map (execute p) queries in
  run_queries createPool execute queries st
  = (outcomes,
     {| pool := Some p;
        pools_created := pools_created st;
        console := console st ++ flat_map failure outcomes |}).
Proof.
  revert st. induction queries as [|q queries IH]; intros st Hp; simpl.
  - rewrite app_nil_r. destruct st as [pl n c]. simpl in Hp. subst pl.
    reflexivity.
  - unfold executeQuery_on, getConnection. rewrite Hp.
    destruct (execute p q) as [rows|e]; simpl.
    + rewrite (IH st Hp). reflexivity.
    + rewrite IH by exact Hp. cbn [pools_created console].
      rewrite <- app_assoc. reflexivity.
Qed.

(** X18. Over any sequence of calls of [executeQuery] that starts with the
    pool unset, [mysql.createPool] is called once, by the first call, and
    never where there is no call; every query runs on that one pool; every
    exception of the driver is rethrown as it is, and written to the
    console once, in the order of the calls. *)
Theorem executeQuery_single_pool (queries : list Query) :
  let outcomes := map (execute (createPool 0)) queries in
  run_queries createPool execute queries unset
  = (outcomes,
     {| pool := match queries with
                | [] => None
                | _ :: _ => Some (createPool 0)
                end;
        pools_created := Nat.min 1 (List.length queries);
        console := flat_map failure outcomes |}).
Proof.
  destruct queries as [|q queries]; [reflexivity|].
  cbn [run_queries map List.length Nat.min].
  unfold executeQuery_on, getConnection, unset. cbn [pool pools_created console].
  destruct (execute (createPool 0) q) as [rows|e].
  - rewrite (run_queries_on_pool (createPool 0)) by reflexivity. reflexivity.
  - rewrite (run_queries_on_pool (createPool 0)) by reflexivity. reflexivity.
Qed.

End ConnectionPoolProperties.
